(** * wtm (worktree-manager): relocation and shared-file persistence

    A shallow embedding of the Go sources of the [cmd] package
    ([switch.go], [checkout.go], [clone.go], [persist.go],
    [restore.go]) and the properties of the specification checked
    against it.

    Layout of the development:
    - [GoString]: Go strings as byte sequences, the rune iteration of
      [for _, c := range s] and the conversion [string(rune)];
    - [Strings]: the functions of package [strings] the commands call;
    - [Filepath]: package [path/filepath] on a Unix system;
    - [Os]: a file tree with the system calls the commands issue;
    - [Cmd]: the commands themselves;
    - [Example]: small repositories at which the theorems are applied;
    - the theorems, grouped by component. *)

From Stdlib Require Import ZArith Lia String Ascii List Bool.
From stdpp Require Import gmap strings list pretty.

Open Scope string_scope.
Open Scope Z_scope.

(** ** Go strings *)

Module GoString.

(** A Go string is a sequence of bytes; [string] (a list of 8-bit
    characters) is used for it throughout. *)
Definition byte_val (c : ascii) : Z := Z.of_N (N_of_ascii c).

Definition byte_of (z : Z) : ascii := ascii_of_N (Z.to_N z).

(** [utf8.RuneError], the replacement character U+FFFD. *)
Definition RuneError : Z := 0xFFFD.

Definition MaxRune : Z := 0x10FFFF.

(** Continuation bytes lie in [locb, hicb] = [0x80, 0xBF]. *)
Definition is_cont (b : Z) : bool := (0x80 <=? b) && (b <=? 0xBF).

(** Accepted range of the second byte, by first byte (the table
    [acceptRanges] of package [unicode/utf8]). *)
Definition accept_lo (b0 : Z) : Z :=
  if b0 =? 0xE0 then 0xA0 else if b0 =? 0xF0 then 0x90 else 0x80.

Definition accept_hi (b0 : Z) : Z :=
  if b0 =? 0xED then 0x9F else if b0 =? 0xF4 then 0x8F else 0xBF.

(** [utf8.DecodeRuneInString]: the first rune of [s] and its width in
    bytes; an invalid or truncated encoding yields [(RuneError, 1)], the
    empty string [(RuneError, 0)]. *)
Definition DecodeRuneInString (s : string) : Z * nat :=
  match s with
  | EmptyString => (RuneError, 0%nat)
  | String c0 t0 =>
    let b0 := byte_val c0 in
    if b0 <? 0x80 then (b0, 1%nat)
    else if (b0 <? 0xC2) || (0xF4 <? b0) then (RuneError, 1%nat)
    else
      match t0 with
      | EmptyString => (RuneError, 1%nat)
      | String c1 t1 =>
        let b1 := byte_val c1 in
        if (b1 <? accept_lo b0) || (accept_hi b0 <? b1) then (RuneError, 1%nat)
        else if b0 <? 0xE0 then
          (Z.lor (Z.shiftl (Z.land b0 0x1F) 6) (Z.land b1 0x3F), 2%nat)
        else
          match t1 with
          | EmptyString => (RuneError, 1%nat)
          | String c2 t2 =>
            let b2 := byte_val c2 in
            if negb (is_cont b2) then (RuneError, 1%nat)
            else if b0 <? 0xF0 then
              (Z.lor (Z.lor (Z.shiftl (Z.land b0 0x0F) 12)
                            (Z.shiftl (Z.land b1 0x3F) 6))
                     (Z.land b2 0x3F), 3%nat)
            else
              match t2 with
              | EmptyString => (RuneError, 1%nat)
              | String c3 _ =>
                let b3 := byte_val c3 in
                if negb (is_cont b3) then (RuneError, 1%nat)
                else
                  (Z.lor (Z.lor (Z.lor (Z.shiftl (Z.land b0 0x07) 18)
                                       (Z.shiftl (Z.land b1 0x3F) 12))
                                (Z.shiftl (Z.land b2 0x3F) 6))
                         (Z.land b3 0x3F), 4%nat)
              end
          end
      end
  end.

(** [s[n:]] *)
Fixpoint drop_bytes (n : nat) (s : string) : string :=
  match n, s with
  | O, _ => s
  | S n', String _ t => drop_bytes n' t
  | S _, EmptyString => EmptyString
  end.

(** [s[:n]] *)
Fixpoint take_bytes (n : nat) (s : string) : string :=
  match n, s with
  | O, _ => EmptyString
  | S n', String c t => String c (take_bytes n' t)
  | S _, EmptyString => EmptyString
  end.

(** The runes [for _, c := range s] yields, in order.  Each step decodes
    one rune and advances by its width, which is at least one byte, so
    the length of [s] bounds the number of steps. *)
Fixpoint runes_from (fuel : nat) (s : string) : list Z :=
  match fuel with
  | O => []
  | S fuel' =>
    match s with
    | EmptyString => []
    | _ =>
      let '(r, w) := DecodeRuneInString s in
      r :: runes_from fuel' (drop_bytes w s)
    end
  end.

Definition runes (s : string) : list Z := runes_from (String.length s) s.

Definition is_surrogate (r : Z) : bool := (0xD800 <=? r) && (r <=? 0xDFFF).

Definition encode3 (r : Z) : string :=
  String (byte_of (Z.lor 0xE0 (Z.shiftr r 12)))
  (String (byte_of (Z.lor 0x80 (Z.land (Z.shiftr r 6) 0x3F)))
  (String (byte_of (Z.lor 0x80 (Z.land r 0x3F))) EmptyString)).

(** The conversion [string(r)] of a rune: its UTF-8 encoding, and the
    encoding of U+FFFD for a value that is no Unicode scalar value
    ([utf8.AppendRune]). *)
Definition string_of_rune (r : Z) : string :=
  if (r <? 0) || (MaxRune <? r) || is_surrogate r then encode3 RuneError
  else if r <=? 0x7F then String (byte_of r) EmptyString
  else if r <=? 0x7FF then
    String (byte_of (Z.lor 0xC0 (Z.shiftr r 6)))
    (String (byte_of (Z.lor 0x80 (Z.land r 0x3F))) EmptyString)
  else if r <=? 0xFFFF then encode3 r
  else
    String (byte_of (Z.lor 0xF0 (Z.shiftr r 18)))
    (String (byte_of (Z.lor 0x80 (Z.land (Z.shiftr r 12) 0x3F)))
    (String (byte_of (Z.lor 0x80 (Z.land (Z.shiftr r 6) 0x3F)))
    (String (byte_of (Z.lor 0x80 (Z.land r 0x3F))) EmptyString))).

(** [utf8.ValidString]: every decoding step yields a properly encoded
    rune (never the width-1 error result on a byte >= 0x80). *)
Fixpoint valid_from (fuel : nat) (s : string) : bool :=
  match fuel with
  | O => match s with EmptyString => true | _ => false end
  | S fuel' =>
    match s with
    | EmptyString => true
    | String c0 _ =>
      let '(r, w) := DecodeRuneInString s in
      ((byte_val c0 <? 0x80) || (1 <? w)%nat) && valid_from fuel' (drop_bytes w s)
    end
  end.

Definition ValidString (s : string) : bool := valid_from (String.length s) s.

(** The rune literals ['/'] and ['-']. *)
Definition slash : Z := 0x2F.
Definition dash : Z := 0x2D.

(** A rune decoding can produce: a Unicode scalar value. *)
Definition valid_rune (r : Z) : Prop :=
  0 <= r <= MaxRune /\ is_surrogate r = false.

Fixpoint concat_strings (l : list string) : string :=
  match l with
  | [] => EmptyString
  | a :: l' => a ++ concat_strings l'
  end.

(** The conversion [string([]rune)]. *)
Definition string_of_runes (l : list Z) : string :=
  concat_strings (map string_of_rune l).

Fixpoint map_bytes (f : ascii -> ascii) (s : string) : string :=
  match s with
  | EmptyString => EmptyString
  | String c t => String (f c) (map_bytes f t)
  end.

End GoString.

(** ** Package [strings] *)

Module Strings.

(** [strings.HasPrefix] *)
Fixpoint HasPrefix (s prefix : string) {struct prefix} : bool :=
  match prefix, s with
  | EmptyString, _ => true
  | String p prefix', String c s' => Ascii.eqb c p && HasPrefix s' prefix'
  | String _ _, EmptyString => false
  end.

(** [strings.Split(s, "/")]: the elements between separators; never empty. *)
Fixpoint split_slash (s : string) : list string :=
  match s with
  | EmptyString => [EmptyString]
  | String c t =>
    if Ascii.eqb c "/" then EmptyString :: split_slash t
    else
      match split_slash t with
      | h :: r => String c h :: r
      | [] => [String c EmptyString]
      end
  end.

(** [strings.Contains(s, "/")] *)
Fixpoint has_slash (s : string) : bool :=
  match s with
  | EmptyString => false
  | String c t => Ascii.eqb c "/" || has_slash t
  end.

(** [strings.Join(elems, "/")] *)
Fixpoint join_slash (elems : list string) : string :=
  match elems with
  | [] => EmptyString
  | [a] => a
  | a :: rest => a ++ "/" ++ join_slash rest
  end.

(** [strings.Index(s, substr) >= 0] *)
Fixpoint Contains (s substr : string) : bool :=
  HasPrefix s substr ||
  match s with
  | EmptyString => false
  | String _ t => Contains t substr
  end.

(** [strings.LastIndex(s, substr)], [None] for -1. *)
Fixpoint LastIndex (s substr : string) : option nat :=
  match s with
  | EmptyString => if HasPrefix s substr then Some 0%nat else None
  | String _ t =>
    match LastIndex t substr with
    | Some i => Some (S i)
    | None => if HasPrefix s substr then Some 0%nat else None
    end
  end.

(** White space as [strings.TrimSpace] removes it from an ASCII string:
    tab, newline, vertical tab, form feed, carriage return and space. *)
Definition is_space (c : ascii) : bool :=
  let n := nat_of_ascii c in
  ((9 <=? n)%nat && (n <=? 13)%nat) || (n =? 32)%nat.

Fixpoint trim_left (s : string) : string :=
  match s with
  | String c t => if is_space c then trim_left t else s
  | EmptyString => EmptyString
  end.

Fixpoint trim_right (s : string) : string :=
  match s with
  | EmptyString => EmptyString
  | String c t =>
    match trim_right t with
    | EmptyString => if is_space c then EmptyString else String c EmptyString
    | t' => String c t'
    end
  end.

Definition TrimSpace (s : string) : string := trim_right (trim_left s).

(** [strings.HasSuffix] and [strings.TrimSuffix] *)
Definition HasSuffix (s suffix : string) : bool :=
  (String.length suffix <=? String.length s)%nat
  && String.eqb (GoString.drop_bytes (String.length s - String.length suffix) s) suffix.

Definition TrimSuffix (s suffix : string) : string :=
  if HasSuffix s suffix
  then GoString.take_bytes (String.length s - String.length suffix) s
  else s.

End Strings.

(** ** Package [path/filepath] (Unix) *)

Module Filepath.
Import Strings.

Definition IsAbs (path : string) : bool := HasPrefix path "/".

(** A name a directory entry can have: not empty, without separator,
    and neither [.] nor [..]. *)
Definition proper (e : string) : Prop :=
  has_slash e = false /\ e <> "" /\ e <> "." /\ e <> "..".

(** One step of [Clean] over the stack of elements kept so far (top
    first): empty and [.] elements are dropped; [..] removes the element
    before it, is dropped at the root, and is kept at the start of a
    relative path. *)
Definition clean_step (rooted : bool) (stack : list string) (e : string) : list string :=
  if String.eqb e "" || String.eqb e "." then stack
  else if String.eqb e ".." then
    match stack with
    | top :: below => if String.eqb top ".." then e :: stack else below
    | [] => if rooted then [] else [e]
    end
  else e :: stack.

(** The elements of [Clean(path)], in order. *)
Definition elements (path : string) : list string :=
  rev (fold_left (clean_step (IsAbs path)) (split_slash path) []).

(** [filepath.Clean] *)
Definition Clean (path : string) : string :=
  if IsAbs path then "/" ++ join_slash (elements path)
  else
    match elements path with
    | [] => "."
    | es => join_slash es
    end.

(** [filepath.Join(a, b)]: empty arguments are ignored, the rest is
    joined by a separator and cleaned. *)
Definition Join (a b : string) : string :=
  if String.eqb a "" then (if String.eqb b "" then "" else Clean b)
  else Clean (a ++ "/" ++ b).

(** The part of [path] up to and including its last separator. *)
Fixpoint upto_last_slash (path : string) : string :=
  match path with
  | EmptyString => EmptyString
  | String c t =>
    match upto_last_slash t with
    | EmptyString => if Ascii.eqb c "/" then String c EmptyString else EmptyString
    | r => String c r
    end
  end.

(** [filepath.Dir] *)
Definition Dir (path : string) : string := Clean (upto_last_slash path).

(** [filepath.Base]: the last element; trailing separators are removed
    first; ["."] for the empty path and ["/"] for a path of separators. *)
Fixpoint strip_trailing_slashes (path : string) : string :=
  match path with
  | EmptyString => EmptyString
  | String c t =>
    match strip_trailing_slashes t with
    | EmptyString => if Ascii.eqb c "/" then EmptyString else String c EmptyString
    | t' => String c t'
    end
  end.

Definition Base (path : string) : string :=
  if String.eqb path "" then "."
  else
    let e := List.last (split_slash (strip_trailing_slashes path)) "" in
    if String.eqb e "" then "/" else e.

(** Results of fallible operations. *)
Inductive result (E A : Type) : Type :=
| Ok (a : A)
| Err (e : E).
Arguments Ok {E A} a.
Arguments Err {E A} e.

(** The elements the loop of [Rel] compares: those of a cleaned path,
    where the root ["/"] is the single empty element before the
    separator and the empty base has none. *)
Definition rel_elems (cleaned : string) : list string :=
  if String.eqb cleaned "" then []
  else if String.eqb cleaned "/" then [""]
  else split_slash cleaned.

(** The loop of [Rel]: skip the common leading elements; the flag tells
    whether the loop stopped at two elements that differ (rather than at
    the end of either path). *)
Fixpoint rel_strip (bs ts : list string) : bool * list string * list string :=
  match bs, ts with
  | b :: bs', t :: ts' =>
    if String.eqb t b then rel_strip bs' ts' else (true, bs, ts)
  | _, _ => (false, bs, ts)
  end.

(** [filepath.Rel] *)
Definition Rel (basepath targpath : string) : result string string :=
  let base := Clean basepath in
  let targ := Clean targpath in
  if String.eqb targ base then Ok "."
  else
    let base := if String.eqb base "." then "" else base in
    if negb (Bool.eqb (IsAbs base) (IsAbs targ)) then
      Err ("Rel: can't make " ++ targpath ++ " relative to " ++ basepath)
    else
      let '(differ, bs, ts) := rel_strip (rel_elems base) (rel_elems targ) in
      if differ && String.eqb (hd "" bs) ".." then
        Err ("Rel: can't make " ++ targpath ++ " relative to " ++ basepath)
      else
        match bs with
        | [] => Ok (join_slash ts)
        | _ :: bs' => Ok (join_slash (".." :: map (fun _ => "..") bs' ++ ts))
        end.

(** The result of [Rel] for two absolute paths, by their elements. *)
Definition rel_result (bs ts : list string) : string :=
  if bool_decide (ts = bs) then "."
  else
    let '(_, bs', ts') := rel_strip bs ts in
    match bs' with
    | [] => join_slash ts'
    | _ :: _ => join_slash ((repeat ".." (length bs') ++ ts')%list)
    end.

End Filepath.

(** ** The file tree and the system calls *)

Module Os.
Import Strings Filepath.

(** Error numbers the modelled calls can return. *)
Inductive errno : Type :=
| ENOENT | ENOTDIR | EEXIST | EISDIR | ELOOP | ENOTEMPTY | EINVAL | ENAMETOOLONG.

Definition strerror (e : errno) : string :=
  match e with
  | ENOENT => "no such file or directory"
  | ENOTDIR => "not a directory"
  | EEXIST => "file exists"
  | EISDIR => "is a directory"
  | ELOOP => "too many levels of symbolic links"
  | ENOTEMPTY => "directory not empty"
  | EINVAL => "invalid argument"
  | ENAMETOOLONG => "file name too long"
  end.

(** The text of a [PathError]. *)
Definition PathError (op path : string) (e : errno) : string :=
  op ++ " " ++ path ++ ": " ++ strerror e.

(** [os.IsNotExist] *)
Definition IsNotExist (e : errno) : bool :=
  match e with ENOENT => true | _ => false end.

(** An entry of the tree: a regular file with its bytes and mode bits,
    a directory with its mode bits, or a symbolic link with the target
    string stored in it. *)
Inductive node : Type :=
| File (data : string) (mode : Z)
| Directory (mode : Z)
| Link (target : string).

(** [FileInfo.IsDir] and [FileInfo.Mode] (type bits left out). *)
Definition IsDir (n : node) : bool :=
  match n with Directory _ => true | _ => false end.

Definition Mode (n : node) : Z :=
  match n with File _ m => m | Directory m => m | Link _ => 511 end.

Definition is_symlink (n : node) : bool :=
  match n with Link _ => true | _ => false end.

(** The state a command runs in: the tree, keyed by the elements of
    the absolute path of each entry (the root, [[]], is a directory and
    has no entry of its own); the working directory; the process umask;
    and what was written to standard output so far, oldest first.

    Paths are resolved lexically: an entry lies under a path only when
    every proper prefix of the path is a directory of the tree.  A
    symbolic link is followed where it is the last element of a path
    given to a call that follows links; a path that descends through a
    link is reported as [ENOTDIR]. *)
Record World : Type := mkWorld {
  fs : gmap (list string) node;
  cwd : string;
  umask : Z;
  stdout : list string
}.

Definition set_fs (w : World) (m : gmap (list string) node) : World :=
  mkWorld m (cwd w) (umask w) (stdout w).

(** [fmt.Printf] and [fmt.Println]: one entry per call. *)
Definition print (line : string) (w : World) : World :=
  mkWorld (fs w) (cwd w) (umask w) (stdout w ++ [line])%list.

(** The key of a path: the elements of its absolute, cleaned form. *)
Definition key (w : World) (path : string) : list string :=
  if IsAbs path then elements path
  else elements ("/" ++ cwd w ++ "/" ++ path).

Definition key_path (k : list string) : string := "/" ++ join_slash k.

(** 0755 *)
Definition root_mode : Z := 493.

Definition node_at (m : gmap (list string) node) (k : list string) : option node :=
  match k with
  | [] => Some (Directory root_mode)
  | _ => m !! k
  end.

(** Every proper prefix of [pre ++ rest] from [pre] on is a directory. *)
Fixpoint check_dirs (m : gmap (list string) node) (pre rest : list string) : option errno :=
  match rest with
  | [] => None
  | e :: rest' =>
    match node_at m pre with
    | Some (Directory _) => check_dirs m (pre ++ [e])%list rest'
    | Some _ => Some ENOTDIR
    | None => Some ENOENT
    end
  end.

(** [lstat(2)] on a key. *)
Definition lstat_key (m : gmap (list string) node) (k : list string) : result errno node :=
  match check_dirs m [] k with
  | Some e => Err e
  | None =>
    match node_at m k with
    | Some n => Ok n
    | None => Err ENOENT
    end
  end.

Definition parent (k : list string) : list string := removelast k.

(** Where the target of the link at [k] leads. *)
Definition link_key (k : list string) (target : string) : list string :=
  if IsAbs target then elements target
  else elements (key_path (parent k) ++ "/" ++ target).

(** Linux gives up after 40 links. *)
Definition max_links : nat := 40.

(** [stat(2)] on a key: the entry a chain of links ends at, with its key. *)
Fixpoint follow (fuel : nat) (m : gmap (list string) node) (k : list string)
  : result errno (list string * node) :=
  match lstat_key m k with
  | Err e => Err e
  | Ok (Link t) =>
    match fuel with
    | O => Err ELOOP
    | S fuel' => follow fuel' m (link_key k t)
    end
  | Ok n => Ok (k, n)
  end.

(** There is no entry at [path] (not even a dangling link). *)
Definition no_entry (w : World) (path : string) : Prop :=
  node_at (fs w) (key w path) = None.

(** [os.Lstat] and [os.Stat] *)
Definition Lstat (path : string) (w : World) : result errno node :=
  lstat_key (fs w) (key w path).

Definition Stat (path : string) (w : World) : result errno node :=
  match follow max_links (fs w) (key w path) with
  | Ok (_, n) => Ok n
  | Err e => Err e
  end.

(** Mode bits of a new entry: [perm &^ umask]. *)
Definition masked (perm : Z) (w : World) : Z := Z.ldiff perm (umask w).

(** [os.MkdirAll] on a key: walk down from the root, creating what is
    missing.  [pre] is the prefix already known to be a directory. *)
Fixpoint mkdir_all (perm : Z) (m : gmap (list string) node) (pre rest : list string)
  : result errno (gmap (list string) node) :=
  match rest with
  | [] => Ok m
  | e :: rest' =>
    let k := (pre ++ [e])%list in
    match m !! k with
    | None => mkdir_all perm (<[k := Directory perm]> m) k rest'
    | Some (Directory _) => mkdir_all perm m k rest'
    | Some (File _ _) => Err ENOTDIR
    | Some (Link _) =>
      match rest' with
      | [] =>
        match follow max_links m k with
        | Ok (_, Directory _) => Ok m
        | Ok _ => Err ENOTDIR
        | Err _ => Err EEXIST
        end
      | _ => Err ENOTDIR
      end
    end
  end.

Definition MkdirAll (path : string) (perm : Z) (w : World) : result errno World :=
  match mkdir_all (masked perm w) (fs w) [] (key w path) with
  | Ok m => Ok (set_fs w m)
  | Err e => Err e
  end.

(** [k] is [pre] or lies under it. *)
Definition under (pre k : list string) : bool :=
  bool_decide (take (length pre) k = pre).

(** [os.RemoveAll]: the entry and everything under it; no error when
    there is nothing to remove. *)
Definition RemoveAll (path : string) (w : World) : World :=
  let k := key w path in
  set_fs w (filter (fun '(k', _) => under k k' = false) (fs w)).

(** [os.Open] followed by reading to the end: the key of the file that
    was opened.  Reading happens later, through [read_at]. *)
Definition Open (path : string) (w : World) : result errno (list string) :=
  match follow max_links (fs w) (key w path) with
  | Ok (k, _) => Ok k
  | Err e => Err e
  end.

(** [os.Create]: open for writing, create with mode 0666 = 438
    (before umask) or truncate; a link at the end of the path is followed, also
    to a file that does not exist yet. *)
Fixpoint create_at (fuel : nat) (w : World) (k : list string) : result errno (list string * World) :=
  match check_dirs (fs w) [] k with
  | Some e => Err e
  | None =>
    match node_at (fs w) k with
    | None => Ok (k, set_fs w (<[k := File "" (masked 438 w)]> (fs w)))
    | Some (File _ mode) => Ok (k, set_fs w (<[k := File "" mode]> (fs w)))
    | Some (Directory _) => Err EISDIR
    | Some (Link t) =>
      match fuel with
      | O => Err ELOOP
      | S fuel' => create_at fuel' w (link_key k t)
      end
    end
  end.

Definition Create (path : string) (w : World) : result errno (list string * World) :=
  create_at max_links w (key w path).

(** [io.Copy(dst, src)] on two open files: what [src] holds now is
    written to [dst]. *)
Definition Copy (dst src : list string) (w : World) : result errno World :=
  match node_at (fs w) src with
  | Some (File data _) =>
    match node_at (fs w) dst with
    | Some (File _ mode) => Ok (set_fs w (<[dst := File data mode]> (fs w)))
    | _ => Err EINVAL
    end
  | Some (Directory _) => Err EISDIR
  | _ => Err EINVAL
  end.

(** [os.Chmod]: follows links. *)
Definition Chmod (path : string) (mode : Z) (w : World) : result errno World :=
  match follow max_links (fs w) (key w path) with
  | Ok (k, File data _) => Ok (set_fs w (<[k := File data mode]> (fs w)))
  | Ok (k, Directory _) =>
    match k with
    | [] => Ok w
    | _ => Ok (set_fs w (<[k := Directory mode]> (fs w)))
    end
  | Ok (_, Link _) => Err ELOOP
  | Err e => Err e
  end.

(** [os.Symlink(target, path)]: fails when [path] exists, a dangling
    link included. *)
Definition Symlink (target path : string) (w : World) : result errno World :=
  let k := key w path in
  match check_dirs (fs w) [] k with
  | Some e => Err e
  | None =>
    match node_at (fs w) k with
    | Some _ => Err EEXIST
    | None => Ok (set_fs w (<[k := Link target]> (fs w)))
    end
  end.

(** The names in the directory at [k] (unsorted). *)
Definition child_names (m : gmap (list string) node) (k : list string) : list string :=
  omap (fun '(k', _) =>
          if bool_decide (removelast k' = k) && bool_decide (k' <> [])
          then Some (List.last k' "") else None)
       (map_to_list m).

(** Byte-wise order of names, as [sort.Strings] uses. *)
Fixpoint name_le (a b : string) : bool :=
  match a, b with
  | EmptyString, _ => true
  | String _ _, EmptyString => false
  | String x a', String y b' =>
    if (nat_of_ascii x <? nat_of_ascii y)%nat then true
    else if (nat_of_ascii y <? nat_of_ascii x)%nat then false
    else name_le a' b'
  end.

Fixpoint insert_name (a : string) (l : list string) : list string :=
  match l with
  | [] => [a]
  | b :: l' => if name_le a b then a :: l else b :: insert_name a l'
  end.

Definition sort_names (l : list string) : list string :=
  fold_right insert_name [] l.

(** [os.ReadDir]: the entries of a directory, sorted by name. *)
Definition ReadDir (path : string) (w : World) : result errno (list (string * node)) :=
  match follow max_links (fs w) (key w path) with
  | Ok (k, Directory _) =>
    Ok (omap (fun name => match fs w !! (k ++ [name])%list with
                          | Some n => Some (name, n)
                          | None => None
                          end)
             (sort_names (child_names (fs w) k)))
  | Ok _ => Err ENOTDIR
  | Err e => Err e
  end.

(** The tree with what lies at or under [src] moved to [dst]. *)
Definition move_tree (src dst : list string) (m : gmap (list string) node)
  : gmap (list string) node :=
  list_to_map
    (map (fun '(k, n) => if under src k then ((dst ++ drop (length src) k)%list, n) else (k, n))
         (map_to_list m)).

(** [os.Rename]: [rename(2)] of a file, link or directory. *)
Definition Rename (oldpath newpath : string) (w : World) : result errno World :=
  let src := key w oldpath in
  let dst := key w newpath in
  match lstat_key (fs w) src with
  | Err e => Err e
  | Ok n =>
    match check_dirs (fs w) [] dst with
    | Some e => Err e
    | None =>
      if bool_decide (src = dst) then Ok w
      else if under src dst then Err EINVAL
      else
        let replace := Ok (set_fs w (move_tree src dst
                         (filter (fun '(k', _) => under dst k' = false) (fs w)))) in
        match node_at (fs w) dst with
        | None => replace
        | Some (Directory _) =>
          if IsDir n then
            match child_names (fs w) dst with
            | [] => replace
            | _ => Err ENOTEMPTY
            end
          else Err EISDIR
        | Some _ => if IsDir n then Err ENOTDIR else replace
        end
    end
  end.

(** [os.Chdir] and [os.Getwd] *)
Definition Chdir (path : string) (w : World) : result errno World :=
  match follow max_links (fs w) (key w path) with
  | Ok (_, Directory _) => Ok (mkWorld (fs w) (key_path (key w path)) (umask w) (stdout w))
  | Ok _ => Err ENOTDIR
  | Err e => Err e
  end.

Definition Getwd (w : World) : string := cwd w.

(** [FileInfo.Size]: the length of a regular file in bytes; of a link,
    as [lstat] reports it, the length of its target.  The size of a
    directory depends on the file system; 4096 stands for it, and no
    command reads it. *)
Definition Size (n : node) : Z :=
  match n with
  | File data _ => Z.of_nat (String.length data)
  | Directory _ => 4096
  | Link target => Z.of_nat (String.length target)
  end.

End Os.

(** ** The commands *)

Module Cmd.
Import GoString Strings Filepath Os.

(** *** switch.go, checkout.go: directory names *)

(** The body of the loop of [sanitizeBranchName]: ["-"] is appended for
    a ['/'], [string(char)] for any other rune. *)
Definition sanitize_step (result : string) (char : Z) : string :=
  if char =? slash then result ++ "-" else result ++ string_of_rune char.

(** [sanitizeBranchName] (switch.go) *)
Definition sanitizeBranchName (name : string) : string :=
  fold_left sanitize_step (runes name) "".

(** The directory name [checkoutCmd] computes for its argument
    (checkout.go): [filepath.Base(commitish)] when that is the argument
    itself, and otherwise the result of the same loop. *)
Definition checkout_dirName (commitish : string) : string :=
  let dirName := Base commitish in
  if negb (String.eqb commitish dirName) then
    fold_left sanitize_step (runes commitish) ""
  else dirName.

(** What one rune contributes to the result of the loop, and the rune
    it stands for there. *)
Definition piece (char : Z) : string :=
  if char =? slash then "-" else string_of_rune char.

Definition subst_slash (char : Z) : Z := if char =? slash then dash else char.

Definition slash_to_dash (c : ascii) : ascii :=
  if Ascii.eqb c "/" then "-"%char else c.

(** [strings.ReplaceAll(s, "/", "-")]: every separator byte replaced,
    every other byte kept. *)
Definition replace_slash (s : string) : string := map_bytes slash_to_dash s.

(** A computation on the world that returns a value or a Go [error]
    (its message); the world is threaded through either way. *)
Definition M (A : Type) : Type := World -> result string A * World.

Definition ret {A} (a : A) : M A := fun w => (Ok a, w).

Definition fail {A} (msg : string) : M A := fun w => (Err msg, w).

Definition bind {A B} (m : M A) (f : A -> M B) : M B :=
  fun w =>
    match m w with
    | (Ok a, w') => f a w'
    | (Err e, w') => (Err e, w')
    end.

Notation "x <- m ;; k" := (bind m (fun x => k))
  (at level 100, m at next level, right associativity).
Notation "m ;;; k" := (bind m (fun _ => k))
  (at level 100, right associativity).

(** [fmt.Printf] / [fmt.Println] *)
Definition Printf (line : string) : M unit := fun w => (Ok tt, print line w).

(** A system call whose failure is returned as it is, as the text of its
    [PathError]. *)
Definition sys {A} (op path : string) (r : result errno A) : M A :=
  fun w =>
    match r with
    | Ok a => (Ok a, w)
    | Err e => (Err (PathError op path e), w)
    end.

Definition sys_w (op path : string) (r : World -> result errno World) : M unit :=
  fun w =>
    match r w with
    | Ok w' => (Ok tt, w')
    | Err e => (Err (PathError op path e), w)
    end.

(** [if err := m; err != nil { return fmt.Errorf(prefix + ": %w", err) }] *)
Definition wrap {A} (prefix : string) (m : M A) : M A :=
  fun w =>
    match m w with
    | (Ok a, w') => (Ok a, w')
    | (Err e, w') => (Err (prefix ++ ": " ++ e), w')
    end.

(** *** persist.go *)

(** [copyFile] *)
Definition copyFile (src dst : string) : M unit :=
  fun w =>
    match Open src w with
    | Err e => (Err (PathError "open" src e), w)
    | Ok sourceFile =>
      match Create dst w with
      | Err e => (Err (PathError "open" dst e), w)
      | Ok (destFile, w1) =>
        match Copy destFile sourceFile w1 with
        | Err e => (Err (PathError "read" src e), w1)
        | Ok w2 =>
          match Stat src w2 with
          | Err e => (Err (PathError "stat" src e), w2)
          | Ok srcInfo =>
            match Chmod dst (Mode srcInfo) w2 with
            | Err e => (Err (PathError "chmod" dst e), w2)
            | Ok w3 => (Ok tt, w3)
            end
          end
        end
      end
    end.

(** The longest chain of nested directories a path of [PATH_MAX] = 4096
    bytes can name; one level deeper every call fails with
    [ENAMETOOLONG]. *)
Definition max_depth : nat := 2048.

(** The loop of [copyDir] over the entries of the source directory;
    [copyDir'] is [copyDir] itself, for the directories among them. *)
Fixpoint copy_entries (copyDir' : string -> string -> M unit) (src dst : string)
    (entries : list (string * node)) : M unit :=
  match entries with
  | [] => ret tt
  | (name, entry) :: rest =>
    let srcPath := Join src name in
    let dstPath := Join dst name in
    (if IsDir entry then copyDir' srcPath dstPath
     else copyFile srcPath dstPath) ;;;
    copy_entries copyDir' src dst rest
  end.

(** [copyDir]; [depth] bounds the nesting of the recursion. *)
Fixpoint copyDir (depth : nat) (src dst : string) : M unit :=
  match depth with
  | O => fail (PathError "stat" src ENAMETOOLONG)
  | S depth' =>
    fun w =>
      match Stat src w with
      | Err e => (Err (PathError "stat" src e), w)
      | Ok srcInfo =>
        match MkdirAll dst (Mode srcInfo) w with
        | Err e => (Err (PathError "mkdir" dst e), w)
        | Ok w1 =>
          match ReadDir src w1 with
          | Err e => (Err (PathError "open" src e), w1)
          | Ok entries => copy_entries (copyDir depth') src dst entries w1
          end
        end
      end
  end.

(** [copyPath] *)
Definition copyPath (src dst : string) : M unit :=
  fun w =>
    match Stat src w with
    | Err e => (Err (PathError "stat" src e), w)
    | Ok srcInfo =>
      if IsDir srcInfo then copyDir max_depth src dst w
      else copyFile src dst w
    end.

(** The value of an [int64] after an operation that may overflow. *)
Definition wrap64 (z : Z) : Z := (z + 2 ^ 63) mod 2 ^ 64 - 2 ^ 63.

(** [float64(z)] for an integer: the nearest number with a mantissa of
    53 bits, the even one of two that are as near; given as the integer
    it is. *)
Definition float64_of_int (z : Z) : Z :=
  let a := Z.abs z in
  if a <? 2 ^ 53 then z
  else
    let e := Z.log2 a - 52 in
    let q := a / 2 ^ e in
    let r := a mod 2 ^ e in
    let q' := if (2 * r >? 2 ^ e) || ((2 * r =? 2 ^ e) && Z.odd q) then q + 1 else q in
    Z.sgn z * (q' * 2 ^ e).

(** [fmt.Sprintf("%.1f", x)] for [x = num / den >= 0]: the decimal with
    one digit after the point nearest to [x], the one with the even
    last digit when [x] lies halfway between two. *)
Definition format_tenths (num den : Z) : string :=
  let q := (10 * num) / den in
  let r := (10 * num) mod den in
  let t := if (2 * r >? den) || ((2 * r =? den) && Z.odd q) then q + 1 else q in
  pretty (t / 10) ++ "." ++ pretty (t mod 10).

(** The loop of [formatSize]: [for n := bytes / unit; n >= unit; n /= unit].
    Every iteration divides [n] by 1024, so 64 iterations are more than
    an [int64] allows. *)
Fixpoint formatSize_loop (fuel : nat) (n div : Z) (exp : nat) : Z * nat :=
  match fuel with
  | O => (div, exp)
  | S fuel' =>
    if n >=? 1024 then formatSize_loop fuel' (Z.quot n 1024) (wrap64 (div * 1024)) (S exp)
    else (div, exp)
  end.

(** ["KMGTPE"[exp]], [None] where the index is out of range and the
    program panics. *)
Definition unit_letter (exp : nat) : option ascii :=
  nth_error (list_ascii_of_string "KMGTPE") exp.

(** [formatSize]; [div] is a power of two, so the quotient of the two
    [float64] is exact.  [None]: the index panic. *)
Definition formatSize (bytes : Z) : option string :=
  if bytes <? 1024 then Some (pretty bytes ++ " B")
  else
    let '(div, exp) := formatSize_loop 64 (Z.quot bytes 1024) 1024 O in
    match unit_letter exp with
    | None => None
    | Some c => Some (format_tenths (float64_of_int bytes) div ++ " " ++ String c "B")
    end.

(** What a copy makes of an entry: [copyFile] gives the file the
    content and the mode bits of the source; [copyDir] makes the
    directory with [MkdirAll], so with the mode bits of the source less
    the umask. *)
Definition copy_node (umask : Z) (n : node) : node :=
  match n with
  | Directory mode => Directory (Z.ldiff mode umask)
  | _ => n
  end.

(** The entries at and under [k] form a tree of directories and
    regular files: no links, proper names, and every entry lies in a
    directory of the tree. *)
Definition plain_tree (m : gmap (list string) node) (k : list string) : Prop :=
  forall r n,
    m !! (k ++ r)%list = Some n ->
    is_symlink n = false
    /\ Forall proper r
    /\ forall i, (i < length r)%nat ->
                 exists mode, m !! (k ++ take i r)%list = Some (Directory mode).

(** No entry of the tree at [k] lies [depth] levels or more below it. *)
Definition shallower (depth : nat) (m : gmap (list string) node) (k : list string) : Prop :=
  forall r n, m !! (k ++ r)%list = Some n -> (length r < depth)%nat.

(** The two conditions as checks on a given tree. *)
Definition properb (e : string) : bool :=
  negb (has_slash e) && negb (String.eqb e "") && negb (String.eqb e ".")
  && negb (String.eqb e "..").

Definition plain_treeb (m : gmap (list string) node) (k : list string) : bool :=
  forallb (fun '(k', n) =>
             if under k k' then
               negb (is_symlink n)
               && forallb properb (drop (length k) k')
               && forallb (fun i => match m !! take i k' with
                                    | Some (Directory _) => true
                                    | _ => false
                                    end)
                          (seq (length k) (length k' - length k))
             else true)
          (map_to_list m).

Definition shallowerb (depth : nat) (m : gmap (list string) node) (k : list string) : bool :=
  forallb (fun '(k', _) =>
             if under k k' then (length k' - length k <? depth)%nat else true)
          (map_to_list m).

(** Every proper prefix of [k], the root apart, is a directory of the
    tree or not there: [MkdirAll] can make the way to [k]. *)
Definition free_way (m : gmap (list string) node) (k : list string) : bool :=
  forallb (fun i => match m !! take i k with
                    | None | Some (Directory _) => true
                    | _ => false
                    end)
          (seq 1 (length k - 1)).

(** Nothing is at [k] or under it. *)
Definition free_at (m : gmap (list string) node) (k : list string) : bool :=
  forallb (fun q => negb (under k q)) (map fst (map_to_list m)).

(** Neither of two keys lies at or under the other. *)
Definition apart (a b : list string) : Prop :=
  under a b = false /\ under b a = false.

(** What the external [git] process answers during one invocation.
    - [git_output dir args]: [exec.Command("git", args...)] run in [dir]
      (the working directory when [None]), [Output()]: the text on its
      standard output, or the error;
    - [git_worktree_move src dst]: the combined output and the error of
      [git worktree move], [None] when it succeeded;
    - [git_worktree_add path commitish]: the error, or the tree checked
      out under [path] (keys relative to it);
    - [git_worktree_repair]: the error of [git worktree repair].
    A git command that fails is taken to leave the tree as it was; one
    that moves a worktree renames its directory. *)
Record Git : Type := mkGit {
  git_output : option string -> list string -> result string string;
  git_worktree_move : string -> string -> string * option string;
  git_worktree_add : string -> string -> result string (gmap (list string) node);
  git_worktree_repair : option string
}.

(** The flag variables [restoreLink], [restoreTo], [restoreForce] and
    [restoreAll], as set when the command line was parsed. *)
Record Flags : Type := mkFlags {
  restoreLink : bool;
  restoreTo : string;
  restoreForce : bool;
  restoreAll : bool
}.

Section WithGit.
Variable git : Git.

(** [runCommand] *)
Definition runCommand (args : list string) : result string string :=
  match args with
  | "git" :: cmdArgs => git_output git None cmdArgs
  | _ => Err "exec: executable file not found in $PATH"
  end.

(** [gitDir[:idx]] for the last index of either separator form. *)
Definition cut_worktrees (gitDir : string) : option string :=
  match LastIndex gitDir "/worktrees/" with
  | Some idx => Some (take_bytes idx gitDir)
  | None =>
    match LastIndex gitDir "\worktrees\" with
    | Some idx => Some (take_bytes idx gitDir)
    | None => None
    end
  end.

(** [findRepoRoots] *)
Definition findRepoRoots : result string (string * string) :=
  match runCommand ["git"; "rev-parse"; "--git-dir"] with
  | Err _ => Err "not in a git repository"
  | Ok gitDir =>
    let gitDir := TrimSpace gitDir in
    let isBare := match runCommand ["git"; "rev-parse"; "--is-bare-repository"] with
                  | Ok out => out
                  | Err _ => ""
                  end in
    if String.eqb (TrimSpace isBare) "true" then
      Err "cannot run persist from bare repository. Please run from a worktree"
    else
      match runCommand ["git"; "rev-parse"; "--show-toplevel"] with
      | Err e => Err ("error getting worktree root: " ++ e)
      | Ok worktreeRoot =>
        let worktreeRoot := TrimSpace worktreeRoot in
        if Contains gitDir "worktrees" then
          match cut_worktrees gitDir with
          | None => Err "unexpected git directory format"
          | Some bareRepoRoot => Ok (bareRepoRoot, worktreeRoot)
          end
        else Err "not in a worktree"
      end
  end.

(** [persistAddCmd.RunE] with [args = [targetPath]] *)
Definition persistAddCmd (targetPath : string) : M unit :=
  fun w =>
    match findRepoRoots with
    | Err e => (Err e, w)
    | Ok (bareRepoRoot, worktreeRoot) =>
      let absTargetPath :=
        if IsAbs targetPath then targetPath else Join worktreeRoot targetPath in
      match Stat absTargetPath w with
      | Err ENOENT => (Err ("file or directory does not exist: " ++ targetPath), w)
      | _ =>
        match Rel worktreeRoot absTargetPath with
        | Err e => (Err ("error determining relative path: " ++ e), w)
        | Ok relPath =>
          let sharedDir := Join bareRepoRoot "shared" in
          let destPath := Join sharedDir relPath in
          match Stat destPath w with
          | Ok _ =>
            (Err ("file already exists in shared storage: " ++ relPath
                  ++ String "010" "Use 'wtm persist remove " ++ relPath
                  ++ "' first if you want to update it"), w)
          | Err _ =>
            (wrap "error creating shared directory structure"
               (sys_w "mkdir" (Dir destPath) (MkdirAll (Dir destPath) 493)) ;;;
             Printf ("Persisting " ++ targetPath ++ " to shared/" ++ relPath ++ "..."
                     ++ String "010" "") ;;;
             wrap "error copying to shared storage" (copyPath absTargetPath destPath) ;;;
             Printf ("Successfully persisted to shared/" ++ relPath ++ String "010" "")) w
          end
        end
      end
    end.

(** [persistRemoveCmd.RunE] with [args = [targetPath]] *)
Definition persistRemoveCmd (targetPath : string) : M unit :=
  fun w =>
    match findRepoRoots with
    | Err e => (Err e, w)
    | Ok (bareRepoRoot, _) =>
      let sharedDir := Join bareRepoRoot "shared" in
      let targetFullPath := Join sharedDir targetPath in
      match Stat targetFullPath w with
      | Err ENOENT => (Err ("file not found in shared storage: " ++ targetPath), w)
      | _ =>
        (Printf ("Removing " ++ targetPath ++ " from shared storage..." ++ String "010" "") ;;;
         (fun w => (Ok tt, RemoveAll targetFullPath w)) ;;;
         Printf ("Successfully removed shared/" ++ targetPath ++ String "010" "")) w
      end
    end.

(** *** restore.go *)

Section WithFlags.
Variable flags : Flags.

(** The destination [restoreFile] determines: the [--to] path, taken
    relative to the worktree root unless absolute, or else the same
    relative path under the worktree root. *)
Definition restore_dest (targetPath worktreeRoot : string) : string :=
  if negb (String.eqb (restoreTo flags) "") then
    if negb (IsAbs (restoreTo flags)) then Join worktreeRoot (restoreTo flags)
    else restoreTo flags
  else Join worktreeRoot targetPath.

(** [restoreFile] *)
Definition restoreFile (targetPath sharedDir worktreeRoot : string) : M unit :=
  fun w =>
    let sourcePath := Join sharedDir targetPath in
    match Stat sourcePath w with
    | Err ENOENT =>
      (Err ("file not found in shared storage: " ++ targetPath ++ String "010"
            "Use 'wtm persist list' to see available files"), w)
    | Err e => (Err ("error accessing shared file: " ++ PathError "stat" sourcePath e), w)
    | Ok sourceInfo =>
      let destPath := restore_dest targetPath worktreeRoot in
      match Stat destPath w, restoreForce flags with
      | Ok _, false =>
        (Err ("file already exists: " ++ destPath ++ String "010"
              "Use --force to overwrite"), w)
      | _, _ =>
        let action := if restoreLink flags then "Linking" else "Copying" in
        let relDestPath := match Rel worktreeRoot destPath with
                           | Ok r => r
                           | Err _ => ""
                           end in
        (wrap "error creating parent directories"
           (sys_w "mkdir" (Dir destPath) (MkdirAll (Dir destPath) 493)) ;;;
         Printf (action ++ " shared/" ++ targetPath ++ " to " ++ relDestPath ++ "..."
                 ++ String "010" "") ;;;
         (if restoreLink flags then
            (fun w => (Ok tt, if restoreForce flags then RemoveAll destPath w else w)) ;;;
            match Rel (Dir destPath) sourcePath with
            | Err e => fail ("error calculating relative link path: " ++ e)
            | Ok relLink =>
              wrap "error creating symlink"
                (sys_w "symlink" (relLink ++ " " ++ destPath) (Symlink relLink destPath))
            end
          else
            (fun w => (Ok tt, if restoreForce flags then RemoveAll destPath w else w)) ;;;
            if IsDir sourceInfo then
              wrap "error copying directory" (copyDir max_depth sourcePath destPath)
            else
              wrap "error copying file" (copyFile sourcePath destPath)) ;;;
         Printf ("Successfully restored to " ++ relDestPath ++ String "010" "")) w
      end
    end.

(** [filepath.Walk]: what the function called on each entry returns
    ([nil], [filepath.SkipDir] or another error). *)
Inductive walk_ctl : Type :=
| Continue
| SkipDir
| Stop (err : string).

(** A [WalkFunc] closure over variables of type [S]: the path, the
    entry ([None] when [lstat] failed) and the error of reading it. *)
Definition WalkFunc (S : Type) : Type :=
  string -> option node -> option errno -> S -> World -> walk_ctl * S * World.

(** [readDirNames] *)
Definition readDirNames (dirname : string) (w : World) : result errno (list string) :=
  match ReadDir dirname w with
  | Ok entries => Ok (map fst entries)
  | Err e => Err e
  end.

(** The loop of [walk] over the names read from a directory; [walk']
    is [walk] itself, for the entries. *)
Fixpoint walk_names {S : Type}
    (walk' : string -> node -> WalkFunc S -> S -> World -> walk_ctl * S * World)
    (path : string) (walkFn : WalkFunc S) (names : list string) (s : S) (w : World)
  : walk_ctl * S * World :=
  match names with
  | [] => (Continue, s, w)
  | name :: rest =>
    let filename := Join path name in
    match Lstat filename w with
    | Err e =>
      match walkFn filename None (Some e) s w with
      | (Stop x, s', w') => (Stop x, s', w')
      | (_, s', w') => walk_names walk' path walkFn rest s' w'
      end
    | Ok fileInfo =>
      match walk' filename fileInfo walkFn s w with
      | (Continue, s', w') => walk_names walk' path walkFn rest s' w'
      | (SkipDir, s', w') =>
        if IsDir fileInfo then walk_names walk' path walkFn rest s' w'
        else (SkipDir, s', w')
      | (Stop x, s', w') => (Stop x, s', w')
      end
    end
  end.

(** [walk] of package [filepath]; [depth] bounds the nesting. *)
Fixpoint walk {S : Type} (depth : nat) (path : string) (info : node)
    (walkFn : WalkFunc S) (s : S) (w : World) : walk_ctl * S * World :=
  if negb (IsDir info) then walkFn path (Some info) None s w
  else
    let names := readDirNames path w in
    let err := match names with Ok _ => None | Err e => Some e end in
    let '(err1, s1, w1) := walkFn path (Some info) err s w in
    match names, err1 with
    | Ok names, Continue =>
      match depth with
      | O => (Stop (PathError "lstat" path ENAMETOOLONG), s1, w1)
      | S depth' => walk_names (walk depth') path walkFn names s1 w1
      end
    | _, _ => (err1, s1, w1)
    end.

(** [filepath.Walk] *)
Definition Walk {S : Type} (root : string) (walkFn : WalkFunc S) (s : S) (w : World)
  : option string * S * World :=
  let '(err, s', w') :=
    match Lstat root w with
    | Err e => walkFn root None (Some e) s w
    | Ok info => walk max_depth root info walkFn s w
    end in
  match err with
  | Stop x => (Some x, s', w')
  | _ => (None, s', w')
  end.

(** The function [restoreAllFiles] walks the store with; its variables
    are [count] and [errors]. *)
Definition restoreAll_walkFn (sharedDir worktreeRoot : string)
  : WalkFunc (nat * list string) :=
  fun path info err '(count, errors) w =>
    match err with
    | Some e => (Stop (PathError "lstat" path e), (count, errors), w)
    | None =>
      if String.eqb path sharedDir then (Continue, (count, errors), w)
      else
        match Rel sharedDir path with
        | Err e => (Stop e, (count, errors), w)
        | Ok relPath =>
          if negb (String.eqb (Dir relPath) ".") then (Continue, (count, errors), w)
          else
            let w1 := print (String "010" "Restoring " ++ relPath ++ "..." ++ String "010" "") w in
            let '(r, w2) := restoreFile relPath sharedDir worktreeRoot w1 in
            let '(s', w3) :=
              match r with
              | Err e =>
                let errMsg := "  ❌ " ++ relPath ++ ": " ++ e in
                ((count, (errors ++ [errMsg])%list), print (errMsg ++ String "010" "") w2)
              | Ok _ =>
                ((S count, errors), print ("  ✓ " ++ relPath ++ String "010" "") w2)
              end in
            match info with
            | Some (Directory _) => (SkipDir, s', w3)
            | _ => (Continue, s', w3)
            end
        end
    end.

(** [restoreAllFiles] *)
Definition restoreAllFiles (sharedDir worktreeRoot : string) : M unit :=
  fun w =>
    let w0 := print ("Restoring all persisted files..." ++ String "010" "") w in
    let '(err, (count, errors), w1) :=
      Walk sharedDir (restoreAll_walkFn sharedDir worktreeRoot) (O, []) w0 in
    match err with
    | Some e => (Err ("error walking shared directory: " ++ e), w1)
    | None =>
      let w2 := print (String "010" "Restored " ++ pretty count ++ " file(s)"
                       ++ String "010" "") w1 in
      match errors with
      | [] => (Ok tt, w2)
      | _ =>
        let w3 := print (String "010" "Errors encountered:" ++ String "010" "") w2 in
        (Err "some files failed to restore",
         fold_left (fun w errMsg => print (errMsg ++ String "010" "") w) errors w3)
      end
    end.

(** What [restoreAllFiles] reports for one entry. *)
Definition report (relPath : string) (r : result string unit) : string :=
  match r with
  | Err e => ("  ❌ " ++ relPath ++ ": " ++ e) ++ String "010" ""
  | Ok _ => "  ✓ " ++ relPath ++ String "010" ""
  end.

(** The restoration of all entries as the specification words it: the
    top-level entries of the store are taken in turn, [restoreFile] is
    called on each with the shared settings, and the outcome of each is
    recorded; the run goes on after a failure.  It stops, with the walk
    error, only at an entry that [lstat] no longer finds. *)
Fixpoint restore_each (sharedDir worktreeRoot : string) (names : list string) (w : World)
  : option string * list (string * result string unit) * World :=
  match names with
  | [] => (None, [], w)
  | name :: rest =>
    match Lstat (Join sharedDir name) w with
    | Err e => (Some (PathError "lstat" (Join sharedDir name) e), [], w)
    | Ok _ =>
      let w1 := print (String "010" "Restoring " ++ name ++ "..." ++ String "010" "") w in
      let '(r, w2) := restoreFile name sharedDir worktreeRoot w1 in
      let w3 := print (report name r) w2 in
      let '(abort, outcomes, w4) := restore_each sharedDir worktreeRoot rest w3 in
      (abort, (name, r) :: outcomes, w4)
    end
  end.

(** The successes counted and the failures collected from outcomes. *)
Definition count_ok (outcomes : list (string * result string unit)) : nat :=
  length (List.filter (fun o => match snd o with Ok _ => true | Err _ => false end) outcomes).

Definition failures (outcomes : list (string * result string unit)) : list string :=
  omap (fun o => match snd o with
                 | Ok _ => None
                 | Err e => Some ("  ❌ " ++ fst o ++ ": " ++ e)
                 end) outcomes.

(** [restoreCmd.RunE]; [Args] admits at most one argument. *)
Definition restoreCmd (args : list string) : M unit :=
  fun w =>
    if (1 <? length args)%nat then
      (Err ("accepts at most 1 arg(s), received " ++ pretty (length args)), w)
    else if restoreAll flags && (0 <? length args)%nat then
      (Err "cannot specify file with --all flag", w)
    else if negb (restoreAll flags) && (length args =? 0)%nat then
      (Err "must specify a file/directory or use --all flag", w)
    else
      match findRepoRoots with
      | Err e => (Err e, w)
      | Ok (bareRepoRoot, worktreeRoot) =>
        let sharedDir := Join bareRepoRoot "shared" in
        match Stat sharedDir w with
        | Err ENOENT =>
          (Err "no persisted files found. Use 'wtm persist add <file>' to persist files first", w)
        | _ =>
          if restoreAll flags then restoreAllFiles sharedDir worktreeRoot w
          else restoreFile (hd "" args) sharedDir worktreeRoot w
        end
      end.

End WithFlags.

(** *** persist.go: list *)

(** The line [persist list] prints for an entry, from its path
    relative to the store. *)
Definition list_line (relPath : string) (n : node) : option string :=
  match n with
  | Directory _ => Some ("  📁 " ++ relPath ++ "/" ++ String "010" "")
  | _ =>
    match formatSize (Size n) with
    | Some size => Some ("  📄 " ++ relPath ++ " (" ++ size ++ ")" ++ String "010" "")
    | None => None
    end
  end.

(** The function [persistListCmd] walks the store with; its variable
    is [count]. *)
Definition list_walkFn (sharedDir : string) : WalkFunc nat :=
  fun path info err count w =>
    match err with
    | Some e => (Stop (PathError "lstat" path e), count, w)
    | None =>
      if String.eqb path sharedDir then (Continue, count, w)
      else
        let relPath := match Rel sharedDir path with Ok r => r | Err _ => "" end in
        match info with
        | Some (Directory _) =>
          (Continue, S count, print ("  📁 " ++ relPath ++ "/" ++ String "010" "") w)
        | Some n =>
          match formatSize (Size n) with
          | Some size =>
            (Continue, S count,
             print ("  📄 " ++ relPath ++ " (" ++ size ++ ")" ++ String "010" "") w)
          | None => (Stop "runtime error: index out of range [6] with length 6", count, w)
          end
        | None => (Stop "runtime error: invalid memory address or nil pointer dereference",
                   count, w)
        end
    end.

(** [persistListCmd.RunE] *)
Definition persistListCmd : M unit :=
  fun w =>
    match findRepoRoots with
    | Err e => (Err e, w)
    | Ok (bareRepoRoot, _) =>
      let sharedDir := Join bareRepoRoot "shared" in
      match Stat sharedDir w with
      | Err ENOENT =>
        (Ok tt,
         print ("No persisted files yet. Use 'wtm persist add <file>' to persist files."
                ++ String "010" "") w)
      | _ =>
        let w0 := print (String "010" "")
                    (print ("Persisted files in shared/:" ++ String "010" "") w) in
        let '(err, count, w1) := Walk sharedDir (list_walkFn sharedDir) O w0 in
        match err with
        | Some e => (Err ("error listing shared files: " ++ e), w1)
        | None =>
          (Ok tt, match count with
                  | O => print ("  (empty)" ++ String "010" "") w1
                  | S _ => w1
                  end)
        end
      end
    end.

(** *** switch.go *)

(** [detectLocation] *)
Definition detectLocation (w : World) : result string (string * string) :=
  let cwd := Getwd w in
  match git_output git None ["rev-parse"; "--git-dir"] with
  | Err _ => Err "not in a git repository"
  | Ok gitDirOutput =>
    let gitDir := TrimSpace gitDirOutput in
    let isBareOutput := match git_output git None ["rev-parse"; "--is-bare-repository"] with
                        | Ok out => out
                        | Err _ => ""
                        end in
    if String.eqb (TrimSpace isBareOutput) "true" then Ok (cwd, "bare-root")
    else if Contains gitDir "worktrees" then
      match cut_worktrees gitDir with
      | None => Err "unexpected git directory format"
      | Some bareRepoRoot =>
        match Rel bareRepoRoot cwd with
        | Err e => Err ("error determining relative path: " ++ e)
        | Ok relPath =>
          if HasPrefix relPath "tree/" || HasPrefix relPath "tree\" then
            Err "cannot run switch from inside tree/<branch> directory. Please run from bare repo root or workspace"
          else if HasPrefix relPath "workspace" then Ok (bareRepoRoot, "workspace")
          else Ok (bareRepoRoot, "worktree")
        end
      end
    else Err "not in a bare repository or valid worktree"
  end.

(** [getCurrentBranch] *)
Definition getCurrentBranch (worktreePath : string) : result string string :=
  match git_output git (Some worktreePath) ["branch"; "--show-current"] with
  | Err e => Err e
  | Ok output => Ok (TrimSpace output)
  end.

(** The text of a [LinkError]. *)
Definition LinkError (op old new : string) (e : errno) : string :=
  op ++ " " ++ old ++ " " ++ new ++ ": " ++ strerror e.

(** The tree after [git worktree move] succeeded: the directory is where
    [rename(2)] would have put it. *)
Definition git_moved (source destination : string) (w : World) : World :=
  match Rename source destination w with
  | Ok w' => w'
  | Err _ => w
  end.

(** [moveWorktree] *)
Definition moveWorktree (source destination bareRepoRoot : string) : M unit :=
  fun w =>
    match git_worktree_move git source destination with
    | (_, None) => (Ok tt, git_moved source destination w)
    | (output, Some err) =>
      let w1 := print ("git worktree move failed (error: " ++ err ++ ", output: "
                       ++ output ++ "), trying filesystem move..." ++ String "010" "") w in
      match Rename source destination w1 with
      | Err e =>
        (Err ("failed to move directory: " ++ LinkError "rename" source destination e), w1)
      | Ok w2 =>
        match git_worktree_repair git with
        | Some err => (Err ("moved directory but failed to repair git metadata: " ++ err), w2)
        | None => (Ok tt, w2)
        end
      end
    end.

(** The state [moveWorktree] flags with "moved directory but failed to
    repair git metadata": git refused the move, [rename] moved the
    directory from [source] to [destination], giving [w'], and
    [git worktree repair] failed with [err]. *)
Definition moved_unrepaired (source destination : string) (w w' : World) (err : string) : Prop :=
  git_worktree_repair git = Some err /\
  exists output e,
    git_worktree_move git source destination = (output, Some e) /\
    Rename source destination
      (print ("git worktree move failed (error: " ++ e ++ ", output: "
              ++ output ++ "), trying filesystem move..." ++ String "010" "") w) = Ok w'.

(** The tree after [git worktree add] succeeded: a directory at [path]
    (and its parents) holding the tree that was checked out. *)
Definition git_added (path : string) (tree : gmap (list string) node) (w : World) : World :=
  let k := key w path in
  let m := match mkdir_all root_mode (fs w) [] k with
           | Ok m => m
           | Err _ => fs w
           end in
  set_fs w (list_to_map (map (fun '(r, n) => ((k ++ r)%list, n)) (map_to_list tree)) ∪ m).

(** [createWorktree] *)
Definition createWorktree (path commitish bareRepoRoot : string) : M unit :=
  fun w =>
    match git_worktree_add git path commitish with
    | Err e => (Err e, w)
    | Ok tree => (Ok tt, git_added path tree w)
    end.

(** The first part of [switchCmd.RunE], up to the comment "Now handle
    the target branch/commit": the location, the current branch and the
    move of the workspace to [tree/<current-branch>].  It returns the
    values the second part uses. *)
Definition switch_vacate : M (string * string * string * string) :=
  fun w =>
    match detectLocation w with
    | Err e => (Err e, w)
    | Ok (bareRepoRoot, currentLocation) =>
      match Chdir bareRepoRoot w with
      | Err e =>
        (Err ("error changing to bare repo directory: " ++ PathError "chdir" bareRepoRoot e), w)
      | Ok w =>
        let workspacePath := Join bareRepoRoot "workspace" in
        let treeDir := Join bareRepoRoot "tree" in
        let current :=
          match Stat workspacePath w with
          | Ok _ =>
            match getCurrentBranch workspacePath with
            | Err e => Err ("error getting current branch from workspace: " ++ e)
            | Ok currentBranch => Ok (currentBranch, true)
            end
          | Err _ => Ok ("", false)
          end in
        match current with
        | Err e => (Err e, w)
        | Ok (currentBranch, workspaceExists) =>
          match MkdirAll treeDir 493 w with
          | Err e =>
            (Err ("error creating tree directory: " ++ PathError "mkdir" treeDir e), w)
          | Ok w =>
            if workspaceExists then
              if String.eqb currentBranch "" then
                (Err "workspace exists but is in detached HEAD state", w)
              else
                let sanitizedCurrent := sanitizeBranchName currentBranch in
                let currentTargetPath := Join treeDir sanitizedCurrent in
                match Stat currentTargetPath w with
                | Ok _ =>
                  (Err ("tree/" ++ sanitizedCurrent ++ " already exists, this shouldn't happen"), w)
                | Err _ =>
                  (Printf ("Moving current workspace (" ++ currentBranch ++ ") to tree/"
                           ++ sanitizedCurrent ++ "..." ++ String "010" "") ;;;
                   wrap "error moving workspace to tree"
                     (moveWorktree workspacePath currentTargetPath bareRepoRoot) ;;;
                   ret (bareRepoRoot, currentLocation, workspacePath, treeDir)) w
                end
            else (Ok (bareRepoRoot, currentLocation, workspacePath, treeDir), w)
          end
        end
      end
    end.

(** The second part of [switchCmd.RunE]: the target is moved from
    [tree/] to the workspace, or a new worktree is created there. *)
Definition switch_occupy (targetCommitish bareRepoRoot currentLocation workspacePath treeDir : string)
  : M unit :=
  fun w =>
    let sanitizedTarget := sanitizeBranchName targetCommitish in
    let targetTreePath := Join treeDir sanitizedTarget in
    ((match Stat targetTreePath w with
      | Ok _ =>
        Printf ("Moving tree/" ++ sanitizedTarget ++ " to workspace..." ++ String "010" "") ;;;
        wrap ("error moving tree/" ++ sanitizedTarget ++ " to workspace")
          (moveWorktree targetTreePath workspacePath bareRepoRoot)
      | Err _ =>
        Printf ("Creating new worktree for '" ++ targetCommitish ++ "' at workspace..."
                ++ String "010" "") ;;;
        wrap "error creating worktree"
          (createWorktree workspacePath targetCommitish bareRepoRoot)
      end) ;;;
     Printf ("Successfully switched to " ++ targetCommitish ++ String "010" "") ;;;
     (if String.eqb currentLocation "workspace" then
        Printf ("Note: You may need to reload files in your IDE to see the changes"
                ++ String "010" "")
      else ret tt)) w.

(** [switchCmd.RunE] with [args = [targetCommitish]] *)
Definition switchCmd (targetCommitish : string) : M unit :=
  bind switch_vacate
    (fun '(bareRepoRoot, currentLocation, workspacePath, treeDir) =>
       switch_occupy targetCommitish bareRepoRoot currentLocation workspacePath treeDir).

(** *** checkout.go *)

(** [checkoutCmd.RunE] with [args = [commitish]]; [dirName] is
    [checkout_dirName commitish].  The git commands run in the working
    directory. *)
Definition checkoutCmd (commitish : string) : M unit :=
  fun w =>
    let cwd := Getwd w in
    let is_bare :=
      match git_output git None ["rev-parse"; "--is-bare-repository"] with
      | Ok output => String.eqb output ("true" ++ String "010" "")
      | Err _ => false
      end in
    if negb is_bare then
      (Err "not in a bare repository. Please run this command from a bare repository", w)
    else
      let dirName := checkout_dirName commitish in
      let treeDir := Join cwd "tree" in
      match MkdirAll treeDir 493 w with
      | Err e => (Err ("error creating tree directory: " ++ PathError "mkdir" treeDir e), w)
      | Ok w =>
        let worktreePath := Join treeDir dirName in
        match Stat worktreePath w with
        | Ok _ => (Err ("worktree already exists at " ++ worktreePath), w)
        | Err _ =>
          (Printf ("Creating worktree for '" ++ commitish ++ "' at " ++ worktreePath ++ "..."
                   ++ String "010" "") ;;;
           wrap "error creating worktree" (createWorktree worktreePath commitish cwd) ;;;
           Printf ("Successfully created worktree at " ++ worktreePath ++ String "010" "")) w
        end
      end.

End WithGit.

(** *** clone.go *)

(** The directory [cloneCmd] clones into when none is given: the part
    of the URL after its last separator, without one [.git] at its
    end. *)
Definition clone_dir (repoURL : string) : string :=
  TrimSuffix (List.last (split_slash repoURL) "") ".git".

(** What git answers to [cloneCmd]: [git clone --bare
    --recurse-submodules repoURL dir], the error or the tree created
    under [dir]; and [git config --add remote.origin.fetch ...] run in
    [dir], its error. *)
Record CloneGit : Type := mkCloneGit {
  git_clone : string -> string -> result string (gmap (list string) node);
  git_config_add_fetch : string -> option string
}.

(** [cloneCmd.RunE]; [Args] admits one or two arguments. *)
Definition cloneCmd (git : CloneGit) (args : list string) : M unit :=
  fun w =>
    match args with
    | [] | _ :: _ :: _ :: _ =>
      (Err ("accepts between 1 and 2 arg(s), received " ++ pretty (length args)), w)
    | repoURL :: rest =>
      let dir := match rest with
                 | [d] => d
                 | _ => clone_dir repoURL
                 end in
      let w1 := print ("Cloning " ++ repoURL ++ " into " ++ dir ++ "..." ++ String "010" "") w in
      match git_clone git repoURL dir with
      | Err e => (Err ("error cloning repository: " ++ e), w1)
      | Ok tree =>
        let w2 := git_added dir tree w1 in
        match git_config_add_fetch git dir with
        | Some e => (Err ("error configuring remote fetch: " ++ e), w2)
        | None =>
          (Ok tt, print ("Repository cloned and configured successfully." ++ String "010" "") w2)
        end
      end
    end.

End Cmd.

(** * Example repositories *)

Module Example.
Import GoString Strings Filepath Os Cmd.

Definition nl : string := String "010" "".

(** The answers of git in the worktree [/b/workspace] of the bare
    repository [/b], on branch [main]; every other command fails, and
    [git worktree add] checks out an empty tree. *)
Definition git_workspace : Git := mkGit
  (fun dir args =>
     match args with
     | ["rev-parse"; "--git-dir"] => Ok ("/b/worktrees/workspace" ++ nl)
     | ["rev-parse"; "--is-bare-repository"] => Ok ("false" ++ nl)
     | ["rev-parse"; "--show-toplevel"] => Ok ("/b/workspace" ++ nl)
     | ["branch"; "--show-current"] => Ok ("main" ++ nl)
     | _ => Err "exit status 1"
     end)
  (fun src dst => ("", None))
  (fun path commitish => Ok ∅)
  None.

(** A store with the file [.env] and the directory [config], and an
    empty worktree. *)
Definition store_world : World :=
  mkWorld (list_to_map
             [ (["b"], Directory 493);
               (["b"; "shared"], Directory 493);
               (["b"; "shared"; ".env"], File "SECRET" 420);
               (["b"; "shared"; "config"], Directory 493);
               (["b"; "shared"; "config"; "app.json"], File "{}" 384);
               (["b"; "workspace"], Directory 493) ])
          "/b/workspace" 18 [].

(** The same with an [.env] of the worktree's own. *)
Definition occupied_world : World :=
  set_fs store_world (<[ ["b"; "workspace"; ".env"] := File "LOCAL" 384 ]> (fs store_world)).

(** A worktree with the file [f], mode bits [rwx------], and no store. *)
Definition fresh_world : World :=
  mkWorld (list_to_map
             [ (["b"], Directory 493);
               (["b"; "workspace"], Directory 493);
               (["b"; "workspace"; "f"], File "hello" 448) ])
          "/b/workspace" 18 [].

(** A worktree [/w] that holds its own bare repository in [/w/a]. *)
Definition git_nested : Git := mkGit
  (fun dir args =>
     match args with
     | ["rev-parse"; "--git-dir"] => Ok ("/w/a/worktrees/w" ++ nl)
     | ["rev-parse"; "--is-bare-repository"] => Ok ("false" ++ nl)
     | ["rev-parse"; "--show-toplevel"] => Ok ("/w" ++ nl)
     | _ => Err "exit status 1"
     end)
  (fun src dst => ("", None))
  (fun path commitish => Ok ∅)
  None.

Definition nested_world : World :=
  mkWorld (list_to_map
             [ (["w"], Directory 493);
               (["w"; "a"], Directory 493);
               (["w"; "a"; "shared"], Directory 493);
               (["w"; "a"; "shared"; "a"], File "A" 420);
               (["w"; "a"; "shared"; "b"], File "B" 420) ])
          "/w" 18 [].

(** The store of [store_world] and a worktree with a [config] of its
    own. *)
Definition stale_world : World :=
  mkWorld (list_to_map
             [ (["b"], Directory 493);
               (["b"; "shared"], Directory 493);
               (["b"; "shared"; ".env"], File "SECRET" 420);
               (["b"; "shared"; "config"], Directory 493);
               (["b"; "shared"; "config"; "app.json"], File "{}" 384);
               (["b"; "workspace"], Directory 493);
               (["b"; "workspace"; "config"], Directory 448);
               (["b"; "workspace"; "config"; "old.json"], File "[]" 420) ])
          "/b/workspace" 18 [].

(** The worktree of [main] in the workspace and that of [dev] parked. *)
Definition parked_world : World :=
  mkWorld (list_to_map
             [ (["b"], Directory 493);
               (["b"; "workspace"], Directory 493);
               (["b"; "workspace"; "f"], File "hello" 448);
               (["b"; "tree"], Directory 493);
               (["b"; "tree"; "dev"], Directory 493);
               (["b"; "tree"; "dev"; "g"], File "bye" 420) ])
          "/b/workspace" 18 [].

(** The same worktree when git knows no branch or commit to check out. *)
Definition git_unknown_target : Git := mkGit
  (git_output git_workspace)
  (git_worktree_move git_workspace)
  (fun path commitish => Err "exit status 128")
  None.

(** The same worktree with a detached [HEAD]: git names no current
    branch. *)
Definition git_detached : Git := mkGit
  (fun dir args =>
     match args with
     | ["branch"; "--show-current"] => Ok nl
     | _ => git_output git_workspace dir args
     end)
  (git_worktree_move git_workspace)
  (git_worktree_add git_workspace)
  None.

(** A worktree with the directory [config], open to everyone, that
    holds a file and a directory of its own, and a second worktree
    [/b/tree/dev]; no store. *)
Definition tree_world : World :=
  mkWorld (list_to_map
             [ (["b"], Directory 493);
               (["b"; "workspace"], Directory 493);
               (["b"; "workspace"; "config"], Directory 511);
               (["b"; "workspace"; "config"; "app.json"], File "{}" 438);
               (["b"; "workspace"; "config"; "keys"], Directory 448);
               (["b"; "workspace"; "config"; "keys"; "id"], File "k" 384);
               (["b"; "tree"], Directory 493);
               (["b"; "tree"; "dev"], Directory 493) ])
          "/b/workspace" 18 [].

(** The answers of git in the worktree [/b/tree/dev], on branch [dev]. *)
Definition git_dev : Git := mkGit
  (fun dir args =>
     match args with
     | ["rev-parse"; "--git-dir"] => Ok ("/b/worktrees/dev" ++ nl)
     | ["rev-parse"; "--is-bare-repository"] => Ok ("false" ++ nl)
     | ["rev-parse"; "--show-toplevel"] => Ok ("/b/tree/dev" ++ nl)
     | ["branch"; "--show-current"] => Ok ("dev" ++ nl)
     | _ => Err "exit status 1"
     end)
  (fun src dst => ("", None))
  (fun path commitish => Ok ∅)
  None.

(** The worktrees of [parked_world] seen from [/b/tree/dev]. *)
Definition parked_dev_world : World :=
  mkWorld (fs parked_world) "/b/tree/dev" 18 [].

(** The answers of git in the bare repository [/b] itself; [git
    worktree add] checks out the file [README]. *)
Definition git_bare : Git := mkGit
  (fun dir args =>
     match args with
     | ["rev-parse"; "--git-dir"] => Ok ("." ++ nl)
     | ["rev-parse"; "--is-bare-repository"] => Ok ("true" ++ nl)
     | ["branch"; "--show-current"] => Ok ("main" ++ nl)
     | _ => Err "exit status 128"
     end)
  (fun src dst => ("", None))
  (fun path commitish => Ok {[ ["README"] := File "wtm" 420 ]})
  None.

(** The worktrees of [parked_world] seen from [/b]. *)
Definition bare_world : World :=
  mkWorld (fs parked_world) "/b" 18 [].

(** The bare repository [/b] with no worktree yet. *)
Definition empty_bare_world : World :=
  mkWorld (list_to_map [ (["b"], Directory 493) ]) "/b" 18 [].

(** A worktree whose [env] is a link to a file outside it; no store. *)
Definition linked_world : World :=
  mkWorld (list_to_map
             [ (["b"], Directory 493);
               (["b"; "secrets"], Directory 448);
               (["b"; "secrets"; "env"], File "SECRET" 420);
               (["b"; "workspace"], Directory 493);
               (["b"; "workspace"; "env"], Link "../secrets/env") ])
          "/b/workspace" 18 [].

(** The answers of [git_workspace], with a [git worktree add] that
    checks out the file [README]. *)
Definition git_readme : Git := mkGit
  (git_output git_workspace)
  (git_worktree_move git_workspace)
  (fun path commitish => Ok {[ ["README"] := File "wtm" 420 ]})
  None.

End Example.

(** * Properties *)

Import GoString Strings Filepath Os Cmd.

(** ** UTF-8 decoding and [sanitizeBranchName] *)

Lemma byte_val_range c : 0 <= byte_val c < 256.
Proof. unfold byte_val. pose proof (N_ascii_bounded c). lia. Qed.

Lemma byte_val_of z : 0 <= z < 256 -> byte_val (byte_of z) = z.
Proof.
  intros H. unfold byte_val, byte_of. rewrite N_ascii_embedding by lia. lia.
Qed.

Lemma byte_of_val c : byte_of (byte_val c) = c.
Proof. unfold byte_val, byte_of. rewrite N2Z.id. apply ascii_N_embedding. Qed.

Lemma lor_shiftl_add a b k :
  0 <= k -> 0 <= b < 2 ^ k -> Z.lor (Z.shiftl a k) b = a * 2 ^ k + b.
Proof.
  intros Hk Hb. rewrite <- Z.shiftl_mul_pow2 by lia.
  symmetry. apply Z.add_nocarry_lor.
  apply Z.bits_inj'. intros n Hn. rewrite Z.land_spec, Z.bits_0.
  destruct (Z.lt_ge_cases n k) as [Hlt|Hge].
  - rewrite Z.shiftl_spec_low by lia. reflexivity.
  - destruct (Z.eq_dec b 0) as [->|Hb0].
    + rewrite Z.bits_0. apply andb_false_r.
    + rewrite (Z.bits_above_log2 b n); [apply andb_false_r|lia|].
      apply Z.log2_lt_pow2; [lia|]. 
      eapply Z.lt_le_trans; [apply Hb|]. apply Z.pow_le_mono_r; lia.
Qed.

Lemma lor_add_shiftl a b k :
  0 <= k -> 0 <= b < 2 ^ k -> Z.lor (a * 2 ^ k) b = a * 2 ^ k + b.
Proof. intros. rewrite <- lor_shiftl_add by lia. now rewrite Z.shiftl_mul_pow2 by lia. Qed.

Lemma land_3F x : Z.land x 0x3F = x mod 64.
Proof. change 0x3F with (Z.ones 6). now rewrite Z.land_ones by lia. Qed.
Lemma land_1F x : Z.land x 0x1F = x mod 32.
Proof. change 0x1F with (Z.ones 5). now rewrite Z.land_ones by lia. Qed.
Lemma land_0F x : Z.land x 0x0F = x mod 16.
Proof. change 0x0F with (Z.ones 4). now rewrite Z.land_ones by lia. Qed.
Lemma land_07 x : Z.land x 0x07 = x mod 8.
Proof. change 0x07 with (Z.ones 3). now rewrite Z.land_ones by lia. Qed.

Lemma lor_80 x : 0 <= x < 64 -> Z.lor 0x80 x = 128 + x.
Proof. intros. change 0x80 with (2 * 2 ^ 6). rewrite lor_add_shiftl; lia. Qed.
Lemma lor_C0 x : 0 <= x < 32 -> Z.lor 0xC0 x = 192 + x.
Proof. intros. change 0xC0 with (6 * 2 ^ 5). rewrite lor_add_shiftl; lia. Qed.
Lemma lor_E0 x : 0 <= x < 16 -> Z.lor 0xE0 x = 224 + x.
Proof. intros. change 0xE0 with (14 * 2 ^ 4). rewrite lor_add_shiftl; lia. Qed.
Lemma lor_F0 x : 0 <= x < 8 -> Z.lor 0xF0 x = 240 + x.
Proof. intros. change 0xF0 with (30 * 2 ^ 3). rewrite lor_add_shiftl; lia. Qed.

(* decoded values as arithmetic *)
Lemma dec2_val b0 b1 :
  Z.lor (Z.shiftl (Z.land b0 0x1F) 6) (Z.land b1 0x3F) = (b0 mod 32) * 64 + b1 mod 64.
Proof.
  rewrite land_1F, land_3F. rewrite lor_shiftl_add; try lia.
  pose proof (Z.mod_pos_bound b1 64). lia.
Qed.

Lemma lor3_add a b c :
  0 <= a -> 0 <= b < 64 -> 0 <= c < 64 ->
  Z.lor (Z.lor (Z.shiftl a 12) (Z.shiftl b 6)) c = a * 4096 + b * 64 + c.
Proof.
  intros Ha Hb Hc.
  replace (Z.shiftl a 12) with (Z.shiftl (Z.shiftl a 6) 6)
    by (rewrite Z.shiftl_shiftl by lia; reflexivity).
  rewrite <- Z.shiftl_lor.
  rewrite (lor_shiftl_add a b 6) by lia.
  rewrite lor_shiftl_add by lia. lia.
Qed.

Lemma lor4_add a b c d :
  0 <= a -> 0 <= b < 64 -> 0 <= c < 64 -> 0 <= d < 64 ->
  Z.lor (Z.lor (Z.lor (Z.shiftl a 18) (Z.shiftl b 12)) (Z.shiftl c 6)) d
  = a * 262144 + b * 4096 + c * 64 + d.
Proof.
  intros Ha Hb Hc Hd.
  replace (Z.shiftl a 18) with (Z.shiftl (Z.shiftl a 6) 12)
    by (rewrite Z.shiftl_shiftl by lia; reflexivity).
  replace (Z.shiftl b 12) with (Z.shiftl (Z.shiftl b 6) 6)
    by (rewrite Z.shiftl_shiftl by lia; reflexivity).
  replace (Z.shiftl (Z.shiftl a 6) 12) with (Z.shiftl (Z.shiftl (Z.shiftl a 6) 6) 6)
    by (rewrite (Z.shiftl_shiftl (Z.shiftl a 6)) by lia; reflexivity).
  rewrite <- !Z.shiftl_lor.
  rewrite (lor_shiftl_add a b 6) by lia.
  rewrite (lor_shiftl_add _ c 6) by lia.
  rewrite lor_shiftl_add by lia. lia.
Qed.

Lemma dec3_val b0 b1 b2 :
  Z.lor (Z.lor (Z.shiftl (Z.land b0 0x0F) 12) (Z.shiftl (Z.land b1 0x3F) 6)) (Z.land b2 0x3F)
  = (b0 mod 16) * 4096 + (b1 mod 64) * 64 + b2 mod 64.
Proof.
  rewrite land_0F, !land_3F.
  pose proof (Z.mod_pos_bound b0 16). pose proof (Z.mod_pos_bound b1 64). pose proof (Z.mod_pos_bound b2 64).
  apply lor3_add; lia.
Qed.

Lemma dec4_val b0 b1 b2 b3 :
  Z.lor (Z.lor (Z.lor (Z.shiftl (Z.land b0 0x07) 18) (Z.shiftl (Z.land b1 0x3F) 12))
               (Z.shiftl (Z.land b2 0x3F) 6)) (Z.land b3 0x3F)
  = (b0 mod 8) * 262144 + (b1 mod 64) * 4096 + (b2 mod 64) * 64 + b3 mod 64.
Proof.
  rewrite land_07, !land_3F.
  pose proof (Z.mod_pos_bound b0 8). pose proof (Z.mod_pos_bound b1 64).
  pose proof (Z.mod_pos_bound b2 64). pose proof (Z.mod_pos_bound b3 64).
  apply lor4_add; lia.
Qed.

Lemma decode_cases s r w :
  DecodeRuneInString s = (r, w) -> s <> "" ->
  valid_rune r /\ (1 <= w <= String.length s)%nat.
Proof.
  unfold DecodeRuneInString. destruct s as [|c0 t0]; [congruence|]. intros H _.
  pose proof (byte_val_range c0) as R0.
  assert (VE : valid_rune RuneError) by (unfold valid_rune, RuneError, MaxRune, is_surrogate; split; [lia|reflexivity]).
  cbn [String.length].
  destruct (byte_val c0 <? 128) eqn:E0.
  { inversion H; subst. split; [|lia]. unfold valid_rune, MaxRune, is_surrogate. split; [lia|].
    apply andb_false_iff. left. lia. }
  destruct ((byte_val c0 <? 194) || (244 <? byte_val c0)) eqn:E1.
  { inversion H; subst. split; [easy|lia]. }
  apply orb_false_iff in E1 as [E1 E1'].
  destruct t0 as [|c1 t1]; [inversion H; subst; split; [easy|cbn; lia]|].
  pose proof (byte_val_range c1) as R1. cbn [String.length].
  destruct ((byte_val c1 <? accept_lo (byte_val c0)) || (accept_hi (byte_val c0) <? byte_val c1)) eqn:E2.
  { inversion H; subst. split; [easy|lia]. }
  apply orb_false_iff in E2 as [E2 E2'].
  unfold accept_lo, accept_hi in *.
  destruct (byte_val c0 <? 224) eqn:E3.
  { inversion H; subst. rewrite dec2_val. split; [|lia].
    unfold valid_rune, MaxRune, is_surrogate. split.
    - Z.div_mod_to_equations. lia.
    - apply andb_false_iff. left. Z.div_mod_to_equations. lia. }
  destruct t1 as [|c2 t2]; [inversion H; subst; split; [easy|cbn; lia]|].
  pose proof (byte_val_range c2) as R2. cbn [String.length].
  destruct (negb (is_cont (byte_val c2))) eqn:E4.
  { inversion H; subst. split; [easy|lia]. }
  apply negb_false_iff in E4. unfold is_cont in E4. apply andb_true_iff in E4 as [E4 E4'].
  destruct (byte_val c0 <? 240) eqn:E5.
  { inversion H; subst. rewrite dec3_val. split; [|lia].
    unfold valid_rune, MaxRune, is_surrogate. split.
    - Z.div_mod_to_equations. lia.
    - apply andb_false_iff.
      destruct (Z_le_gt_dec (byte_val c0) 237); [left|right];
      destruct (byte_val c0 =? 224) eqn:Ea; destruct (byte_val c0 =? 237) eqn:Eb;
      destruct (byte_val c0 =? 240) eqn:Ec; destruct (byte_val c0 =? 244) eqn:Ed;
      try lia; Z.div_mod_to_equations; lia. }
  destruct t2 as [|c3 t3]; [inversion H; subst; split; [easy|cbn; lia]|].
  pose proof (byte_val_range c3) as R3. cbn [String.length].
  destruct (negb (is_cont (byte_val c3))) eqn:E6.
  { inversion H; subst. split; [easy|lia]. }
  apply negb_false_iff in E6. unfold is_cont in E6. apply andb_true_iff in E6 as [E6 E6'].
  inversion H; subst. rewrite dec4_val. split; [|lia].
  unfold valid_rune, MaxRune, is_surrogate. split.
  - destruct (byte_val c0 =? 224) eqn:Ea; destruct (byte_val c0 =? 237) eqn:Eb;
      destruct (byte_val c0 =? 240) eqn:Ec; destruct (byte_val c0 =? 244) eqn:Ed;
      try lia; Z.div_mod_to_equations; lia.
  - apply andb_false_iff. right. 
    destruct (byte_val c0 =? 224) eqn:Ea; destruct (byte_val c0 =? 237) eqn:Eb;
      destruct (byte_val c0 =? 240) eqn:Ec; destruct (byte_val c0 =? 244) eqn:Ed;
      try lia; Z.div_mod_to_equations; lia.
Qed.

Lemma shiftr6 r : Z.shiftr r 6 = r / 64.
Proof. now rewrite Z.shiftr_div_pow2 by lia. Qed.
Lemma shiftr12 r : Z.shiftr r 12 = r / 4096.
Proof. now rewrite Z.shiftr_div_pow2 by lia. Qed.
Lemma shiftr18 r : Z.shiftr r 18 = r / 262144.
Proof. now rewrite Z.shiftr_div_pow2 by lia. Qed.

Lemma encode3_bytes r :
  0x800 <= r <= 0xFFFF ->
  encode3 r = String (byte_of (224 + r / 4096))
             (String (byte_of (128 + (r / 64) mod 64))
             (String (byte_of (128 + r mod 64)) "")).
Proof.
  intros H. unfold encode3. rewrite shiftr6, shiftr12, !land_3F.
  rewrite lor_E0 by (Z.div_mod_to_equations; lia).
  rewrite !lor_80 by (Z.div_mod_to_equations; lia).
  reflexivity.
Qed.

Lemma append_cons c s t : String c s ++ t = String c (s ++ t).
Proof. reflexivity. Qed.
Lemma append_nil_l t : "" ++ t = t.
Proof. reflexivity. Qed.

Ltac decide_ifs :=
  repeat match goal with
  | |- context [if (?a =? ?b) then _ else _] =>
    let E := fresh "E" in destruct (a =? b) eqn:E; try (exfalso; Z.div_mod_to_equations; lia)
  | |- context [if ?c then _ else _] =>
    let E := fresh "E" in destruct c eqn:E; try (exfalso; Z.div_mod_to_equations; lia)
  end.

Lemma decode_encode r rest :
  valid_rune r ->
  DecodeRuneInString (string_of_rune r ++ rest) = (r, String.length (string_of_rune r)).
Proof.
  intros [Hr Hs]. unfold MaxRune in Hr. unfold string_of_rune.
  replace ((r <? 0) || (MaxRune <? r) || is_surrogate r) with false
    by (rewrite Hs; unfold MaxRune; lia).
  unfold is_surrogate in Hs. apply andb_false_iff in Hs.
  destruct (r <=? 127) eqn:E1.
  { rewrite ?append_cons, ?append_nil_l. cbn [String.length]. unfold DecodeRuneInString. rewrite byte_val_of by lia.
    decide_ifs. reflexivity. }
  destruct (r <=? 2047) eqn:E2.
  { rewrite shiftr6, land_3F.
    rewrite lor_C0 by (Z.div_mod_to_equations; lia).
    rewrite lor_80 by (Z.div_mod_to_equations; lia).
    rewrite ?append_cons, ?append_nil_l. cbn [String.length]. unfold DecodeRuneInString.
    rewrite !byte_val_of by (Z.div_mod_to_equations; lia).
    unfold accept_lo, accept_hi. rewrite dec2_val.
    decide_ifs; f_equal; Z.div_mod_to_equations; lia. }
  destruct (r <=? 65535) eqn:E3.
  { rewrite encode3_bytes by lia.
    rewrite ?append_cons, ?append_nil_l. cbn [String.length]. unfold DecodeRuneInString.
    rewrite !byte_val_of by (Z.div_mod_to_equations; lia).
    unfold accept_lo, accept_hi, is_cont. rewrite dec3_val.
    decide_ifs; f_equal; Z.div_mod_to_equations; lia. }
  rewrite shiftr6, shiftr12, shiftr18, !land_3F.
  rewrite lor_F0 by (Z.div_mod_to_equations; lia).
  rewrite !lor_80 by (Z.div_mod_to_equations; lia).
  rewrite ?append_cons, ?append_nil_l. cbn [String.length]. unfold DecodeRuneInString.
  rewrite !byte_val_of by (Z.div_mod_to_equations; lia).
  unfold accept_lo, accept_hi, is_cont. rewrite dec4_val.
  decide_ifs; f_equal; Z.div_mod_to_equations; lia.
Qed.

Lemma append_assoc' (a b c : string) : (a ++ b) ++ c = a ++ (b ++ c).
Proof. induction a; cbn; [reflexivity|]. rewrite !append_cons. now f_equal. Qed.
Lemma append_nil_r' (a : string) : a ++ "" = a.
Proof. induction a; [reflexivity|]. rewrite append_cons. now f_equal. Qed.

Lemma length_append (a b : string) :
  String.length (a ++ b) = (String.length a + String.length b)%nat.
Proof. induction a; [reflexivity|]. rewrite append_cons. cbn. now rewrite IHa. Qed.

Lemma drop_bytes_append (a t : string) : drop_bytes (String.length a) (a ++ t) = t.
Proof. induction a; [reflexivity|]. rewrite append_cons. cbn. exact IHa. Qed.

Lemma take_bytes_append (a t : string) : take_bytes (String.length a) (a ++ t) = a.
Proof. induction a; [reflexivity|]. rewrite append_cons. cbn. now f_equal. Qed.

Lemma take_drop_bytes n s : take_bytes n s ++ drop_bytes n s = s.
Proof.
  revert s; induction n; intros [|c s]; try reflexivity.
  cbn [take_bytes drop_bytes]. rewrite append_cons. now f_equal.
Qed.

Lemma length_drop_bytes n s : String.length (drop_bytes n s) = (String.length s - n)%nat.
Proof. revert s; induction n; intros [|c s]; cbn; auto with arith. Qed.

Lemma runes_from_enough fuel s :
  (String.length s <= fuel)%nat -> runes_from fuel s = runes s.
Proof.
  unfold runes. remember (String.length s) as n eqn:Hn.
  revert fuel s Hn. induction n as [n IH] using lt_wf_ind. intros fuel s Hn Hle.
  destruct s as [|c t].
  { subst n. destruct fuel; reflexivity. }
  cbn [String.length] in Hn. destruct fuel as [|fuel]; [lia|]. subst n.
  cbn [runes_from].
  destruct (DecodeRuneInString (String c t)) as [r w] eqn:D.
  apply decode_cases in D as [_ W]; [|discriminate]. cbn [String.length] in W.
  f_equal.
  pose proof (length_drop_bytes w (String c t)) as L. cbn [String.length] in L.
  set (d := drop_bytes w (String c t)) in *.
  transitivity (runes_from (String.length d) d).
  - apply (IH (String.length d)); [lia|reflexivity|lia].
  - symmetry. apply (IH (String.length d)); [lia|reflexivity|lia].
Qed.

Lemma runes_nil : runes "" = [].
Proof. reflexivity. Qed.

Lemma runes_cons s r w :
  s <> "" -> DecodeRuneInString s = (r, w) -> runes s = r :: runes (drop_bytes w s).
Proof.
  intros Hs D. unfold runes at 1. destruct s as [|c t]; [congruence|].
  cbn [String.length runes_from]. rewrite D. f_equal.
  apply runes_from_enough.
  apply decode_cases in D as [_ W]; [|discriminate].
  rewrite length_drop_bytes. cbn [String.length] in *. lia.
Qed.

Lemma string_of_rune_nonempty r : string_of_rune r <> "".
Proof.
  unfold string_of_rune, encode3.
  repeat match goal with |- context [if ?c then _ else _] => destruct c end; discriminate.
Qed.

Lemma runes_encode r t :
  valid_rune r -> runes (string_of_rune r ++ t) = r :: runes t.
Proof.
  intros V.
  rewrite (runes_cons _ r (String.length (string_of_rune r))).
  - now rewrite drop_bytes_append.
  - pose proof (string_of_rune_nonempty r). destruct (string_of_rune r); [congruence|discriminate].
  - now apply decode_encode.
Qed.

Lemma runes_valid s : Forall valid_rune (runes s).
Proof.
  remember (String.length s) as n eqn:Hn.
  revert s Hn. induction n as [n IH] using lt_wf_ind. intros s Hn.
  destruct s as [|c t]; [constructor|].
  destruct (DecodeRuneInString (String c t)) as [r w] eqn:D.
  rewrite (runes_cons _ r w) by (discriminate || assumption).
  apply decode_cases in D as [V W]; [|discriminate].
  constructor; [assumption|].
  eapply IH; [|reflexivity]. rewrite length_drop_bytes. lia.
Qed.

Lemma fold_sanitize_step l acc :
  fold_left sanitize_step l acc = acc ++ concat_strings (map piece l).
Proof.
  revert acc; induction l as [|r l IH]; intros acc; cbn [fold_left map concat_strings].
  - now rewrite append_nil_r'.
  - rewrite IH. unfold sanitize_step, piece. destruct (r =? slash); now rewrite append_assoc'.
Qed.

Lemma sanitize_pieces name :
  sanitizeBranchName name = concat_strings (map piece (runes name)).
Proof. unfold sanitizeBranchName. now rewrite fold_sanitize_step. Qed.

Lemma piece_encode r : piece r = string_of_rune (subst_slash r).
Proof. unfold piece, subst_slash. destruct (r =? slash); reflexivity. Qed.

Lemma subst_slash_valid r : valid_rune r -> valid_rune (subst_slash r).
Proof.
  unfold subst_slash. destruct (r =? slash); [|auto]. intros _.
  unfold valid_rune, dash, MaxRune. split; [lia|reflexivity].
Qed.

Lemma runes_concat_pieces l :
  Forall valid_rune l -> runes (concat_strings (map piece l)) = map subst_slash l.
Proof.
  induction 1 as [|r l V _ IH]; [reflexivity|].
  cbn [map concat_strings]. rewrite piece_encode, runes_encode by now apply subst_slash_valid.
  now rewrite IH.
Qed.

Lemma piece_subst r : piece (subst_slash r) = piece r.
Proof.
  unfold piece, subst_slash. destruct (r =? slash) eqn:E; [reflexivity|]. now rewrite E.
Qed.

Lemma sanitize_idempotent x : sanitizeBranchName (sanitizeBranchName x) = sanitizeBranchName x.
Proof.
  rewrite (sanitize_pieces (sanitizeBranchName x)), (sanitize_pieces x).
  rewrite runes_concat_pieces by apply runes_valid.
  rewrite map_map. f_equal. apply map_ext. intros; apply piece_subst.
Qed.

Lemma string_of_rune_arith r :
  valid_rune r ->
  string_of_rune r =
    if r <=? 0x7F then String (byte_of r) ""
    else if r <=? 0x7FF then
      String (byte_of (192 + r / 64)) (String (byte_of (128 + r mod 64)) "")
    else if r <=? 0xFFFF then
      String (byte_of (224 + r / 4096))
        (String (byte_of (128 + (r / 64) mod 64)) (String (byte_of (128 + r mod 64)) ""))
    else
      String (byte_of (240 + r / 262144))
        (String (byte_of (128 + (r / 4096) mod 64))
          (String (byte_of (128 + (r / 64) mod 64)) (String (byte_of (128 + r mod 64)) ""))).
Proof.
  intros [Hr Hs]. unfold MaxRune in Hr. unfold string_of_rune.
  replace ((r <? 0) || (MaxRune <? r) || is_surrogate r) with false
    by (rewrite Hs; unfold MaxRune; lia).
  destruct (r <=? 127) eqn:E1; [reflexivity|].
  destruct (r <=? 2047) eqn:E2.
  { rewrite shiftr6, land_3F.
    rewrite lor_C0 by (Z.div_mod_to_equations; lia).
    rewrite lor_80 by (Z.div_mod_to_equations; lia). reflexivity. }
  destruct (r <=? 65535) eqn:E3.
  { now rewrite encode3_bytes by lia. }
  rewrite shiftr6, shiftr12, shiftr18, !land_3F.
  rewrite lor_F0 by (Z.div_mod_to_equations; lia).
  rewrite !lor_80 by (Z.div_mod_to_equations; lia). reflexivity.
Qed.

Ltac byte_back c :=
  match goal with
  | |- context [byte_of ?e] =>
    lazymatch e with
    | byte_val _ => fail
    | _ => replace e with (byte_val c) by (Z.div_mod_to_equations; lia)
    end
  end.

Lemma encode_decode s r w :
  DecodeRuneInString s = (r, w) ->
  match s with
  | "" => False
  | String c0 _ => (byte_val c0 <? 0x80) || (1 <? w)%nat = true
  end ->
  string_of_rune r = take_bytes w s.
Proof.
  intros D OK. destruct s as [|c0 t0]; [easy|].
  pose proof (decode_cases _ _ _ D ltac:(discriminate)) as [V _].
  rewrite (string_of_rune_arith _ V). clear V.
  unfold DecodeRuneInString in D.
  pose proof (byte_val_range c0) as R0.
  destruct (byte_val c0 <? 128) eqn:E0.
  { inversion D; subst. replace (byte_val c0 <=? 127) with true by lia.
    now rewrite byte_of_val. }
  cbn [orb] in OK.
  destruct ((byte_val c0 <? 194) || (244 <? byte_val c0)) eqn:E1.
  { inversion D; subst. discriminate. }
  apply orb_false_iff in E1 as [E1 E1'].
  destruct t0 as [|c1 t1]; [inversion D; subst; discriminate|].
  pose proof (byte_val_range c1) as R1.
  destruct ((byte_val c1 <? accept_lo (byte_val c0)) || (accept_hi (byte_val c0) <? byte_val c1)) eqn:E2.
  { inversion D; subst. discriminate. }
  apply orb_false_iff in E2 as [E2 E2'].
  unfold accept_lo, accept_hi in *.
  destruct (byte_val c0 =? 224) eqn:Ea; destruct (byte_val c0 =? 237) eqn:Eb;
  destruct (byte_val c0 =? 240) eqn:Ec; destruct (byte_val c0 =? 244) eqn:Ed; try lia.
  all: destruct (byte_val c0 <? 224) eqn:E3.
  all: try (inversion D; subst; rewrite dec2_val; cbn [take_bytes];
    decide_ifs; byte_back c0; byte_back c1; now rewrite !byte_of_val).
  all: destruct t1 as [|c2 t2]; [inversion D; subst; discriminate|].
  all: pose proof (byte_val_range c2) as R2.
  all: destruct (negb (is_cont (byte_val c2))) eqn:E4; [inversion D; subst; discriminate|].
  all: apply negb_false_iff in E4; unfold is_cont in E4; apply andb_true_iff in E4 as [E4 E4'].
  all: destruct (byte_val c0 <? 240) eqn:E5.
  all: try (inversion D; subst; rewrite dec3_val; cbn [take_bytes];
    decide_ifs; byte_back c0; byte_back c1; byte_back c2; now rewrite !byte_of_val).
  all: destruct t2 as [|c3 t3]; [inversion D; subst; discriminate|].
  all: pose proof (byte_val_range c3) as R3.
  all: destruct (negb (is_cont (byte_val c3))) eqn:E6; [inversion D; subst; discriminate|].
  all: apply negb_false_iff in E6; unfold is_cont in E6; apply andb_true_iff in E6 as [E6 E6'].
  all: inversion D; subst; rewrite dec4_val; cbn [take_bytes];
    decide_ifs; byte_back c0; byte_back c1; byte_back c2; byte_back c3; now rewrite !byte_of_val.
Qed.

Lemma map_bytes_append f a b : map_bytes f (a ++ b) = map_bytes f a ++ map_bytes f b.
Proof. induction a; [reflexivity|]. rewrite append_cons. cbn. rewrite append_cons. now f_equal. Qed.

Lemma slash_to_dash_byte z :
  0 <= z < 256 -> z <> 47 -> slash_to_dash (byte_of z) = byte_of z.
Proof.
  intros R N. unfold slash_to_dash.
  destruct (Ascii.eqb (byte_of z) "/") eqn:E; [|reflexivity].
  apply Ascii.eqb_eq in E. apply (f_equal byte_val) in E.
  rewrite byte_val_of in E by assumption. vm_compute in E. congruence.
Qed.

Lemma replace_slash_rune r :
  valid_rune r -> replace_slash (string_of_rune r) = piece r.
Proof.
  intros V. unfold piece. destruct (r =? slash) eqn:E.
  { apply Z.eqb_eq in E. subst r. vm_compute. reflexivity. }
  apply Z.eqb_neq in E. unfold slash in E.
  rewrite (string_of_rune_arith _ V). destruct V as [Hr Hs]. unfold MaxRune in Hr.
  unfold replace_slash.
  decide_ifs; cbn [map_bytes];
    rewrite !slash_to_dash_byte by (Z.div_mod_to_equations; lia); reflexivity.
Qed.

Lemma replace_slash_runes l :
  Forall valid_rune l ->
  replace_slash (string_of_runes l) = concat_strings (map piece l).
Proof.
  induction 1 as [|r l V _ IH]; [reflexivity|].
  unfold string_of_runes in *. cbn [map concat_strings].
  unfold replace_slash in *. rewrite map_bytes_append.
  fold (replace_slash (string_of_rune r)). rewrite replace_slash_rune by assumption.
  now rewrite IH.
Qed.

Lemma sanitize_reencode x :
  sanitizeBranchName x = replace_slash (string_of_runes (runes x)).
Proof. rewrite sanitize_pieces. symmetry. apply replace_slash_runes, runes_valid. Qed.

Lemma valid_from_enough fuel s :
  (String.length s <= fuel)%nat -> valid_from fuel s = ValidString s.
Proof.
  unfold ValidString. remember (String.length s) as n eqn:Hn.
  revert fuel s Hn. induction n as [n IH] using lt_wf_ind. intros fuel s Hn Hle.
  destruct s as [|c t].
  { subst n. destruct fuel; reflexivity. }
  cbn [String.length] in Hn. destruct fuel as [|fuel]; [lia|]. subst n.
  cbn [valid_from].
  destruct (DecodeRuneInString (String c t)) as [r w] eqn:D.
  apply decode_cases in D as [_ W]; [|discriminate]. cbn [String.length] in W.
  f_equal.
  pose proof (length_drop_bytes w (String c t)) as L. cbn [String.length] in L.
  set (d := drop_bytes w (String c t)) in *.
  transitivity (valid_from (String.length d) d).
  - apply (IH (String.length d)); [lia|reflexivity|lia].
  - symmetry. apply (IH (String.length d)); [lia|reflexivity|lia].
Qed.

Lemma valid_reencode s : ValidString s = true -> string_of_runes (runes s) = s.
Proof.
  remember (String.length s) as n eqn:Hn.
  revert s Hn. induction n as [n IH] using lt_wf_ind. intros s Hn HV.
  destruct s as [|c t]; [reflexivity|].
  destruct (DecodeRuneInString (String c t)) as [r w] eqn:D.
  rewrite (runes_cons _ r w) by (discriminate || assumption).
  unfold ValidString in HV. cbn [String.length valid_from] in HV. rewrite D in HV.
  apply andb_true_iff in HV as [OK HV].
  pose proof (decode_cases _ _ _ D ltac:(discriminate)) as [_ W]. cbn [String.length] in W.
  rewrite valid_from_enough in HV by (rewrite length_drop_bytes; cbn [String.length]; lia).
  unfold string_of_runes in *. cbn [map concat_strings].
  rewrite (encode_decode _ _ _ D OK).
  rewrite (IH (String.length (drop_bytes w (String c t)))); try reflexivity; try assumption.
  - apply take_drop_bytes.
  - rewrite length_drop_bytes. subst n. cbn [String.length]. lia.
Qed.

Lemma sanitize_valid x : ValidString x = true -> sanitizeBranchName x = replace_slash x.
Proof. intros V. now rewrite sanitize_reencode, valid_reencode. Qed.

(** *** The specification of the sanitizer *)

(** C8 (as amended).  [sanitizeBranchName] is a total function with
    [sanitize("bugfix/critical/issue-123") = "bugfix-critical-issue-123"]
    and [sanitize("master") = "master"]; it is idempotent on every input;
    its result is the input re-encoded rune by rune (each byte that is
    not part of a valid UTF-8 encoding becomes U+FFFD) with every
    separator byte replaced by a dash; hence on input that is valid
    UTF-8 it replaces the separators and changes nothing else. *)
Theorem sanitize_spec :
  sanitizeBranchName "bugfix/critical/issue-123" = "bugfix-critical-issue-123"
  /\ sanitizeBranchName "master" = "master"
  /\ (forall x, sanitizeBranchName (sanitizeBranchName x) = sanitizeBranchName x)
  /\ (forall x, sanitizeBranchName x = replace_slash (string_of_runes (runes x)))
  /\ (forall x, ValidString x = true -> sanitizeBranchName x = replace_slash x).
Proof.
  split; [vm_compute; reflexivity|].
  split; [vm_compute; reflexivity|].
  split; [exact sanitize_idempotent|].
  split; [exact sanitize_reencode|exact sanitize_valid].
Qed.

(** The last part of [sanitize_spec] at a branch name of the README. *)
Lemma sanitize_spec_witness :
  ValidString "feature/new-ui" = true
  /\ sanitizeBranchName "feature/new-ui" = replace_slash "feature/new-ui".
Proof.
  split; [vm_compute; reflexivity|].
  apply (proj2 (proj2 (proj2 (proj2 sanitize_spec)))). vm_compute. reflexivity.
Defined.

(** C8 as stated fails: the byte 0xFF is no separator, and the result
    holds the three bytes of U+FFFD in its place. *)
Lemma sanitize_not_bytewise :
  sanitizeBranchName (String (byte_of 255) "")
    = String (byte_of 239) (String (byte_of 191) (String (byte_of 189) ""))
  /\ replace_slash (String (byte_of 255) "") = String (byte_of 255) ""
  /\ sanitizeBranchName (String (byte_of 255) "") <> replace_slash (String (byte_of 255) "").
Proof.
  split; [vm_compute; reflexivity|].
  split; [vm_compute; reflexivity|].
  vm_compute. discriminate.
Qed.

(** *** The name computed by [checkout] *)

Lemma replace_slash_id s : has_slash s = false -> replace_slash s = s.
Proof.
  induction s as [|c t IH]; [reflexivity|]. cbn [has_slash]. intros H.
  apply orb_false_iff in H as [Hc Ht]. unfold replace_slash in *. cbn [map_bytes].
  unfold slash_to_dash at 1. rewrite Hc. f_equal. auto.
Qed.

Lemma split_slash_nonempty s : split_slash s <> [].
Proof.
  destruct s as [|c t]; cbn; [discriminate|].
  destruct (Ascii.eqb c "/"); [discriminate|]. destruct (split_slash t); discriminate.
Qed.

Lemma split_slash_no_slash s : Forall (fun e => has_slash e = false) (split_slash s).
Proof.
  induction s as [|c t IH]; cbn [split_slash]; [repeat constructor|].
  destruct (Ascii.eqb c "/") eqn:E; [constructor; [reflexivity|assumption]|].
  destruct (split_slash t) as [|h r]; [repeat constructor; cbn; now rewrite E|].
  inversion IH; subst. constructor; [cbn; now rewrite E|assumption].
Qed.

Lemma last_Forall {A} (P : A -> Prop) l d : Forall P l -> P d -> P (List.last l d).
Proof.
  induction 1 as [|a l Ha Hl IH]; intros Hd; [assumption|].
  cbn. destruct l; [assumption|]. apply IH. assumption.
Qed.

(** Where [Base] returns its argument the argument holds no separator,
    the single separator apart. *)
Lemma Base_fixed x : Base x = x -> x = "/" \/ has_slash x = false.
Proof.
  unfold Base. destruct (String.eqb x "") eqn:E0.
  { apply String.eqb_eq in E0. subst. discriminate. }
  set (e := List.last (split_slash (strip_trailing_slashes x)) "").
  assert (He : has_slash e = false).
  { apply last_Forall; [apply split_slash_no_slash|reflexivity]. }
  destruct (String.eqb e ""); intros H; [left; congruence|right; now rewrite <- H].
Qed.




(** ** Paths *)

Lemma append_cons' c s t : String c s ++ t = String c (s ++ t).
Proof. reflexivity. Qed.

Lemma split_slash_cons_slash t : split_slash (String "/" t) = "" :: split_slash t.
Proof. reflexivity. Qed.

Lemma split_slash_cons_other c t :
  Ascii.eqb c "/" = false ->
  split_slash (String c t) =
    match split_slash t with
    | h :: r => String c h :: r
    | [] => [String c ""]
    end.
Proof. intros H. cbn [split_slash]. now rewrite H. Qed.

(** [strings.Split] undoes [strings.Join]. *)
Lemma split_slash_app a b :
  split_slash (a ++ "/" ++ b) =
    (removelast (split_slash a) ++ [List.last (split_slash a) ""] ++ split_slash b)%list.
Proof.
  induction a as [|c a IH].
  - reflexivity.
  - rewrite append_cons'. cbn [split_slash]. destruct (Ascii.eqb c "/") eqn:E.
    + rewrite IH. pose proof (split_slash_nonempty a).
      destruct (split_slash a) as [|h r] eqn:Ea; [congruence|]. reflexivity.
    + rewrite IH. pose proof (split_slash_nonempty a).
      destruct (split_slash a) as [|h r] eqn:Ea; [congruence|].
      destruct r as [|h' r']; reflexivity.
Qed.

Lemma removelast_last {A} (l : list A) d : l <> [] -> (removelast l ++ [List.last l d])%list = l.
Proof. intros H. symmetry. now apply app_removelast_last. Qed.

Lemma split_slash_append a b :
  split_slash (a ++ "/" ++ b) = (split_slash a ++ split_slash b)%list.
Proof.
  rewrite split_slash_app, app_assoc, removelast_last; [reflexivity|].
  apply split_slash_nonempty.
Qed.

Lemma split_slash_single e : has_slash e = false -> split_slash e = [e].
Proof.
  induction e as [|c e IH]; [reflexivity|]. cbn [has_slash]. intros H.
  apply orb_false_iff in H as [Hc He]. cbn [split_slash]. rewrite Hc, (IH He). reflexivity.
Qed.

Lemma split_join l :
  Forall (fun e => has_slash e = false) l -> l <> [] -> split_slash (join_slash l) = l.
Proof.
  induction 1 as [|e l He Hl IH]; [congruence|]. intros _.
  destruct l as [|e' l']; [now apply split_slash_single|].
  change (join_slash (e :: e' :: l')) with (e ++ "/" ++ join_slash (e' :: l')).
  rewrite split_slash_append, split_slash_single by assumption.
  rewrite IH by discriminate. reflexivity.
Qed.

Lemma String_eqb_refl' s : String.eqb s s = true.
Proof. apply String.eqb_refl. Qed.

Lemma clean_step_proper rooted st e : proper e -> clean_step rooted st e = e :: st.
Proof.
  intros (_ & H1 & H2 & H3). unfold clean_step.
  apply String.eqb_neq in H1, H2, H3. now rewrite H1, H2, H3.
Qed.

Lemma fold_clean_proper rooted l st :
  Forall proper l -> fold_left (clean_step rooted) l st = (rev l ++ st)%list.
Proof.
  intros H. revert st. induction H as [|e l He Hl IH]; intros st; [reflexivity|].
  cbn [fold_left rev]. rewrite clean_step_proper by assumption. rewrite IH.
  now rewrite <- app_assoc.
Qed.

(** At the root the stack of [Clean] holds proper names only. *)
Lemma clean_step_rooted st e :
  has_slash e = false -> Forall proper st -> Forall proper (clean_step true st e).
Proof.
  intros He Hst. unfold clean_step.
  destruct (String.eqb e "") eqn:E1; [assumption|].
  destruct (String.eqb e ".") eqn:E2; [assumption|]. cbn [orb].
  destruct (String.eqb e "..") eqn:E3.
  - destruct st as [|top below]; [constructor|].
    inversion Hst as [|? ? Ht Hb]; subst.
    destruct (String.eqb top "..") eqn:E4; [|assumption].
    apply String.eqb_eq in E4. destruct Ht as (_ & _ & _ & Ht). congruence.
  - constructor; [|assumption].
    apply String.eqb_neq in E1, E2, E3. repeat split; assumption.
Qed.

Lemma fold_clean_rooted l st :
  Forall (fun e => has_slash e = false) l -> Forall proper st ->
  Forall proper (fold_left (clean_step true) l st).
Proof.
  intros H. revert st. induction H as [|e l He Hl IH]; intros st Hst; [assumption|].
  cbn [fold_left]. apply IH. now apply clean_step_rooted.
Qed.

Lemma IsAbs_cons p : IsAbs p = true -> exists t, p = String "/" t.
Proof.
  unfold IsAbs. destruct p as [|c t]; [discriminate|]. cbn [HasPrefix].
  intros H. apply andb_true_iff in H as [H _]. apply Ascii.eqb_eq in H. subst. eauto.
Qed.

Lemma IsAbs_slash t : IsAbs (String "/" t) = true.
Proof. reflexivity. Qed.

Lemma IsAbs_append a b : IsAbs a = true -> IsAbs (a ++ b) = true.
Proof. intros H. apply IsAbs_cons in H as [t ->]. reflexivity. Qed.

Lemma elements_abs_proper p : IsAbs p = true -> Forall proper (elements p).
Proof.
  intros H. unfold elements. rewrite H. apply Forall_rev.
  apply fold_clean_rooted; [apply split_slash_no_slash|constructor].
Qed.

Lemma proper_no_slash l : Forall proper l -> Forall (fun e => has_slash e = false) l.
Proof. intros H. eapply Forall_impl; [exact H|]. now intros e (? & _). Qed.

(** The elements of a rendered key are the key. *)
Lemma elements_key_path l : Forall proper l -> elements (key_path l) = l.
Proof.
  intros H. unfold elements, key_path.
  change (IsAbs ("/" ++ join_slash l)) with true.
  change ("/" ++ join_slash l) with (String "/" (join_slash l)).
  rewrite split_slash_cons_slash. cbn [fold_left]. unfold clean_step at 2. cbn [String.eqb orb].
  destruct l as [|e l'].
  - reflexivity.
  - rewrite split_join by (try discriminate; now apply proper_no_slash).
    rewrite fold_clean_proper by assumption. rewrite app_nil_r. apply rev_involutive.
Qed.

Lemma Clean_abs p : IsAbs p = true -> Clean p = key_path (elements p).
Proof. intros H. unfold Clean. now rewrite H. Qed.

Lemma IsAbs_Clean p : IsAbs p = true -> IsAbs (Clean p) = true.
Proof. intros H. now rewrite Clean_abs. Qed.

Lemma elements_Clean p : IsAbs p = true -> elements (Clean p) = elements p.
Proof.
  intros H. rewrite Clean_abs by assumption. apply elements_key_path.
  now apply elements_abs_proper.
Qed.

Lemma abs_not_empty a : IsAbs a = true -> String.eqb a "" = false.
Proof. intros H. apply IsAbs_cons in H as [t ->]. reflexivity. Qed.

Lemma Join_abs a b : IsAbs a = true -> Join a b = Clean (a ++ "/" ++ b).
Proof. intros H. unfold Join. now rewrite abs_not_empty. Qed.

Lemma IsAbs_Join a b : IsAbs a = true -> IsAbs (Join a b) = true.
Proof. intros H. rewrite Join_abs by assumption. apply IsAbs_Clean. now apply IsAbs_append. Qed.

(** The elements of a joined path: those of the second path processed
    on top of those of the first. *)
Lemma elements_append a b :
  IsAbs a = true ->
  elements (a ++ "/" ++ b) =
    rev (fold_left (clean_step true) (split_slash b) (rev (elements a))).
Proof.
  intros H. unfold elements. rewrite IsAbs_append, H by assumption.
  rewrite split_slash_append, fold_left_app, rev_involutive. reflexivity.
Qed.

Lemma elements_Join a b :
  IsAbs a = true ->
  elements (Join a b) =
    rev (fold_left (clean_step true) (split_slash b) (rev (elements a))).
Proof.
  intros H. rewrite Join_abs, elements_Clean by (assumption || now apply IsAbs_append).
  now apply elements_append.
Qed.

Lemma elements_Join_name a name :
  IsAbs a = true -> proper name -> elements (Join a name) = (elements a ++ [name])%list.
Proof.
  intros H Hn. rewrite elements_Join by assumption.
  rewrite split_slash_single by apply Hn. cbn [fold_left].
  rewrite clean_step_proper by assumption. cbn [rev]. now rewrite rev_involutive.
Qed.

Lemma key_abs w p : IsAbs p = true -> key w p = elements p.
Proof. intros H. unfold key. now rewrite H. Qed.

(** *** [Rel] on absolute paths *)

Lemma key_path_inj k1 k2 :
  Forall proper k1 -> Forall proper k2 -> key_path k1 = key_path k2 -> k1 = k2.
Proof.
  intros H1 H2 E. rewrite <- (elements_key_path k1), <- (elements_key_path k2) by assumption.
  now rewrite E.
Qed.

Lemma proper_join_nonempty e l : proper e -> join_slash (e :: l) <> "".
Proof.
  intros (_ & He & _). destruct e as [|c e]; [congruence|].
  destruct l; cbn; discriminate.
Qed.

Lemma rel_elems_key_path k : Forall proper k -> rel_elems (key_path k) = "" :: k.
Proof.
  intros H. unfold rel_elems, key_path. destruct k as [|e l]; [reflexivity|].
  change ("/" ++ join_slash (e :: l)) with (String "/" (join_slash (e :: l))).
  inversion H as [|? ? He Hl]; subst.
  pose proof (proper_join_nonempty e l He) as Hne.
  destruct (join_slash (e :: l)) as [|c j] eqn:Ej; [congruence|].
  cbn [String.eqb]. rewrite <- Ej.
  change (String "/" (join_slash (e :: l))) with ("" ++ "/" ++ join_slash (e :: l)).
  rewrite split_slash_append, split_join by (try discriminate; now apply proper_no_slash).
  reflexivity.
Qed.

(** What the loop of [Rel] leaves. *)
Lemma rel_strip_spec bs ts :
  exists common,
    bs = (common ++ snd (fst (rel_strip bs ts)))%list
    /\ ts = (common ++ snd (rel_strip bs ts))%list
    /\ (snd (fst (rel_strip bs ts)) = [] \/ snd (rel_strip bs ts) = []
        \/ hd "" (snd (fst (rel_strip bs ts))) <> hd "" (snd (rel_strip bs ts))).
Proof.
  revert ts. induction bs as [|b bs IH]; intros ts.
  - exists []. cbn. auto.
  - destruct ts as [|t ts].
    + exists []. cbn. auto.
    + cbn [rel_strip]. destruct (String.eqb t b) eqn:E.
      * apply String.eqb_eq in E. subst t. destruct (IH ts) as (c & H1 & H2 & H3).
        exists (b :: c). cbn. split; [now f_equal|]. split; [now f_equal|]. exact H3.
      * exists []. cbn. split; [reflexivity|]. split; [reflexivity|].
        right; right. apply String.eqb_neq in E. congruence.
Qed.

Lemma map_const_repeat {A B} (b : B) (l : list A) : map (fun _ => b) l = repeat b (length l).
Proof. induction l; cbn; congruence. Qed.

Lemma Forall_proper_suffix (c l : list string) : Forall proper (c ++ l) -> Forall proper l.
Proof. intros H. apply Forall_app in H. tauto. Qed.

Lemma Rel_abs b t :
  IsAbs b = true -> IsAbs t = true ->
  Rel b t = Ok (rel_result (elements b) (elements t)).
Proof.
  intros Hb Ht. unfold Rel, rel_result.
  rewrite !Clean_abs by assumption.
  pose proof (elements_abs_proper b Hb) as PB.
  pose proof (elements_abs_proper t Ht) as PT.
  set (B := elements b) in *. set (T := elements t) in *.
  destruct (String.eqb (key_path T) (key_path B)) eqn:E.
  { apply String.eqb_eq in E. apply key_path_inj in E; try assumption.
    now rewrite bool_decide_eq_true_2. }
  assert (T <> B) as NE by (intros ->; now rewrite String.eqb_refl in E).
  rewrite bool_decide_eq_false_2 by assumption.
  change (String.eqb (key_path B) ".") with false. cbn match.
  change (IsAbs (key_path B)) with true. change (IsAbs (key_path T)) with true.
  cbn [Bool.eqb negb].
  rewrite !rel_elems_key_path by assumption.
  cbn [rel_strip String.eqb].
  destruct (rel_strip_spec B T) as (c & H1 & H2 & _).
  destruct (rel_strip B T) as [[differ B'] T'] eqn:Es. cbn [fst snd] in *.
  assert (PB' : Forall proper B') by (rewrite H1 in PB; now apply Forall_proper_suffix in PB).
  replace (differ && String.eqb (hd "" B') "..") with false.
  2:{ symmetry. apply andb_false_iff. right. destruct B' as [|x B'']; [reflexivity|].
      inversion PB' as [|? ? (_ & _ & _ & Hx) _]; subst. now apply String.eqb_neq. }
  destruct B' as [|x B'']; [reflexivity|].
  cbn [length repeat]. now rewrite map_const_repeat.
Qed.

(** The path of an entry relative to the directory it lies in is its
    name. *)
Lemma rel_strip_prefix l name : rel_strip l (l ++ [name]) = (false, [], [name]).
Proof. induction l as [|e l IH]; [reflexivity|]. cbn. now rewrite String.eqb_refl. Qed.

Lemma Rel_Join_name d name :
  IsAbs d = true -> proper name -> Rel d (Join d name) = Ok name.
Proof.
  intros Hd Hn. rewrite Rel_abs by (assumption || now apply IsAbs_Join).
  rewrite elements_Join_name by assumption. unfold rel_result.
  rewrite bool_decide_eq_false_2.
  - now rewrite rel_strip_prefix.
  - intros E. apply (f_equal (@length string)) in E. rewrite length_app in E. cbn in E. lia.
Qed.

Lemma upto_last_slash_none e : has_slash e = false -> upto_last_slash e = "".
Proof.
  induction e as [|c e IH]; [reflexivity|]. cbn [has_slash]. intros H.
  apply orb_false_iff in H as [Hc He]. cbn [upto_last_slash]. now rewrite (IH He), Hc.
Qed.

Lemma Dir_name name : proper name -> Dir name = ".".
Proof. intros (H & _). unfold Dir. now rewrite upto_last_slash_none. Qed.

Lemma upto_last_slash_abs t : exists t', upto_last_slash (String "/" t) = String "/" t'.
Proof. cbn [upto_last_slash]. destruct (upto_last_slash t); eauto. Qed.

Lemma IsAbs_Dir p : IsAbs p = true -> IsAbs (Dir p) = true.
Proof.
  intros H. apply IsAbs_cons in H as [t ->]. unfold Dir.
  destruct (upto_last_slash_abs t) as [t' ->]. now apply IsAbs_Clean.
Qed.

(** *** The contract of [Rel] *)

Lemma fold_clean_dotdots n st1 st2 :
  Forall proper st1 -> length st1 = n ->
  fold_left (clean_step true) (repeat ".." n) (st1 ++ st2)%list = st2.
Proof.
  revert st1. induction n as [|n IH]; intros st1 P L.
  - destruct st1; [reflexivity|discriminate].
  - destruct st1 as [|x st1]; [discriminate|]. cbn [repeat fold_left app].
    inversion P as [|? ? (_ & _ & _ & Hx) P']; subst.
    unfold clean_step at 2. cbn [String.eqb orb].
    apply String.eqb_neq in Hx. rewrite Hx. apply IH; [assumption|]. cbn in L. lia.
Qed.

Lemma repeat_no_slash n : Forall (fun e => has_slash e = false) (repeat ".." n).
Proof. induction n; constructor; auto. Qed.

Lemma proper_not_abs e l : proper e -> IsAbs (join_slash (e :: l)) = false.
Proof.
  intros (Hs & He & _). destruct e as [|c e]; [congruence|].
  cbn [has_slash] in Hs. apply orb_false_iff in Hs as [Hc _].
  destruct l; cbn [join_slash]; rewrite ?append_cons'; unfold IsAbs; cbn [HasPrefix];
    now rewrite Hc.
Qed.

(** For absolute paths [Rel] succeeds, its result is a relative path,
    and joining it to the base path gives the cleaned target path. *)
Lemma Rel_contract b t :
  IsAbs b = true -> IsAbs t = true ->
  exists r, Rel b t = Ok r /\ IsAbs r = false /\ Join b r = Clean t.
Proof.
  intros Hb Ht. rewrite Rel_abs by assumption. eexists. split; [reflexivity|].
  pose proof (elements_abs_proper b Hb) as PB.
  pose proof (elements_abs_proper t Ht) as PT.
  rewrite Join_abs, (Clean_abs t), Clean_abs by (assumption || now apply IsAbs_append).
  rewrite elements_append by assumption.
  unfold rel_result.
  set (B := elements b) in *. set (T := elements t) in *.
  destruct (bool_decide (T = B)) eqn:E.
  { apply bool_decide_eq_true_1 in E. split; [reflexivity|]. rewrite E.
    cbn. unfold clean_step. cbn [String.eqb orb]. now rewrite rev_involutive. }
  destruct (rel_strip_spec B T) as (c & H1 & H2 & H3).
  destruct (rel_strip B T) as [[differ B'] T'] eqn:Es. cbn [fst snd] in *.
  assert (PT' : Forall proper T') by (rewrite H2 in PT; now apply Forall_proper_suffix in PT).
  assert (PB' : Forall proper B') by (rewrite H1 in PB; now apply Forall_proper_suffix in PB).
  assert (PC : Forall proper c) by (rewrite H1 in PB; apply Forall_app in PB; tauto).
  destruct B' as [|x B''].
  - destruct T' as [|y T''].
    { exfalso. apply bool_decide_eq_false_1 in E. apply E. congruence. }
    split; [apply proper_not_abs; now inversion PT'|].
    rewrite split_join by (try discriminate; now apply proper_no_slash).
    rewrite fold_clean_proper by assumption. rewrite rev_app_distr, !rev_involutive.
    f_equal. rewrite H1, H2, app_nil_r. reflexivity.
  - split.
    { cbn [length repeat app]. destruct (repeat ".." (length B'') ++ T')%list; reflexivity. }
    rewrite split_join.
    2:{ apply Forall_app. split; [apply repeat_no_slash|now apply proper_no_slash]. }
    2:{ cbn. discriminate. }
    rewrite fold_left_app. rewrite H1 at 1. rewrite rev_app_distr.
    rewrite fold_clean_dotdots by (try apply Forall_rev; try assumption; now rewrite length_rev).
    rewrite fold_clean_proper by assumption. rewrite rev_app_distr, !rev_involutive.
    now rewrite H2.
Qed.

(** *** Relative paths inside a directory *)

Lemma elements_Join_names d names :
  IsAbs d = true -> Forall proper names -> names <> [] ->
  elements (Join d (join_slash names)) = (elements d ++ names)%list.
Proof.
  intros Hd Hn Hne. rewrite elements_Join by assumption.
  rewrite split_join by (try assumption; now apply proper_no_slash).
  rewrite fold_clean_proper by assumption.
  now rewrite rev_app_distr, !rev_involutive.
Qed.

Lemma rel_strip_app l names : rel_strip l (l ++ names) = (false, [], names).
Proof.
  induction l as [|e l IH]; [now destruct names|]. cbn. now rewrite String.eqb_refl.
Qed.

(** A clean relative path under a directory, taken relative to that
    directory, is the path itself. *)
Lemma Rel_Join_names d names :
  IsAbs d = true -> Forall proper names -> names <> [] ->
  Rel d (Join d (join_slash names)) = Ok (join_slash names).
Proof.
  intros Hd Hn Hne. rewrite Rel_abs by (assumption || now apply IsAbs_Join).
  rewrite elements_Join_names by assumption. unfold rel_result.
  rewrite bool_decide_eq_false_2.
  - now rewrite rel_strip_app.
  - intros E. apply (f_equal (@length string)) in E. rewrite length_app in E.
    destruct names; [congruence|]. cbn in E. lia.
Qed.

Lemma join_names_not_abs names :
  Forall proper names -> names <> [] -> IsAbs (join_slash names) = false.
Proof.
  intros H Hne. destruct names as [|e l]; [congruence|].
  apply proper_not_abs. now inversion H.
Qed.

(** ** The file tree *)

(** *** The monad of commands *)

Lemma bind_ok {A B} (m : M A) (f : A -> M B) w b w' :
  bind m f w = (Ok b, w') -> exists a w1, m w = (Ok a, w1) /\ f a w1 = (Ok b, w').
Proof.
  unfold bind. destruct (m w) as [[a|e] w1]; [eauto|discriminate].
Qed.

Lemma bind_run {A B} (m : M A) (f : A -> M B) w a w1 :
  m w = (Ok a, w1) -> bind m f w = f a w1.
Proof. unfold bind. now intros ->. Qed.

Lemma bind_err {A B} (m : M A) (f : A -> M B) w e w1 :
  m w = (Err e, w1) -> bind m f w = (Err e, w1).
Proof. unfold bind. now intros ->. Qed.

Lemma wrap_ok {A} prefix (m : M A) w a w' :
  wrap prefix m w = (Ok a, w') -> m w = (Ok a, w').
Proof. unfold wrap. destruct (m w) as [[x|e] w1]; [auto|discriminate]. Qed.

Lemma sys_w_ok op path r w u w' :
  sys_w op path r w = (Ok u, w') -> r w = Ok w'.
Proof. unfold sys_w. destruct (r w); [|discriminate]. intros H. congruence. Qed.

Lemma Printf_run line w : Printf line w = (Ok tt, print line w).
Proof. reflexivity. Qed.

Lemma fs_print line w : fs (print line w) = fs w.
Proof. reflexivity. Qed.

Lemma key_print line w p : key (print line w) p = key w p.
Proof. reflexivity. Qed.

Lemma fs_set_fs w m : fs (set_fs w m) = m.
Proof. reflexivity. Qed.

Lemma key_set_fs w m p : key (set_fs w m) p = key w p.
Proof. reflexivity. Qed.

(** *** Prefixes of keys *)

Lemma under_spec pre k : under pre k = true <-> exists r, k = (pre ++ r)%list.
Proof.
  unfold under. rewrite bool_decide_eq_true. split.
  - intros H. exists (drop (length pre) k). now rewrite <- H at 1; rewrite take_drop.
  - intros [r ->]. now rewrite take_app_length.
Qed.

Lemma under_refl k : under k k = true.
Proof. apply under_spec. exists []. now rewrite app_nil_r. Qed.

Lemma under_app pre r : under pre (pre ++ r) = true.
Proof. apply under_spec. eauto. Qed.

Lemma under_trans a b c : under a b = true -> under b c = true -> under a c = true.
Proof.
  rewrite !under_spec. intros [r ->] [r' ->]. exists (r ++ r')%list. now rewrite app_assoc.
Qed.

(** *** Looking up entries *)

Lemma node_at_insert m k v k' :
  k <> [] -> node_at (<[k := v]> m) k' = if decide (k = k') then Some v else node_at m k'.
Proof.
  intros Hk. unfold node_at. destruct k' as [|e k'].
  - destruct (decide (k = [])); [congruence|reflexivity].
  - rewrite lookup_insert. reflexivity.
Qed.

Lemma node_at_mono m m' k n : m ⊆ m' -> node_at m k = Some n -> node_at m' k = Some n.
Proof.
  intros Hs. unfold node_at. destruct k; [auto|]. intros H. eapply lookup_weaken; eauto.
Qed.

(** The keys [check_dirs] looks at are the proper prefixes of the key. *)
Lemma check_dirs_ext m m' pre rest :
  (forall i, (i < length rest)%nat ->
     node_at m (pre ++ take i rest) = node_at m' (pre ++ take i rest)) ->
  check_dirs m pre rest = check_dirs m' pre rest.
Proof.
  revert pre. induction rest as [|e rest IH]; intros pre H; [reflexivity|].
  cbn [check_dirs]. pose proof (H 0%nat ltac:(cbn; lia)) as H0.
  cbn [take] in H0. rewrite app_nil_r in H0. rewrite <- H0.
  destruct (node_at m pre) as [[| |]|]; try reflexivity.
  apply IH. intros i Hi. specialize (H (S i) ltac:(cbn; lia)).
  cbn [take] in H. now rewrite <- app_assoc.
Qed.

Lemma check_dirs_mono m m' pre rest :
  m ⊆ m' -> check_dirs m pre rest = None -> check_dirs m' pre rest = None.
Proof.
  intros Hs. revert pre. induction rest as [|e rest IH]; intros pre; [reflexivity|].
  cbn [check_dirs]. destruct (node_at m pre) as [n|] eqn:E; [|discriminate].
  rewrite (node_at_mono _ _ _ _ Hs E). destruct n; try discriminate. apply IH.
Qed.

Lemma check_dirs_ok_prefix m pre rest i :
  check_dirs m pre rest = None -> (i < length rest)%nat ->
  exists mode, node_at m (pre ++ take i rest) = Some (Directory mode).
Proof.
  revert pre i. induction rest as [|e rest IH]; intros pre i H Hi; [cbn in Hi; lia|].
  cbn [check_dirs] in H. destruct (node_at m pre) as [[| mode |]|] eqn:E; try discriminate.
  destruct i as [|i].
  - cbn [take]. rewrite app_nil_r. eauto.
  - cbn [take]. specialize (IH (pre ++ [e])%list i H ltac:(cbn in Hi; lia)).
    now rewrite <- app_assoc in IH.
Qed.

Lemma lstat_key_mono m m' k n :
  m ⊆ m' -> lstat_key m k = Ok n -> lstat_key m' k = Ok n.
Proof.
  intros Hs. unfold lstat_key.
  destruct (check_dirs m [] k) eqn:E; [discriminate|].
  rewrite (check_dirs_mono _ _ _ _ Hs E).
  destruct (node_at m k) eqn:En; [|discriminate].
  now rewrite (node_at_mono _ _ _ _ Hs En).
Qed.

(** What a path leads to stays what it is when entries are added. *)
Lemma follow_mono fuel m m' k r :
  m ⊆ m' -> follow fuel m k = Ok r -> follow fuel m' k = Ok r.
Proof.
  intros Hs. revert k. induction fuel as [|fuel IH]; intros k; cbn [follow].
  - destruct (lstat_key m k) as [n|] eqn:E; [|discriminate].
    rewrite (lstat_key_mono _ _ _ _ Hs E). auto.
  - destruct (lstat_key m k) as [n|] eqn:E; [|discriminate].
    rewrite (lstat_key_mono _ _ _ _ Hs E). destruct n; auto.
Qed.

Lemma follow_not_link fuel m k q n : follow fuel m k = Ok (q, n) -> is_symlink n = false.
Proof.
  revert k. induction fuel as [|fuel IH]; intros k; cbn [follow];
    destruct (lstat_key m k) as [[| |]|]; try discriminate; eauto;
    intros H; inversion H; reflexivity.
Qed.

Lemma follow_lstat fuel m k q n : follow fuel m k = Ok (q, n) -> lstat_key m q = Ok n.
Proof.
  revert k. induction fuel as [|fuel IH]; intros k; cbn [follow];
    destruct (lstat_key m k) as [[| |]|] eqn:E; try discriminate; eauto;
    intros H; inversion H; subst; assumption.
Qed.

Lemma follow_plain fuel m k n :
  lstat_key m k = Ok n -> is_symlink n = false -> follow fuel m k = Ok (k, n).
Proof. intros H Hn. destruct fuel; cbn [follow]; rewrite H; destruct n; try discriminate; auto. Qed.

Lemma follow_absent fuel m k e : lstat_key m k = Err e -> follow fuel m k = Err e.
Proof. intros H. destruct fuel; cbn [follow]; now rewrite H. Qed.

Lemma lstat_key_node m k n : lstat_key m k = Ok n -> node_at m k = Some n.
Proof.
  unfold lstat_key. destruct (check_dirs m [] k); [discriminate|].
  destruct (node_at m k); [congruence|discriminate].
Qed.

Lemma lstat_key_dirs m k n : lstat_key m k = Ok n -> check_dirs m [] k = None.
Proof. unfold lstat_key. destruct (check_dirs m [] k); [discriminate|reflexivity]. Qed.

Lemma take_lt_neq {A} (k : list A) i : (i < length k)%nat -> take i k <> k.
Proof. intros H E. apply (f_equal (@length A)) in E. rewrite length_take in E. lia. Qed.

(** Writing the entry at a key does not change what lies above it. *)
Lemma check_dirs_insert_self m k v : check_dirs (<[k := v]> m) [] k = check_dirs m [] k.
Proof.
  apply check_dirs_ext. intros i Hi. cbn [app].
  destruct k as [|e k]; [cbn in Hi; lia|].
  rewrite node_at_insert by discriminate.
  destruct (decide (e :: k = take i (e :: k))) as [E|]; [|reflexivity].
  exfalso. symmetry in E. now apply take_lt_neq in E.
Qed.

Lemma lstat_key_insert_self m k v :
  k <> [] -> check_dirs m [] k = None -> lstat_key (<[k := v]> m) k = Ok v.
Proof.
  intros Hk H. unfold lstat_key. rewrite check_dirs_insert_self, H.
  rewrite node_at_insert by assumption. now rewrite decide_True.
Qed.

(** *** Creating directories *)

(** [MkdirAll] only adds directories. *)
Lemma mkdir_all_adds perm m pre rest m' :
  mkdir_all perm m pre rest = Ok m' ->
  m ⊆ m' /\ forall k, m' !! k = m !! k \/ (m !! k = None /\ m' !! k = Some (Directory perm)).
Proof.
  revert m pre. induction rest as [|e rest IH]; intros m pre H; cbn [mkdir_all] in H.
  - inversion H; subst. split; [reflexivity|]. auto.
  - destruct (m !! (pre ++ [e])%list) as [[| |]|] eqn:E.
    + discriminate.
    + now apply IH in H.
    + destruct rest; [|discriminate].
      destruct (follow max_links m (pre ++ [e])) as [[? []]|]; try discriminate.
      inversion H; subst. split; [reflexivity|]. auto.
    + apply IH in H as [Hs Hk]. split.
      * etransitivity; [|exact Hs]. now apply insert_subseteq.
      * intros k. destruct (Hk k) as [Hk'|[Hk1 Hk2]].
        -- rewrite Hk'. rewrite lookup_insert. destruct (decide (pre ++ [e] = k)%list) as [<-|]; auto.
        -- rewrite lookup_insert in Hk1. destruct (decide (pre ++ [e] = k)%list); [discriminate|]. auto.
Qed.

Lemma MkdirAll_adds path perm w w' :
  MkdirAll path perm w = Ok w' ->
  cwd w' = cwd w /\ umask w' = umask w /\ stdout w' = stdout w
  /\ fs w ⊆ fs w'
  /\ forall k, fs w' !! k = fs w !! k
               \/ (fs w !! k = None /\ fs w' !! k = Some (Directory (masked perm w))).
Proof.
  unfold MkdirAll. destruct (mkdir_all _ _ _ _) as [m'|] eqn:E; [|discriminate].
  intros H. inversion H; subst. cbn. apply mkdir_all_adds in E as [? ?]. auto.
Qed.

Lemma key_same_cwd w w' p : cwd w' = cwd w -> key w' p = key w p.
Proof. unfold key. now intros ->. Qed.

(** *** Removing *)

Lemma RemoveAll_lookup path w k :
  fs (RemoveAll path w) !! k = if under (key w path) k then None else fs w !! k.
Proof.
  unfold RemoveAll. rewrite fs_set_fs.
  destruct (under (key w path) k) eqn:U.
  - apply map_lookup_filter_None. right. intros x _. cbn. rewrite U. discriminate.
  - destruct (fs w !! k) as [n|] eqn:E.
    + apply map_lookup_filter_Some. split; [assumption|]. cbn. exact U.
    + apply map_lookup_filter_None. now left.
Qed.

Lemma RemoveAll_frame path w :
  cwd (RemoveAll path w) = cwd w /\ umask (RemoveAll path w) = umask w
  /\ stdout (RemoveAll path w) = stdout w.
Proof. unfold RemoveAll. cbn. auto. Qed.

Lemma node_at_RemoveAll path w k :
  key w path <> [] ->
  node_at (fs (RemoveAll path w)) k = if under (key w path) k then None else node_at (fs w) k.
Proof.
  intros Hk. unfold node_at. destruct k as [|e k].
  - replace (under (key w path) []) with false; [reflexivity|].
    symmetry. apply not_true_is_false. intros U. apply under_spec in U as [r U].
    symmetry in U. apply app_eq_nil in U as [U _]. congruence.
  - apply RemoveAll_lookup.
Qed.

(** An entry that can be reached does not lie at or under a key where
    there is nothing. *)
Lemma reachable_not_under m d q n :
  node_at m d = None -> lstat_key m q = Ok n -> under d q = false.
Proof.
  intros Hd Hq. apply not_true_is_false. intros U. apply under_spec in U as [r ->].
  destruct r as [|e r].
  - rewrite app_nil_r in Hq. apply lstat_key_node in Hq. congruence.
  - apply lstat_key_dirs in Hq.
    destruct (check_dirs_ok_prefix _ _ _ (length d) Hq) as [mode Hm].
    { rewrite length_app. cbn. lia. }
    cbn [app] in Hm. rewrite take_app_length in Hm. congruence.
Qed.

Lemma under_prefix d q i : under d (take i q) = true -> under d q = true.
Proof.
  rewrite !under_spec. intros [r Hr]. exists (r ++ drop i q)%list.
  rewrite app_assoc, <- Hr. now rewrite take_drop.
Qed.

(** Removing what lies under [d] leaves every entry outside it as it
    was. *)
Lemma lstat_key_RemoveAll path w q n :
  key w path <> [] ->
  under (key w path) q = false ->
  lstat_key (fs w) q = Ok n ->
  lstat_key (fs (RemoveAll path w)) q = Ok n.
Proof.
  intros Hk U H. unfold lstat_key in *.
  rewrite (check_dirs_ext _ (fs w)).
  - rewrite node_at_RemoveAll, U by assumption. exact H.
  - intros i Hi. cbn [app]. rewrite node_at_RemoveAll by assumption.
    destruct (under (key w path) (take i q)) eqn:U'; [|reflexivity].
    apply under_prefix in U'. congruence.
Qed.

Lemma follow_RemoveAll fuel path w k r :
  node_at (fs w) (key w path) = None ->
  follow fuel (fs w) k = Ok r ->
  follow fuel (fs (RemoveAll path w)) k = Ok r.
Proof.
  intros Hd. assert (Hk : key w path <> []) by (intros E; rewrite E in Hd; discriminate).
  revert k. induction fuel as [|fuel IH]; intros k; cbn [follow].
  - destruct (lstat_key (fs w) k) as [n|] eqn:E; [|discriminate].
    rewrite (lstat_key_RemoveAll _ _ _ _ Hk (reachable_not_under _ _ _ _ Hd E) E). auto.
  - destruct (lstat_key (fs w) k) as [n|] eqn:E; [|discriminate].
    rewrite (lstat_key_RemoveAll _ _ _ _ Hk (reachable_not_under _ _ _ _ Hd E) E).
    destruct n; auto.
Qed.

(** *** Copying a file *)

Lemma Stat_follow path w n :
  Stat path w = Ok n -> exists k, follow max_links (fs w) (key w path) = Ok (k, n).
Proof.
  unfold Stat. destruct (follow _ _ _) as [[k n']|]; [|discriminate].
  intros H. inversion H; subst. eauto.
Qed.

Lemma set_fs_set_fs w m1 m2 : set_fs (set_fs w m1) m2 = set_fs w m2.
Proof. reflexivity. Qed.

(** [copyFile] to a place where there is no entry: it succeeds exactly
    when the directories above the destination exist, and then the only
    change is the new file, with the content and the mode of the
    source. *)
Lemma copyFile_fresh src dst w data mode :
  Stat src w = Ok (File data mode) ->
  node_at (fs w) (key w dst) = None ->
  check_dirs (fs w) [] (key w dst) = None ->
  copyFile src dst w = (Ok tt, set_fs w (<[key w dst := File data mode]> (fs w))).
Proof.
  intros Hs Hn Hc. unfold copyFile.
  apply Stat_follow in Hs as [ks Hf].
  unfold Open. rewrite Hf.
  unfold Create. unfold max_links at 1. cbn [create_at]. rewrite Hc, Hn.
  set (kd := key w dst) in *.
  assert (Hkd : kd <> []) by (intros E; rewrite E in Hn; discriminate).
  assert (Hks : node_at (fs w) ks = Some (File data mode)).
  { apply follow_lstat in Hf. now apply lstat_key_node. }
  assert (Hne : kd <> ks) by (intros E; rewrite E in Hn; congruence).
  assert (Hnone : fs w !! kd = None).
  { unfold node_at in Hn. destruct kd; [congruence|assumption]. }
  unfold Copy. rewrite fs_set_fs.
  rewrite !node_at_insert by assumption.
  rewrite decide_False by assumption. rewrite Hks. rewrite decide_True by reflexivity.
  rewrite set_fs_set_fs. rewrite insert_insert_eq.
  unfold Stat at 1. rewrite fs_set_fs, key_set_fs.
  rewrite (follow_mono _ (fs w) _ _ _ (insert_subseteq _ _ _ Hnone) Hf).
  cbn [Mode]. unfold Chmod. rewrite fs_set_fs, key_set_fs. fold kd.
  rewrite (follow_plain _ _ kd (File data (masked 438 w))); [|now apply lstat_key_insert_self|reflexivity].
  rewrite set_fs_set_fs, insert_insert_eq. reflexivity.
Qed.

(** When [copyFile] to a place without entry returned no error, the
    directories above the destination were there. *)
Lemma copyFile_fresh_dirs src dst w w' :
  node_at (fs w) (key w dst) = None ->
  copyFile src dst w = (Ok tt, w') ->
  check_dirs (fs w) [] (key w dst) = None.
Proof.
  intros Hn H. unfold copyFile in H.
  destruct (Open src w); [|discriminate].
  unfold Create in H. unfold max_links in H. cbn [create_at] in H.
  destruct (check_dirs (fs w) [] (key w dst)); [discriminate|reflexivity].
Qed.

(** [copyFile] onto a directory fails. *)
Lemma copyFile_onto_dir src dst w mode r :
  node_at (fs w) (key w dst) = Some (Directory mode) ->
  copyFile src dst w = r -> exists e, fst r = Err e.
Proof.
  intros Hn <-. unfold copyFile.
  destruct (Open src w); [|cbn; eauto].
  unfold Create. unfold max_links. cbn [create_at].
  destruct (check_dirs (fs w) [] (key w dst)); [cbn; eauto|].
  rewrite Hn. cbn. eauto.
Qed.

(** ** Restoring persisted files *)

Section Restore.
Variable git : Git.
Variable flags : Flags.

(** C10.  A restore of a single path, run in a worktree whose shared
    directory does not exist, returns the no-persisted-files error, with
    the tree and the output as they were: nothing was looked up under
    the store or the destination, whatever the path and the flags. *)
Theorem restore_single_requires_store (targetPath bareRepoRoot worktreeRoot : string) (w : World) :
  restoreAll flags = false ->
  findRepoRoots git = Ok (bareRepoRoot, worktreeRoot) ->
  Stat (Join bareRepoRoot "shared") w = Err ENOENT ->
  restoreCmd git flags [targetPath] w =
    (Err "no persisted files found. Use 'wtm persist add <file>' to persist files first", w).
Proof.
  intros Hall Hroots Hstat. unfold restoreCmd. cbn [length Nat.ltb Nat.leb Nat.eqb].
  rewrite Hall, Hroots. cbn [andb negb]. now rewrite Hstat.
Qed.

(** The same guard for [--all]. *)
Lemma restore_all_requires_store (bareRepoRoot worktreeRoot : string) (w : World) :
  restoreAll flags = true ->
  findRepoRoots git = Ok (bareRepoRoot, worktreeRoot) ->
  Stat (Join bareRepoRoot "shared") w = Err ENOENT ->
  restoreCmd git flags [] w =
    (Err "no persisted files found. Use 'wtm persist add <file>' to persist files first", w).
Proof.
  intros Hall Hroots Hstat. unfold restoreCmd. cbn [length Nat.ltb Nat.leb Nat.eqb].
  rewrite Hall, Hroots. cbn [andb negb]. now rewrite Hstat.
Qed.

(** Without [--force] an existing destination is an error that names
    it and the flag; nothing is changed. *)
Lemma restoreFile_exists_no_force (targetPath sharedDir worktreeRoot : string) (w : World)
    (sourceInfo destInfo : node) :
  restoreForce flags = false ->
  Stat (Join sharedDir targetPath) w = Ok sourceInfo ->
  Stat (restore_dest flags targetPath worktreeRoot) w = Ok destInfo ->
  restoreFile flags targetPath sharedDir worktreeRoot w =
    (Err ("file already exists: " ++ restore_dest flags targetPath worktreeRoot
          ++ String "010" "Use --force to overwrite"), w).
Proof.
  intros Hf Hs Hd. unfold restoreFile. now rewrite Hs, Hd, Hf.
Qed.

(** What a successful restore went through. *)
Lemma restoreFile_ok_inv (targetPath sharedDir worktreeRoot : string) (w w' : World) :
  restoreFile flags targetPath sharedDir worktreeRoot w = (Ok tt, w') ->
  let sourcePath := Join sharedDir targetPath in
  let destPath := restore_dest flags targetPath worktreeRoot in
  exists sourceInfo w1 w3 line1 line2,
    Stat sourcePath w = Ok sourceInfo
    /\ MkdirAll (Dir destPath) 493 w = Ok w1
    /\ (if restoreLink flags then
          exists relLink,
            Rel (Dir destPath) sourcePath = Ok relLink
            /\ Symlink relLink destPath
                 (if restoreForce flags then RemoveAll destPath (print line1 w1)
                  else print line1 w1) = Ok w3
        else
          (if IsDir sourceInfo then copyDir max_depth sourcePath destPath
           else copyFile sourcePath destPath)
            (if restoreForce flags then RemoveAll destPath (print line1 w1)
             else print line1 w1) = (Ok tt, w3))
    /\ w' = print line2 w3.
Proof.
  unfold restoreFile. intros H. cbn zeta.
  destruct (Stat (Join sharedDir targetPath) w) as [sourceInfo|e] eqn:Hs.
  2:{ destruct e; discriminate. }
  set (destPath := restore_dest flags targetPath worktreeRoot) in *.
  assert (H' : (wrap "error creating parent directories"
           (sys_w "mkdir" (Dir destPath) (MkdirAll (Dir destPath) 493)) ;;;
         Printf ((if restoreLink flags then "Linking" else "Copying") ++ " shared/" ++ targetPath ++ " to " ++
                 match Rel worktreeRoot destPath with Ok r => r | Err _ => "" end ++ "..."
                 ++ String "010" "") ;;;
         (if restoreLink flags then
            (fun w => (Ok tt, if restoreForce flags then RemoveAll destPath w else w)) ;;;
            match Rel (Dir destPath) (Join sharedDir targetPath) with
            | Err e => fail ("error calculating relative link path: " ++ e)
            | Ok relLink =>
              wrap "error creating symlink"
                (sys_w "symlink" (relLink ++ " " ++ destPath) (Symlink relLink destPath))
            end
          else
            (fun w => (Ok tt, if restoreForce flags then RemoveAll destPath w else w)) ;;;
            if IsDir sourceInfo then
              wrap "error copying directory" (copyDir max_depth (Join sharedDir targetPath) destPath)
            else
              wrap "error copying file" (copyFile (Join sharedDir targetPath) destPath)) ;;;
         Printf ("Successfully restored to " ++
                 match Rel worktreeRoot destPath with Ok r => r | Err _ => "" end
                 ++ String "010" "")) w = (Ok tt, w')).
  { destruct (Stat destPath w) as [?|?]; destruct (restoreForce flags); try discriminate; exact H. }
  clear H.
  apply bind_ok in H' as (u1 & w1 & Hm & H').
  apply wrap_ok, sys_w_ok in Hm.
  apply bind_ok in H' as (u2 & w2 & Hp & H'). rewrite Printf_run in Hp.
  match type of Hp with context [print ?X _] => set (line1 := X) in * end.
  inversion Hp; subst u2 w2; clear Hp.
  apply bind_ok in H' as (u3 & w3 & Hbody & H'). rewrite Printf_run in H'.
  match type of H' with context [print ?X _] => set (line2 := X) in * end.
  inversion H'; subst w'; clear H'.
  exists sourceInfo, w1, w3, line1, line2.
  split; [reflexivity|]. split; [exact Hm|]. split; [|reflexivity].
  destruct (restoreLink flags).
  - apply bind_ok in Hbody as (u4 & w4 & Hr & Hbody). inversion Hr; subst u4 w4; clear Hr.
    destruct (Rel (Dir destPath) (Join sharedDir targetPath)) as [relLink|e]; [|discriminate].
    apply wrap_ok, sys_w_ok in Hbody. destruct u3. eauto.
  - apply bind_ok in Hbody as (u4 & w4 & Hr & Hbody). inversion Hr; subst u4 w4; clear Hr.
    destruct u3. destruct (IsDir sourceInfo); apply wrap_ok in Hbody; exact Hbody.
Qed.

Lemma IsAbs_restore_dest targetPath worktreeRoot :
  IsAbs worktreeRoot = true -> IsAbs (restore_dest flags targetPath worktreeRoot) = true.
Proof.
  intros H. unfold restore_dest.
  destruct (String.eqb (restoreTo flags) ""); cbn [negb]; [now apply IsAbs_Join|].
  destruct (IsAbs (restoreTo flags)) eqn:E; cbn [negb]; [assumption|now apply IsAbs_Join].
Qed.

Lemma Clean_Join a b : IsAbs a = true -> Clean (Join a b) = Join a b.
Proof.
  intros H. rewrite (Clean_abs (Join a b)) by now apply IsAbs_Join.
  rewrite Join_abs by assumption.
  rewrite elements_Clean by now apply IsAbs_append.
  symmetry. apply Clean_abs. now apply IsAbs_append.
Qed.


(** *** Copying an entry out of the store *)

Lemma follow_RemoveAll_mono fuel m path w1 k r :
  node_at m (key w1 path) = None ->
  m ⊆ fs w1 ->
  follow fuel m k = Ok r ->
  follow fuel (fs (RemoveAll path w1)) k = Ok r.
Proof.
  intros Hd Hs.
  assert (Hk : key w1 path <> []) by (intros E; rewrite E in Hd; discriminate).
  revert k. induction fuel as [|fuel IH]; intros k; cbn [follow].
  - destruct (lstat_key m k) as [n|] eqn:E; [|discriminate].
    rewrite (lstat_key_RemoveAll _ _ _ n Hk (reachable_not_under _ _ _ _ Hd E)
               (lstat_key_mono _ _ _ _ Hs E)). auto.
  - destruct (lstat_key m k) as [n|] eqn:E; [|discriminate].
    rewrite (lstat_key_RemoveAll _ _ _ n Hk (reachable_not_under _ _ _ _ Hd E)
               (lstat_key_mono _ _ _ _ Hs E)).
    destruct n; auto.
Qed.

(** A copy restore of a regular file to a destination without entry:
    when it returns no error the destination is a regular file with the
    content and the mode of the store entry. *)
Lemma restoreFile_copy_new (targetPath sharedDir worktreeRoot : string) (w w' : World)
    (data : string) (mode : Z) :
  restoreLink flags = false ->
  Stat (Join sharedDir targetPath) w = Ok (File data mode) ->
  no_entry w (restore_dest flags targetPath worktreeRoot) ->
  restoreFile flags targetPath sharedDir worktreeRoot w = (Ok tt, w') ->
  Lstat (restore_dest flags targetPath worktreeRoot) w' = Ok (File data mode).
Proof.
  intros Hl Hsrc Hno H.
  apply restoreFile_ok_inv in H. cbn zeta in H.
  destruct H as (sourceInfo & w1 & w3 & line1 & line2 & Hsrc' & Hmk & Hbody & ->).
  rewrite Hsrc in Hsrc'. inversion Hsrc'; subst sourceInfo; clear Hsrc'.
  rewrite Hl in Hbody. cbn [IsDir] in Hbody.
  set (destPath := restore_dest flags targetPath worktreeRoot) in *.
  set (sourcePath := Join sharedDir targetPath) in *.
  apply MkdirAll_adds in Hmk as (Hcwd & _ & _ & Hsub & Hadd).
  unfold no_entry in Hno.
  assert (Hkd : key w destPath <> []) by (intros E; rewrite E in Hno; discriminate).
  set (w2 := if restoreForce flags then RemoveAll destPath (print line1 w1) else print line1 w1) in *.
  assert (Hkey : forall p, key w2 p = key w p).
  { intros p. unfold w2. destruct (restoreForce flags); apply key_same_cwd; cbn; assumption. }
  apply Stat_follow in Hsrc as [ks Hf].
  assert (Hsrc2 : Stat sourcePath w2 = Ok (File data mode)).
  { unfold Stat. rewrite Hkey. unfold w2. destruct (restoreForce flags).
    - rewrite (follow_RemoveAll_mono _ (fs w) _ _ _ (ks, File data mode)); try assumption.
      + reflexivity.
      + rewrite key_print, (key_same_cwd w w1) by assumption. exact Hno.
    - rewrite fs_print. now rewrite (follow_mono _ _ _ _ _ Hsub Hf). }
  assert (Hno2 : node_at (fs w2) (key w2 destPath) = None
                 \/ exists md, node_at (fs w2) (key w2 destPath) = Some (Directory md)).
  { rewrite Hkey. unfold w2. destruct (restoreForce flags).
    - left. rewrite node_at_RemoveAll; rewrite key_print, (key_same_cwd w w1) by assumption;
        [|assumption]. now rewrite under_refl.
    - rewrite fs_print. unfold node_at in *. destruct (key w destPath) as [|e k]; [congruence|].
      destruct (Hadd (e :: k)) as [E|[_ E]]; rewrite E; eauto. }
  destruct Hno2 as [Hno2|[md Hdir]].
  2:{ destruct (copyFile_onto_dir _ _ _ _ _ Hdir Hbody) as [e He]. discriminate. }
  pose proof (copyFile_fresh_dirs _ _ _ _ Hno2 Hbody) as Hdirs.
  rewrite (copyFile_fresh _ _ _ _ _ Hsrc2 Hno2 Hdirs) in Hbody.
  inversion Hbody; subst w3; clear Hbody.
  unfold Lstat. rewrite fs_print, key_print, fs_set_fs, key_set_fs.
  apply lstat_key_insert_self; [rewrite Hkey|]; assumption.
Qed.

(** *** Persisting a file *)

Lemma copyPath_file src dst w data mode :
  Stat src w = Ok (File data mode) -> copyPath src dst w = copyFile src dst w.
Proof. intros H. unfold copyPath. now rewrite H. Qed.

(** After [persist add] of a regular file at a clean relative path,
    where the store had no entry, the store holds a regular file with
    the same content and mode. *)
Lemma persistAdd_file (names : list string) (bareRepoRoot worktreeRoot : string)
    (w w' : World) (data : string) (mode : Z) :
  findRepoRoots git = Ok (bareRepoRoot, worktreeRoot) ->
  IsAbs worktreeRoot = true ->
  Forall proper names -> names <> [] ->
  Stat (Join worktreeRoot (join_slash names)) w = Ok (File data mode) ->
  no_entry w (Join (Join bareRepoRoot "shared") (join_slash names)) ->
  persistAddCmd git (join_slash names) w = (Ok tt, w') ->
  Lstat (Join (Join bareRepoRoot "shared") (join_slash names)) w' = Ok (File data mode).
Proof.
  intros Hroots Habs Hn Hne Hsrc Hno H.
  unfold persistAddCmd in H. rewrite Hroots in H.
  rewrite (join_names_not_abs _ Hn Hne) in H. rewrite Hsrc in H.
  rewrite Rel_Join_names in H by assumption.
  set (P := join_slash names) in *.
  set (destPath := Join (Join bareRepoRoot "shared") P) in *.
  set (src := Join worktreeRoot P) in *.
  destruct (Stat destPath w) as [?|e0]; [discriminate|].
  apply bind_ok in H as (u1 & w1 & Hm & H). apply wrap_ok, sys_w_ok in Hm.
  apply bind_ok in H as (u2 & w2 & Hp & H). rewrite Printf_run in Hp.
  inversion Hp; subst u2 w2; clear Hp.
  apply bind_ok in H as (u3 & w3 & Hc & H). apply wrap_ok in Hc. destruct u3.
  rewrite Printf_run in H. inversion H; subst w'; clear H.
  apply MkdirAll_adds in Hm as (Hcwd & _ & _ & Hsub & Hadd).
  unfold no_entry in Hno.
  assert (Hkd : key w destPath <> []) by (intros E; rewrite E in Hno; discriminate).
  match type of Hc with copyPath _ _ ?W = _ => set (w2 := W) in * end.
  assert (Hkey : forall p, key w2 p = key w p).
  { intros p. apply key_same_cwd. cbn. assumption. }
  apply Stat_follow in Hsrc as [ks Hf].
  assert (Hsrc2 : Stat src w2 = Ok (File data mode)).
  { unfold Stat. rewrite Hkey. unfold w2. rewrite fs_print.
    now rewrite (follow_mono _ _ _ _ _ Hsub Hf). }
  rewrite (copyPath_file _ _ _ _ _ Hsrc2) in Hc.
  assert (Hno2 : node_at (fs w2) (key w2 destPath) = None
                 \/ exists md, node_at (fs w2) (key w2 destPath) = Some (Directory md)).
  { rewrite Hkey. unfold w2. rewrite fs_print. unfold node_at in *.
    destruct (key w destPath) as [|e k]; [congruence|].
    destruct (Hadd (e :: k)) as [E|[_ E]]; rewrite E; eauto. }
  destruct Hno2 as [Hno2|[md Hdir]].
  2:{ destruct (copyFile_onto_dir _ _ _ _ _ Hdir Hc) as [e He]. discriminate. }
  pose proof (copyFile_fresh_dirs _ _ _ _ Hno2 Hc) as Hdirs.
  rewrite (copyFile_fresh _ _ _ _ _ Hsrc2 Hno2 Hdirs) in Hc.
  inversion Hc; subst w3; clear Hc.
  unfold Lstat. rewrite fs_print, key_print, fs_set_fs, key_set_fs.
  apply lstat_key_insert_self; [rewrite Hkey|]; assumption.
Qed.

Lemma Lstat_Stat path w n : Lstat path w = Ok n -> is_symlink n = false -> Stat path w = Ok n.
Proof.
  unfold Lstat, Stat. intros H Hn. now rewrite (follow_plain _ _ _ _ H Hn).
Qed.

(** C3.  Round trip: a regular file with content [data] and mode bits
    [mode] at the clean relative path [P] of a worktree is persisted
    with [persist add P] (the store had no entry for [P]) and then
    restored in copy mode, without [--to], into a worktree where there
    is no entry at [P]: after the two commands returned without error
    the destination holds a regular file with exactly that content and
    those mode bits. *)
Theorem persist_restore_roundtrip (names : list string) (data : string) (mode : Z)
    (bareRepoRoot worktreeRoot destRoot : string) (w0 w1 w2 : World) :
  findRepoRoots git = Ok (bareRepoRoot, worktreeRoot) ->
  IsAbs worktreeRoot = true ->
  Forall proper names -> names <> [] ->
  Stat (Join worktreeRoot (join_slash names)) w0 = Ok (File data mode) ->
  no_entry w0 (Join (Join bareRepoRoot "shared") (join_slash names)) ->
  persistAddCmd git (join_slash names) w0 = (Ok tt, w1) ->
  restoreLink flags = false ->
  restoreTo flags = "" ->
  no_entry w1 (Join destRoot (join_slash names)) ->
  restoreFile flags (join_slash names) (Join bareRepoRoot "shared") destRoot w1 = (Ok tt, w2) ->
  Lstat (Join destRoot (join_slash names)) w2 = Ok (File data mode).
Proof.
  intros Hroots Habs Hn Hne Hsrc Hno Hadd Hl Hto Hno' Hres.
  pose proof (persistAdd_file _ _ _ _ _ _ _ Hroots Habs Hn Hne Hsrc Hno Hadd) as Hstored.
  apply Lstat_Stat in Hstored; [|reflexivity].
  assert (Hd : restore_dest flags (join_slash names) destRoot = Join destRoot (join_slash names)).
  { unfold restore_dest. now rewrite Hto. }
  rewrite <- Hd in *.
  eapply restoreFile_copy_new; eassumption.
Qed.

End Restore.

(** ** Restoring all entries *)

Lemma walk_eq {S : Type} depth path info (walkFn : WalkFunc S) s w :
  walk depth path info walkFn s w =
    if negb (IsDir info) then walkFn path (Some info) None s w
    else
      let names := readDirNames path w in
      let err := match names with Ok _ => None | Err e => Some e end in
      let '(err1, s1, w1) := walkFn path (Some info) err s w in
      match names, err1 with
      | Ok names, Continue =>
        match depth with
        | O => (Stop (PathError "lstat" path ENAMETOOLONG), s1, w1)
        | S depth' => walk_names (walk depth') path walkFn names s1 w1
        end
      | _, _ => (err1, s1, w1)
      end.
Proof. destruct depth; reflexivity. Qed.

Lemma ReadDir_dir path w mode :
  Lstat path w = Ok (Directory mode) -> exists entries, ReadDir path w = Ok entries.
Proof.
  unfold Lstat, ReadDir. intros H.
  rewrite (follow_plain _ _ _ _ H eq_refl). eauto.
Qed.

Lemma readDirNames_dir path w mode :
  Lstat path w = Ok (Directory mode) -> exists names, readDirNames path w = Ok names.
Proof.
  intros H. apply ReadDir_dir in H as [entries H]. unfold readDirNames. rewrite H. eauto.
Qed.

Lemma Join_name_neq d name : IsAbs d = true -> proper name -> String.eqb (Join d name) d = false.
Proof.
  intros Hd Hn. apply String.eqb_neq. intros E.
  pose proof (elements_Join_name d name Hd Hn) as H. rewrite E in H.
  apply (f_equal (@length string)) in H. rewrite length_app in H. cbn in H. lia.
Qed.

Lemma classic_outcomes (outcomes : list (string * result string unit)) :
  (exists name e, In (name, @Err string unit e) outcomes) \/
  ~ (exists name e, In (name, @Err string unit e) outcomes).
Proof.
  induction outcomes as [|[name r] outcomes IH].
  - right. intros (n & e & []).
  - destruct r as [u|e].
    + destruct IH as [(n & e & Hin)|H]; [left; exists n, e; now right|].
      right. intros (n & e & [Hin|Hin]); [discriminate|]. apply H. eauto.
    + left. exists name, e. now left.
Qed.

Section RestoreAll.
Variable flags : Flags.
Variables sharedDir worktreeRoot : string.
Hypothesis shared_abs : IsAbs sharedDir = true.

(** The function of the walk at a top-level entry: the entry is
    restored under its own name, whatever the outcome the walk goes on,
    and a directory is not entered. *)
Lemma walkFn_entry name info count errors w :
  proper name ->
  restoreAll_walkFn flags sharedDir worktreeRoot (Join sharedDir name) (Some info) None
    (count, errors) w =
  let w1 := print (String "010" "Restoring " ++ name ++ "..." ++ String "010" "") w in
  let '(r, w2) := restoreFile flags name sharedDir worktreeRoot w1 in
  (if IsDir info then SkipDir else Continue,
   match r with
   | Ok _ => (S count, errors)
   | Err e => (count, (errors ++ [("  ❌ " ++ name ++ ": " ++ e)%string])%list)
   end,
   print (report name r) w2).
Proof.
  intros Hn. unfold restoreAll_walkFn.
  rewrite Join_name_neq, Rel_Join_name, Dir_name by assumption.
  cbn [String.eqb negb Ascii.eqb Bool.eqb]. cbn zeta.
  destruct (restoreFile flags name sharedDir worktreeRoot _) as [[u|e] w2]; destruct info; reflexivity.
Qed.

Lemma count_ok_cons name r outcomes :
  count_ok ((name, r) :: outcomes) =
    match r with Ok _ => S (count_ok outcomes) | Err _ => count_ok outcomes end.
Proof. unfold count_ok. cbn. destruct r; reflexivity. Qed.

Lemma failures_cons name r outcomes :
  failures ((name, r) :: outcomes) =
    match r with
    | Ok _ => failures outcomes
    | Err e => ("  ❌ " ++ name ++ ": " ++ e) :: failures outcomes
    end.
Proof. unfold failures. cbn. destruct r; reflexivity. Qed.

(** The walk over the names of the store is the restoration of each
    entry in turn. *)
Lemma walk_names_restore_each depth names count errors w :
  Forall proper names ->
  walk_names (walk depth) sharedDir (restoreAll_walkFn flags sharedDir worktreeRoot)
    names (count, errors) w =
  let '(abort, outcomes, w') := restore_each flags sharedDir worktreeRoot names w in
  (match abort with Some e => Stop e | None => Continue end,
   ((count + count_ok outcomes)%nat, (errors ++ failures outcomes)%list), w').
Proof.
  intros Hn. revert count errors w.
  induction Hn as [|name names Hname Hnames IH]; intros count errors w.
  - cbn. now rewrite Nat.add_0_r, app_nil_r.
  - cbn [walk_names restore_each].
    destruct (Lstat (Join sharedDir name) w) as [fileInfo|e] eqn:El.
    + rewrite walk_eq.
      destruct (IsDir fileInfo) eqn:Ed; cbn [negb].
      * destruct fileInfo as [|mode|]; try discriminate.
        destruct (readDirNames_dir _ _ _ El) as [sub ->]. cbn zeta.
        rewrite walkFn_entry by assumption. cbn zeta.
        destruct (restoreFile flags name sharedDir worktreeRoot _) as [r w2].
        cbn [IsDir]. destruct r; rewrite IH;
        destruct (restore_each flags sharedDir worktreeRoot names _) as [[abort outcomes] w4];
        rewrite count_ok_cons, failures_cons;
        rewrite <- ?app_assoc; cbn [app]; rewrite ?Nat.add_succ_r; reflexivity.
      * rewrite walkFn_entry by assumption. cbn zeta.
        destruct (restoreFile flags name sharedDir worktreeRoot _) as [r w2].
        rewrite Ed. destruct r; rewrite IH;
        destruct (restore_each flags sharedDir worktreeRoot names _) as [[abort outcomes] w4];
        rewrite count_ok_cons, failures_cons;
        rewrite <- ?app_assoc; cbn [app]; rewrite ?Nat.add_succ_r; reflexivity.
    + unfold restoreAll_walkFn at 1. cbn. now rewrite Nat.add_0_r, app_nil_r.
Qed.

Lemma max_depth_S : exists d, max_depth = S d.
Proof. unfold max_depth. eexists. reflexivity. Qed.

Lemma Walk_store names mode w :
  Lstat sharedDir w = Ok (Directory mode) ->
  readDirNames sharedDir w = Ok names ->
  Forall proper names ->
  Walk sharedDir (restoreAll_walkFn flags sharedDir worktreeRoot) (O, []) w =
  let '(abort, outcomes, w') := restore_each flags sharedDir worktreeRoot names w in
  (abort, (count_ok outcomes, failures outcomes), w').
Proof.
  intros Hl Hr Hn. unfold Walk. rewrite Hl. rewrite walk_eq. cbn [IsDir negb].
  rewrite Hr. cbn zeta. unfold restoreAll_walkFn at 1. rewrite String.eqb_refl.
  destruct max_depth_S as [d ->].
  change (walk_names (walk d) sharedDir (restoreAll_walkFn flags sharedDir worktreeRoot) names (0%nat, []) w) with
    (walk_names (walk d) sharedDir (restoreAll_walkFn flags sharedDir worktreeRoot) names (0%nat, []) w).
  rewrite walk_names_restore_each by assumption.
  destruct (restore_each flags sharedDir worktreeRoot names w) as [[abort outcomes] w'].
  cbn [Nat.add app]. destruct abort; reflexivity.
Qed.

Lemma restore_each_prefix names w :
  let '(abort, outcomes, _) := restore_each flags sharedDir worktreeRoot names w in
  exists rest,
    names = (map fst outcomes ++ rest)%list
    /\ (abort = None -> rest = [])
    /\ (forall e, abort = Some e ->
         exists name rest' errno,
           rest = name :: rest' /\ e = PathError "lstat" (Join sharedDir name) errno).
Proof.
  revert w. induction names as [|name names IH]; intros w; cbn [restore_each].
  - exists []. split; [reflexivity|]. split; [reflexivity|discriminate].
  - destruct (Lstat (Join sharedDir name) w) as [info|e].
    + destruct (restoreFile flags name sharedDir worktreeRoot _) as [r w2].
      specialize (IH (print (report name r) w2)).
      destruct (restore_each flags sharedDir worktreeRoot names _) as [[abort outcomes] w4].
      destruct IH as (rest & E & Hrest). exists rest. split; [|exact Hrest].
      cbn [map fst app]. now rewrite <- E.
    + exists (name :: names). split; [reflexivity|]. split; [discriminate|].
      intros e' He. inversion He. eauto.
Qed.

Lemma failures_nil outcomes :
  failures outcomes = [] <-> ~ exists name e, In (name, @Err string unit e) outcomes.
Proof.
  induction outcomes as [|[name r] outcomes IH].
  - split; [intros _ (n & e & [])|reflexivity].
  - rewrite failures_cons. destruct r as [u|e].
    + rewrite IH. split; intros H (n & e & Hin); apply H; exists n, e.
      * destruct Hin as [Hin|Hin]; [discriminate|exact Hin].
      * right. exact Hin.
    + split; [discriminate|]. intros H. exfalso. apply H. exists name, e. now left.
Qed.

Lemma fs_fold_print errors w :
  fs (fold_left (fun w errMsg => print (errMsg ++ String "010" "") w) errors w) = fs w.
Proof. revert w. induction errors as [|x l IH]; intros w; [reflexivity|]. cbn [fold_left]. now rewrite IH. Qed.

Lemma stdout_fold_print errors w :
  stdout (fold_left (fun w errMsg => print (errMsg ++ String "010" "") w) errors w)
  = (stdout w ++ map (fun errMsg => (errMsg ++ String "010" "")%string) errors)%list.
Proof.
  revert w. induction errors as [|x l IH]; intros w; cbn [fold_left map].
  - now rewrite app_nil_r.
  - rewrite IH. cbn [print stdout]. now rewrite <- app_assoc.
Qed.


End RestoreAll.

(** ** switch *)

Section Switch.
Variable git : Git.

Lemma wrap_run {A} prefix (m : M A) w :
  wrap prefix m w =
    match fst (m w) with
    | Ok a => (Ok a, snd (m w))
    | Err e => (Err (prefix ++ ": " ++ e), snd (m w))
    end.
Proof. unfold wrap. destruct (m w) as [[a|e] w']; reflexivity. Qed.

(** The three ways [moveWorktree] returns. *)
Lemma moveWorktree_cases source destination bareRepoRoot w :
  let r := fst (moveWorktree git source destination bareRepoRoot w) in
  let w' := snd (moveWorktree git source destination bareRepoRoot w) in
  r = Ok tt
  \/ (exists e, r = Err ("failed to move directory: " ++ e) /\ fs w' = fs w)
  \/ (exists err, r = Err ("moved directory but failed to repair git metadata: " ++ err)
                  /\ moved_unrepaired git source destination w w' err).
Proof.
  cbv zeta. unfold moveWorktree, moved_unrepaired.
  destruct (git_worktree_move git source destination) as [output [e|]] eqn:Em.
  - destruct (Rename source destination _) as [w2|e2] eqn:Er.
    + destruct (git_worktree_repair git) as [err|] eqn:Ep.
      * right; right. exists err. split; [reflexivity|]. split; [reflexivity|].
        exists output, e. split; [reflexivity|exact Er].
      * left. reflexivity.
    + right; left. eexists. split; reflexivity.
  - left. reflexivity.
Qed.

Lemma fs_Chdir path w w' : Chdir path w = Ok w' -> fs w' = fs w.
Proof.
  unfold Chdir. destruct (follow _ _ _) as [[k [| |]]|]; try discriminate.
  intros H. inversion H. reflexivity.
Qed.

(** How the first part of [switch] returns: with the two slots' paths,
    or with an error that leaves the tree as it was, or as it was but
    for the directory [tree/], or in the state flagged by
    [moveWorktree]. *)
Lemma switch_vacate_cases w :
  match fst (switch_vacate git w) with
  | Ok (bareRepoRoot, _, workspacePath, treeDir) =>
    workspacePath = Join bareRepoRoot "workspace" /\ treeDir = Join bareRepoRoot "tree"
  | Err e =>
    fs (snd (switch_vacate git w)) = fs w
    \/ (exists bareRepoRoot wc wm,
          Chdir bareRepoRoot w = Ok wc /\
          MkdirAll (Join bareRepoRoot "tree") 493 wc = Ok wm /\
          fs (snd (switch_vacate git w)) = fs wm)
    \/ (exists source destination w0 err,
          e = "error moving workspace to tree: moved directory but failed to repair git metadata: "
              ++ err /\
          moved_unrepaired git source destination w0 (snd (switch_vacate git w)) err)
  end.
Proof.
  unfold switch_vacate.
  destruct (detectLocation git w) as [[bare loc]|e]; [|left; reflexivity].
  destruct (Chdir bare w) as [wc|e] eqn:Ec; [|left; reflexivity].
  pose proof (fs_Chdir _ _ _ Ec) as Hc.
  destruct (Stat (Join bare "workspace") wc) as [info|e].
  - destruct (getCurrentBranch git (Join bare "workspace")) as [currentBranch|e];
      [|left; exact Hc].
    destruct (MkdirAll (Join bare "tree") 493 wc) as [wm|e] eqn:Em; [|left; exact Hc].
    destruct (String.eqb currentBranch "").
    { right; left. exists bare, wc, wm. repeat split; assumption. }
    destruct (Stat (Join (Join bare "tree") (sanitizeBranchName currentBranch)) wm) as [info'|e].
    { right; left. exists bare, wc, wm. repeat split; assumption. }
    unfold bind, Printf, ret. rewrite !wrap_run.
    match goal with |- context [moveWorktree git ?s ?d ?b ?w0] =>
      pose proof (moveWorktree_cases s d b w0) as Hmv; cbv zeta in Hmv;
      destruct (moveWorktree git s d b w0) as [r w2]
    end.
    cbn [fst snd] in *.
    destruct Hmv as [->|[(e1 & -> & Hfs)|(err & -> & Hflag)]].
    + cbn. split; reflexivity.
    + cbn [fst snd]. right; left. exists bare, wc, wm.
      split; [assumption|]. split; [assumption|exact Hfs].
    + cbn [fst snd]. right; right. do 4 eexists. split; [|exact Hflag].
      reflexivity.
  - destruct (MkdirAll (Join bare "tree") 493 wc) as [wm|e2] eqn:Em; [|left; exact Hc].
    cbn. split; reflexivity.
Qed.

(** What [git worktree add] would answer plays no part in
    [moveWorktree], nor [git worktree move] and [git worktree repair]
    in [createWorktree]. *)
Lemma moveWorktree_add add' source destination bareRepoRoot w :
  moveWorktree (mkGit (git_output git) (git_worktree_move git) add' (git_worktree_repair git))
    source destination bareRepoRoot w
  = moveWorktree git source destination bareRepoRoot w.
Proof. reflexivity. Qed.

Lemma createWorktree_move move' repair' path commitish bareRepoRoot w :
  createWorktree (mkGit (git_output git) move' (git_worktree_add git) repair')
    path commitish bareRepoRoot w
  = createWorktree git path commitish bareRepoRoot w.
Proof. reflexivity. Qed.


(** How the second part of [switch] fails: with the tree as it found
    it, or in the state flagged by [moveWorktree]. *)
Lemma switch_occupy_cases target bareRepoRoot currentLocation workspacePath treeDir w :
  match fst (switch_occupy git target bareRepoRoot currentLocation workspacePath treeDir w) with
  | Ok _ => True
  | Err e =>
    fs (snd (switch_occupy git target bareRepoRoot currentLocation workspacePath treeDir w))
      = fs w
    \/ (exists source destination w0 err prefix,
          e = prefix ++ ": " ++ "moved directory but failed to repair git metadata: " ++ err /\
          moved_unrepaired git source destination w0
            (snd (switch_occupy git target bareRepoRoot currentLocation workspacePath treeDir w))
            err)
  end.
Proof.
  unfold switch_occupy.
  destruct (Stat (Join treeDir (sanitizeBranchName target)) w) as [info|e0].
  - unfold bind, Printf, ret. rewrite !wrap_run.
    match goal with |- context [moveWorktree git ?s ?d ?b ?w0] =>
      pose proof (moveWorktree_cases s d b w0) as Hmv; cbv zeta in Hmv;
      destruct (moveWorktree git s d b w0) as [r w2]
    end.
    cbn [fst snd] in *.
    destruct Hmv as [->|[(e1 & -> & Hfs)|(err & -> & Hflag)]]; cbn [fst snd].
    + destruct (String.eqb currentLocation "workspace"); exact I.
    + left. exact Hfs.
    + right. do 5 eexists. split; [reflexivity|exact Hflag].
  - unfold bind, Printf, ret. rewrite !wrap_run. unfold createWorktree.
    destruct (git_worktree_add git workspacePath target) as [tree|e']; cbn [fst snd].
    + destruct (String.eqb currentLocation "workspace"); exact I.
    + left. reflexivity.
Qed.


End Switch.

(** ** Copying a directory *)

Lemma follow_ok_lstat fuel m k r : follow fuel m k = Ok r -> exists n, lstat_key m k = Ok n.
Proof.
  destruct fuel; cbn [follow]; destruct (lstat_key m k) as [n|e]; try discriminate; eauto.
Qed.

Lemma node_at_snoc m pre e : node_at m (pre ++ [e]) = m !! (pre ++ [e])%list.
Proof. unfold node_at. destruct pre; reflexivity. Qed.

Lemma node_at_lookup m k : k <> [] -> node_at m k = m !! k.
Proof. destruct k; [congruence|reflexivity]. Qed.

(** [MkdirAll] of a directory that is there changes nothing. *)
Lemma mkdir_all_exists perm m pre rest mode :
  check_dirs m pre rest = None ->
  node_at m (pre ++ rest) = Some (Directory mode) ->
  mkdir_all perm m pre rest = Ok m.
Proof.
  revert pre. induction rest as [|e rest IH]; intros pre Hc Hn; [reflexivity|].
  cbn [mkdir_all check_dirs] in *.
  destruct (node_at m pre) as [[| |]|]; try discriminate.
  destruct rest as [|e' rest].
  - rewrite <- node_at_snoc, Hn. reflexivity.
  - assert (H := Hc). cbn [check_dirs] in H.
    rewrite node_at_snoc in H.
    destruct (m !! (pre ++ [e])%list) as [[| |]|]; try discriminate.
    apply IH; [exact Hc|]. now rewrite <- app_assoc.
Qed.

(** [MkdirAll] of a path that is not there, in a directory that is,
    adds one directory. *)
Lemma mkdir_all_fresh perm m pre rest :
  rest <> [] ->
  check_dirs m pre rest = None ->
  m !! (pre ++ rest)%list = None ->
  mkdir_all perm m pre rest = Ok (<[(pre ++ rest)%list := Directory perm]> m).
Proof.
  revert pre. induction rest as [|e rest IH]; intros pre Hne Hc Hn; [congruence|].
  cbn [mkdir_all check_dirs] in *.
  destruct (node_at m pre) as [[| |]|]; try discriminate.
  destruct rest as [|e' rest].
  - rewrite Hn. reflexivity.
  - assert (H := Hc). cbn [check_dirs] in H.
    rewrite node_at_snoc in H.
    destruct (m !! (pre ++ [e])%list) as [[| |]|]; try discriminate.
    rewrite IH; [now rewrite <- app_assoc|discriminate|exact Hc|now rewrite <- app_assoc].
Qed.

Lemma MkdirAll_exists path perm w mode :
  Lstat path w = Ok (Directory mode) -> MkdirAll path perm w = Ok (set_fs w (fs w)).
Proof.
  unfold Lstat, MkdirAll. intros H.
  rewrite (mkdir_all_exists _ _ [] _ mode); [reflexivity| |].
  - eapply lstat_key_dirs; eassumption.
  - eapply lstat_key_node; eassumption.
Qed.

Lemma MkdirAll_fresh path perm w :
  key w path <> [] ->
  check_dirs (fs w) [] (key w path) = None ->
  fs w !! key w path = None ->
  MkdirAll path perm w = Ok (set_fs w (<[key w path := Directory (masked perm w)]> (fs w))).
Proof.
  intros Hne Hc Hn. unfold MkdirAll.
  now rewrite (mkdir_all_fresh _ _ [] _ Hne Hc Hn).
Qed.

(** *** The entries of a directory *)

Lemma insert_name_perm a l : insert_name a l ≡ₚ a :: l.
Proof.
  induction l as [|b l IH]; [reflexivity|]. cbn [insert_name].
  destruct (name_le a b); [reflexivity|].
  rewrite IH. apply perm_swap.
Qed.

Lemma sort_names_perm l : sort_names l ≡ₚ l.
Proof.
  unfold sort_names. induction l as [|a l IH]; [reflexivity|].
  cbn [fold_right]. now rewrite insert_name_perm, IH.
Qed.

Lemma snoc_parts (k' k : list string) name :
  (removelast k' = k /\ k' <> [] /\ List.last k' "" = name) <-> k' = (k ++ [name])%list.
Proof.
  split.
  - intros (H1 & H2 & H3). subst. symmetry. now apply removelast_last.
  - intros ->. rewrite List.removelast_last, last_last. repeat split.
    now destruct k.
Qed.

Lemma child_names_spec m k name :
  name ∈ child_names m k <-> exists n, m !! (k ++ [name])%list = Some n.
Proof.
  unfold child_names. rewrite list_elem_of_omap. split.
  - intros ([k' n] & Hin & Hf). apply elem_of_map_to_list in Hin.
    destruct (bool_decide (removelast k' = k)) eqn:E1; [|discriminate].
    destruct (bool_decide (k' <> [])) eqn:E2; [|discriminate].
    cbn in Hf. assert (Hl : List.last k' "" = name) by congruence. clear Hf.
    apply bool_decide_eq_true in E1, E2.
    assert (Hk : k' = (k ++ [name])%list) by now apply snoc_parts.
    rewrite <- Hk. eauto.
  - intros (n & Hn). exists ((k ++ [name])%list, n). split.
    + now apply elem_of_map_to_list.
    + rewrite List.removelast_last, last_last.
      rewrite !bool_decide_eq_true_2; [reflexivity|now destruct k|reflexivity].
Qed.

Lemma NoDup_omap_inj {A B} (f : A -> option B) (l : list A) :
  NoDup l ->
  (forall x y z, x ∈ l -> y ∈ l -> f x = Some z -> f y = Some z -> x = y) ->
  NoDup (omap f l).
Proof.
  induction 1 as [|x l Hx Hl IH]; intros Hinj; [constructor|].
  cbn [omap list_omap]. destruct (f x) as [z|] eqn:Ez.
  - constructor.
    + rewrite list_elem_of_omap. intros (y & Hy & Hfy).
      assert (x = y) by (eapply Hinj; [left|now right|exact Ez|exact Hfy]).
      subst. contradiction.
    + apply IH. intros; eapply Hinj; try eassumption; now right.
  - apply IH. intros; eapply Hinj; try eassumption; now right.
Qed.

Lemma child_names_NoDup m k : NoDup (child_names m k).
Proof.
  unfold child_names. apply NoDup_omap_inj; [apply NoDup_map_to_list|].
  intros [k1 n1] [k2 n2] name H1 H2 Hf1 Hf2.
  apply elem_of_map_to_list in H1, H2.
  destruct (bool_decide (removelast k1 = k)) eqn:E1; [|discriminate].
  destruct (bool_decide (k1 <> [])) eqn:E1'; [|discriminate].
  destruct (bool_decide (removelast k2 = k)) eqn:E2; [|discriminate].
  destruct (bool_decide (k2 <> [])) eqn:E2'; [|discriminate].
  cbn in Hf1, Hf2.
  assert (Hl1 : List.last k1 "" = name) by congruence.
  assert (Hl2 : List.last k2 "" = name) by congruence. clear Hf1 Hf2.
  apply bool_decide_eq_true in E1, E1', E2, E2'.
  assert (k1 = (k ++ [name])%list) by now apply snoc_parts.
  assert (k2 = (k ++ [name])%list) by now apply snoc_parts.
  subst k1 k2. f_equal. congruence.
Qed.

(** The entries [ReadDir] returns for a directory: one for each name
    in it, none twice. *)
Lemma ReadDir_entries path w mode :
  Lstat path w = Ok (Directory mode) ->
  exists entries,
    ReadDir path w = Ok entries
    /\ NoDup (map fst entries)
    /\ forall name n, (name, n) ∈ entries <-> fs w !! (key w path ++ [name])%list = Some n.
Proof.
  unfold Lstat, ReadDir. intros H. rewrite (follow_plain _ _ _ _ H eq_refl).
  eexists. split; [reflexivity|].
  set (k := key w path). set (names := sort_names (child_names (fs w) k)).
  assert (Hnames : forall name, name ∈ names <-> exists n, fs w !! (k ++ [name])%list = Some n).
  { intros name. unfold names. rewrite sort_names_perm. apply child_names_spec. }
  assert (Hnd : NoDup names).
  { unfold names. rewrite sort_names_perm. apply child_names_NoDup. }
  clearbody names. split.
  - assert (Hall : forall name, name ∈ names -> exists n, fs w !! (k ++ [name])%list = Some n)
      by (intros; now apply Hnames).
    clear Hnames.
    induction Hnd as [|name names Hx Hl IH]; [constructor|].
    cbn [omap list_omap]. destruct (Hall name) as [n Hn]; [left|]. rewrite Hn. cbn [map fst].
    assert (IH' := IH (fun x Hx' => Hall x (list_elem_of_further _ _ _ Hx'))).
    constructor; [|exact IH'].
    intros Hin. apply Hx. clear -Hin.
    apply list_elem_of_fmap in Hin as ([x n'] & -> & Hin).
    apply list_elem_of_omap in Hin as (y & Hy & Hf).
    destruct (fs w !! (k ++ [y])%list); [|discriminate]. inversion Hf; subst. exact Hy.
  - intros name n. rewrite list_elem_of_omap. split.
    + intros (y & Hy & Hf).
      destruct (fs w !! (k ++ [y])%list) as [n'|] eqn:E; [|discriminate].
      inversion Hf; subst. exact E.
    + intros Hn. exists name. split; [apply Hnames; eauto|]. now rewrite Hn.
Qed.

(** *** Keys apart *)

Lemma under_false_app a b r : under a b = false -> under b a = false -> under a (b ++ r) = false.
Proof.
  intros H1 H2. destruct (under a (b ++ r)) eqn:E; [|reflexivity].
  apply under_spec in E as [s E].
  apply app_eq_app in E as [l [[-> ->]|[-> ->]]].
  - now rewrite under_app in H1.
  - now rewrite under_app in H2.
Qed.

Lemma under_app_l a r b : under (a ++ r) b = true -> under a b = true.
Proof. intros H. eapply under_trans; [apply under_app|exact H]. Qed.

Lemma apart_sym a b : apart a b -> apart b a.
Proof. intros [H1 H2]. split; assumption. Qed.

Lemma apart_app a b r s : apart a b -> apart (a ++ r) (b ++ s).
Proof.
  intros [H1 H2]. split.
  - destruct (under (a ++ r) (b ++ s)) eqn:E; [|reflexivity].
    apply under_app_l in E. now rewrite under_false_app in E.
  - destruct (under (b ++ s) (a ++ r)) eqn:E; [|reflexivity].
    apply under_app_l in E. now rewrite under_false_app in E.
Qed.

Lemma apart_nonempty a b : apart a b -> a <> [] /\ b <> [].
Proof.
  intros [H1 H2]. split; intros ->.
  - pose proof (under_app [] b) as H. cbn [app] in H. congruence.
  - pose proof (under_app [] a) as H. cbn [app] in H. congruence.
Qed.

Lemma not_under_snoc k name : under (k ++ [name]) k = false.
Proof.
  destruct (under (k ++ [name]) k) eqn:E; [|reflexivity].
  apply under_spec in E as [s E]. apply (f_equal (@length string)) in E.
  rewrite !length_app in E. cbn in E. lia.
Qed.

Lemma not_under_cons k name r name' :
  name <> name' -> under (k ++ [name]) (k ++ name' :: r) = false.
Proof.
  intros Hne. destruct (under _ _) eqn:E; [|reflexivity].
  apply under_spec in E as [s E]. rewrite <- app_assoc in E.
  apply app_inv_head in E. cbn in E. congruence.
Qed.

(** *** Entries outside what a call writes *)

Lemma lstat_key_frame m m' d k :
  (forall k', under d k' = false -> m' !! k' = m !! k') ->
  under d k = false ->
  lstat_key m' k = lstat_key m k.
Proof.
  intros Hf Hk.
  assert (Hn : forall i, node_at m' (take i k) = node_at m (take i k)).
  { intros i. destruct (take i k) as [|e t] eqn:E; [reflexivity|].
    cbn [node_at]. rewrite <- E. apply Hf.
    destruct (under d (take i k)) eqn:Eu; [|reflexivity].
    apply under_prefix in Eu. congruence. }
  unfold lstat_key.
  rewrite (check_dirs_ext m' m [] k) by (intros i _; apply Hn).
  specialize (Hn (length k)). rewrite firstn_all in Hn. now rewrite Hn.
Qed.

Lemma check_dirs_snoc m pre rest e mode :
  check_dirs m pre rest = None ->
  node_at m (pre ++ rest) = Some (Directory mode) ->
  check_dirs m pre (rest ++ [e]) = None.
Proof.
  revert pre. induction rest as [|x rest IH]; intros pre Hc Hn; cbn [app check_dirs] in *.
  - rewrite app_nil_r in Hn. now rewrite Hn.
  - destruct (node_at m pre) as [[| |]|]; try discriminate.
    apply IH; [exact Hc|]. now rewrite <- app_assoc.
Qed.

Lemma lstat_key_child m k e mode n :
  lstat_key m k = Ok (Directory mode) ->
  m !! (k ++ [e])%list = Some n ->
  lstat_key m (k ++ [e]) = Ok n.
Proof.
  intros Hk Hn. unfold lstat_key.
  rewrite (check_dirs_snoc m [] k e mode);
    [|eapply lstat_key_dirs; eassumption|eapply lstat_key_node; eassumption].
  now rewrite node_at_snoc, Hn.
Qed.

Lemma lstat_key_child_dirs m k e mode :
  lstat_key m k = Ok (Directory mode) -> check_dirs m [] (k ++ [e]) = None.
Proof.
  intros Hk. eapply check_dirs_snoc; [eapply lstat_key_dirs|eapply lstat_key_node]; eassumption.
Qed.

Lemma key_Join_name w d name :
  IsAbs d = true -> proper name -> key w (Join d name) = (elements d ++ [name])%list.
Proof.
  intros Hd Hn. rewrite key_abs by now apply IsAbs_Join. now apply elements_Join_name.
Qed.

(** *** The loop of [copyDir] *)

Lemma plain_tree_file m k name data mode r :
  plain_tree m k -> m !! (k ++ [name])%list = Some (File data mode) -> r <> [] ->
  m !! (k ++ name :: r)%list = None.
Proof.
  intros Hp Hf Hr. destruct (m !! (k ++ name :: r)%list) as [n|] eqn:E; [|reflexivity].
  destruct (Hp _ _ E) as (_ & _ & Hdirs).
  destruct (Hdirs 1%nat) as [mode' H]; [destruct r; [congruence|cbn; lia]|].
  cbn [take] in H. rewrite take_0 in H. congruence.
Qed.

Lemma plain_tree_child m m' d k name :
  plain_tree m k ->
  (forall k', under d k' = false -> m' !! k' = m !! k') ->
  (forall r, under d (k ++ r) = false) ->
  plain_tree m' (k ++ [name]).
Proof.
  intros Hp Hf Hu r n Hn.
  rewrite <- app_assoc in Hn. cbn [app] in Hn.
  rewrite Hf in Hn by apply Hu.
  destruct (Hp _ _ Hn) as (Hs & Hpr & Hdirs).
  split; [exact Hs|]. split; [now inversion Hpr|].
  intros i Hi. destruct (Hdirs (S i)) as [mode H]; [cbn; lia|].
  exists mode. rewrite <- app_assoc. cbn [app]. rewrite Hf by apply Hu. exact H.
Qed.

Section CopyEntries.

Variable depth : nat.

(** What a call of [copyDir] one level down does. *)
Hypothesis copyDir_depth :
  forall src dst w mode,
    IsAbs src = true -> IsAbs dst = true ->
    lstat_key (fs w) (elements src) = Ok (Directory mode) ->
    plain_tree (fs w) (elements src) ->
    shallower depth (fs w) (elements src) ->
    apart (elements src) (elements dst) ->
    check_dirs (fs w) [] (elements dst) = None ->
    (forall r, fs w !! (elements dst ++ r)%list = None) ->
    exists w',
      copyDir depth src dst w = (Ok tt, w')
      /\ umask w' = umask w /\ stdout w' = stdout w /\ cwd w' = cwd w
      /\ (forall k, under (elements dst) k = false -> fs w' !! k = fs w !! k)
      /\ (forall r, fs w' !! (elements dst ++ r)%list
                    = copy_node (umask w) <$> fs w !! (elements src ++ r)%list).

Variables src dst : string.
Variable w0 : World.
Variable mode0 : Z.
Hypothesis src_abs : IsAbs src = true.
Hypothesis dst_abs : IsAbs dst = true.
Hypothesis src_dir : lstat_key (fs w0) (elements src) = Ok (Directory mode0).
Hypothesis src_plain : plain_tree (fs w0) (elements src).
Hypothesis src_depth : shallower (S depth) (fs w0) (elements src).
Hypothesis src_dst_apart : apart (elements src) (elements dst).

(** The state of the loop: [done] are the names copied so far. *)
Let copied (done : list string) (p : Z) (wc : World) : Prop :=
  umask wc = umask w0 /\ stdout wc = stdout w0 /\ cwd wc = cwd w0
  /\ (forall k, under (elements dst) k = false -> fs wc !! k = fs w0 !! k)
  /\ lstat_key (fs wc) (elements dst) = Ok (Directory p)
  /\ (forall name r,
        fs wc !! (elements dst ++ name :: r)%list
        = if decide (name ∈ done)
          then copy_node (umask w0) <$> fs w0 !! (elements src ++ name :: r)%list
          else None).

Lemma src_not_under_dst r : under (elements dst) (elements src ++ r) = false.
Proof. destruct src_dst_apart. now apply under_false_app. Qed.

Lemma copy_entries_correct entries :
  forall done p wc,
    NoDup (map fst entries) ->
    (forall name, name ∈ map fst entries -> name ∉ done) ->
    (forall name n, (name, n) ∈ entries -> fs w0 !! (elements src ++ [name])%list = Some n) ->
    copied done p wc ->
    exists w',
      copy_entries (copyDir depth) src dst entries wc = (Ok tt, w')
      /\ copied (done ++ map fst entries) p w'.
Proof.
  induction entries as [|[name n] rest IH]; intros done p wc Hnd Hfresh Hin Hc.
  - exists wc. split; [reflexivity|]. cbn [map]. now rewrite app_nil_r.
  - cbn [map fst] in Hnd, Hfresh. apply NoDup_cons in Hnd as [Hname Hnd].
    assert (Hn : fs w0 !! (elements src ++ [name])%list = Some n) by (apply Hin; left).
    assert (Hnew : name ∉ done) by (apply Hfresh; left).
    destruct (src_plain _ _ Hn) as (Hsym & Hprop & _).
    assert (Hpn : proper name) by now inversion Hprop.
    destruct Hc as (Hu & Hout & Hcwd & Hframe & Hdst & Hcont).
    assert (Hsrc_wc : lstat_key (fs wc) (elements src ++ [name]) = Ok n).
    { rewrite (lstat_key_frame (fs w0) (fs wc) (elements dst)); [|exact Hframe|apply src_not_under_dst].
      eapply lstat_key_child; eassumption. }
    assert (Hrest : forall name', name' ∈ map fst rest -> name' ∉ (done ++ [name])%list).
    { intros name' Hin' Hd. apply elem_of_app in Hd as [Hd|Hd].
      - eapply Hfresh; [right; exact Hin'|exact Hd].
      - apply list_elem_of_singleton in Hd. subst. contradiction. }
    assert (Hin_rest : forall name' n', (name', n') ∈ rest ->
                         fs w0 !! (elements src ++ [name'])%list = Some n')
      by (intros; apply Hin; now right).
    assert (Hfinish : forall w1, copied (done ++ [name]) p w1 ->
              exists w', copy_entries (copyDir depth) src dst rest w1 = (Ok tt, w')
                         /\ copied (done ++ map fst ((name, n) :: rest)) p w').
    { intros w1 Hc1. destruct (IH (done ++ [name])%list p w1 Hnd Hrest Hin_rest Hc1) as (w' & Hrun & Hc').
      exists w'. split; [exact Hrun|]. cbn [map fst].
      now rewrite <- app_assoc in Hc'. }
    cbn [copy_entries]. unfold bind.
    destruct n as [data mode|mode|target]; [| |discriminate]; cbn [IsDir].
    + (* a file *)
      rewrite (copyFile_fresh _ _ _ data mode).
      * rewrite key_Join_name by assumption.
        apply Hfinish. unfold copied. rewrite fs_set_fs.
        split; [exact Hu|]. split; [exact Hout|]. split; [exact Hcwd|]. split; [|split].
        -- intros k Hk. rewrite lookup_insert_ne; [now apply Hframe|].
           intros <-. now rewrite (under_app (elements dst) [name]) in Hk.
        -- eapply lstat_key_mono; [|exact Hdst].
           apply insert_subseteq. specialize (Hcont name []).
           now rewrite decide_False in Hcont by exact Hnew.
        -- intros name' r.
           destruct (decide (name' = name /\ r = [])) as [[-> ->]|Hne].
           ++ rewrite lookup_insert_eq, decide_True by (apply elem_of_app; right; now left).
              now rewrite Hn.
           ++ rewrite lookup_insert_ne.
              2:{ intros E. apply app_inv_head in E. apply Hne. now inversion E. }
              rewrite Hcont.
              destruct (decide (name' = name)) as [->|Hne'].
              ** rewrite decide_False by exact Hnew.
                 rewrite decide_True by (apply elem_of_app; right; now left).
                 rewrite (plain_tree_file _ _ _ data mode); [reflexivity|assumption..|].
                 intros ->. now apply Hne.
              ** destruct (decide (name' ∈ done)) as [Hd|Hd].
                 --- now rewrite decide_True by (apply elem_of_app; now left).
                 --- rewrite decide_False; [reflexivity|].
                     intros Hd'. apply elem_of_app in Hd' as [Hd'|Hd']; [contradiction|].
                     apply list_elem_of_singleton in Hd'. contradiction.
      * unfold Stat. rewrite key_Join_name by assumption.
        now rewrite (follow_plain _ _ _ _ Hsrc_wc eq_refl).
      * rewrite key_Join_name by assumption. rewrite node_at_snoc.
        specialize (Hcont name []). now rewrite decide_False in Hcont by exact Hnew.
      * rewrite key_Join_name by assumption. eapply lstat_key_child_dirs; eassumption.
    + (* a directory *)
      destruct (copyDir_depth (Join src name) (Join dst name) wc mode) as
        (w1 & Hrun & Hu1 & Hout1 & Hcwd1 & Hframe1 & Hcont1).
      * now apply IsAbs_Join.
      * now apply IsAbs_Join.
      * now rewrite elements_Join_name.
      * rewrite elements_Join_name by assumption.
        eapply plain_tree_child; [exact src_plain|exact Hframe|apply src_not_under_dst].
      * rewrite elements_Join_name by assumption.
        intros r n' Hr. rewrite <- app_assoc in Hr. cbn [app] in Hr.
        rewrite Hframe in Hr by apply src_not_under_dst.
        apply src_depth in Hr. cbn in Hr. lia.
      * rewrite !elements_Join_name by assumption. now apply apart_app.
      * rewrite elements_Join_name by assumption. eapply lstat_key_child_dirs; eassumption.
      * rewrite elements_Join_name by assumption. intros r.
        rewrite <- app_assoc. cbn [app]. rewrite Hcont. now rewrite decide_False by exact Hnew.
      * rewrite Hrun. rewrite !elements_Join_name in * by assumption.
        apply Hfinish. unfold copied.
        split; [congruence|]. split; [congruence|]. split; [congruence|]. split; [|split].
        -- intros k Hk. rewrite Hframe1; [now apply Hframe|].
           destruct (under (elements dst ++ [name]) k) eqn:E; [|reflexivity].
           apply under_app_l in E. congruence.
        -- rewrite (lstat_key_frame (fs wc) (fs w1) (elements dst ++ [name]));
             [exact Hdst|exact Hframe1|apply not_under_snoc].
        -- intros name' r.
           destruct (decide (name' = name)) as [->|Hne'].
           ++ rewrite decide_True by (apply elem_of_app; right; now left).
              specialize (Hcont1 r). rewrite <- !app_assoc in Hcont1. cbn [app] in Hcont1.
              rewrite Hcont1, Hu. now rewrite Hframe by apply src_not_under_dst.
           ++ rewrite Hframe1 by now apply not_under_cons.
              rewrite Hcont.
              destruct (decide (name' ∈ done)) as [Hd|Hd].
              ** now rewrite decide_True by (apply elem_of_app; now left).
              ** rewrite decide_False; [reflexivity|].
                 intros Hd'. apply elem_of_app in Hd' as [Hd'|Hd']; [contradiction|].
                 apply list_elem_of_singleton in Hd'. contradiction.
Qed.

End CopyEntries.

(** *** [copyDir] *)

(** [copyDir src dst] of a tree of directories and regular files at
    [src], to a path [dst] apart from it where there is nothing yet and
    whose parent is a directory: the call succeeds; every entry of the
    tree has its copy at the same relative path under [dst], a file
    with its content and mode bits, a directory with its mode bits less
    the umask; nothing else is under [dst], and nothing outside [dst]
    has changed. *)
Lemma copyDir_correct depth :
  forall src dst w mode,
    IsAbs src = true -> IsAbs dst = true ->
    lstat_key (fs w) (elements src) = Ok (Directory mode) ->
    plain_tree (fs w) (elements src) ->
    shallower depth (fs w) (elements src) ->
    apart (elements src) (elements dst) ->
    check_dirs (fs w) [] (elements dst) = None ->
    (forall r, fs w !! (elements dst ++ r)%list = None) ->
    exists w',
      copyDir depth src dst w = (Ok tt, w')
      /\ umask w' = umask w /\ stdout w' = stdout w /\ cwd w' = cwd w
      /\ (forall k, under (elements dst) k = false -> fs w' !! k = fs w !! k)
      /\ (forall r, fs w' !! (elements dst ++ r)%list
                    = copy_node (umask w) <$> fs w !! (elements src ++ r)%list).
Proof.
  induction depth as [|depth IH]; intros src dst w mode Hs Hd Hdir Hplain Hdepth Hap Hcd Hfree.
  - exfalso. destruct (apart_nonempty _ _ Hap) as [Hks _].
    pose proof (lstat_key_node _ _ _ Hdir) as Hn. rewrite node_at_lookup in Hn by exact Hks.
    specialize (Hdepth [] (Directory mode)). rewrite app_nil_r in Hdepth.
    specialize (Hdepth Hn). cbn in Hdepth. lia.
  - destruct (apart_nonempty _ _ Hap) as [Hks Hkd].
    set (ks := elements src) in *. set (kd := elements dst) in *.
    assert (Hkd_none : fs w !! kd = None) by (specialize (Hfree []); now rewrite app_nil_r in Hfree).
    set (w1 := set_fs w (<[kd := Directory (masked mode w)]> (fs w))).
    assert (Hsub : fs w ⊆ fs w1) by (unfold w1; rewrite fs_set_fs; now apply insert_subseteq).
    assert (Hdir1 : lstat_key (fs w1) ks = Ok (Directory mode))
      by (eapply lstat_key_mono; eassumption).
    destruct (ReadDir_entries src w1 mode) as (entries & Hread & Hnd & Hent).
    { unfold Lstat. rewrite key_abs by exact Hs. exact Hdir1. }
    assert (Hframe1 : forall k, under kd k = false -> fs w1 !! k = fs w !! k).
    { intros k Hk. unfold w1. rewrite fs_set_fs. apply lookup_insert_ne.
      intros <-. now rewrite under_refl in Hk. }
    assert (Hsrc_out : forall r, under kd (ks ++ r) = false)
      by (intros r; destruct Hap; now apply under_false_app).
    destruct (copy_entries_correct depth IH src dst w mode Hs Hd Hdir Hplain Hdepth Hap entries
                [] (masked mode w) w1) as (w' & Hrun & Hc).
    + exact Hnd.
    + intros name _ Hin. inversion Hin.
    + intros name n Hin. apply Hent in Hin. rewrite key_abs in Hin by exact Hs.
      now rewrite Hframe1 in Hin by apply Hsrc_out.
    + split; [reflexivity|]. split; [reflexivity|]. split; [reflexivity|]. split; [|split].
      * exact Hframe1.
      * unfold w1. rewrite fs_set_fs. now apply lstat_key_insert_self.
      * intros name r. rewrite decide_False by (intros Hin; inversion Hin).
        unfold w1. rewrite fs_set_fs. rewrite lookup_insert_ne; [apply Hfree|].
        intros E'. apply (f_equal (@length string)) in E'. rewrite length_app in E'.
        cbn [length] in E'. unfold kd in E'. lia.
    + exists w'. split.
      * cbn [copyDir]. unfold Stat. rewrite key_abs by exact Hs. fold ks.
        rewrite (follow_plain _ _ _ _ Hdir eq_refl). cbn [Mode].
        rewrite MkdirAll_fresh; rewrite ?key_abs by exact Hd; fold kd; try assumption.
        fold w1. rewrite Hread. exact Hrun.
      * destruct Hc as (Hu & Hout & Hcwd & Hframe & Hdst & Hcont).
        split; [exact Hu|]. split; [exact Hout|]. split; [exact Hcwd|]. split; [exact Hframe|].
        intros [|name r].
        -- rewrite !app_nil_r. apply lstat_key_node in Hdst, Hdir.
           rewrite node_at_lookup in Hdst, Hdir by assumption.
           fold ks kd in Hdst, Hdir |- *. now rewrite Hdst, Hdir.
        -- fold ks kd in Hcont |- *. rewrite Hcont. cbn [app].
           destruct (decide (name ∈ map fst entries)) as [Hin|Hnin]; [reflexivity|].
           destruct (fs w !! (ks ++ name :: r)%list) as [n|] eqn:E; [|reflexivity].
           exfalso. apply Hnin.
           assert (exists n0, fs w !! (ks ++ [name])%list = Some n0) as [n0 Hn0].
           { destruct r as [|x r]; [eauto|].
             destruct (Hplain _ _ E) as (_ & _ & Hdirs).
             destruct (Hdirs 1%nat) as [m' H]; [cbn; lia|].
             cbn [take] in H. eauto. }
           apply list_elem_of_fmap. exists (name, n0). split; [reflexivity|].
           apply Hent. rewrite key_abs by exact Hs. fold ks.
           now rewrite Hframe1 by apply Hsrc_out.
Qed.

(** *** The directory of a clean path *)

Lemma upto_last_slash_cons c t :
  upto_last_slash (String c t) =
    match upto_last_slash t with
    | EmptyString => if Ascii.eqb c "/" then String c EmptyString else EmptyString
    | String x r => String c (String x r)
    end.
Proof. cbn [upto_last_slash]. destruct (upto_last_slash t); reflexivity. Qed.

Lemma upto_last_slash_app a e :
  has_slash e = false -> upto_last_slash (a ++ "/" ++ e) = a ++ "/".
Proof.
  intros He. induction a as [|c a IH].
  - rewrite !append_nil_l. change ("/" ++ e) with (String "/" e).
    rewrite upto_last_slash_cons. now rewrite (upto_last_slash_none e He).
  - rewrite (append_cons c a ("/" ++ e)), (append_cons c a "/").
    rewrite upto_last_slash_cons, IH.
    destruct a; reflexivity.
Qed.

Lemma join_slash_snoc k e : k <> [] -> join_slash (k ++ [e]) = join_slash k ++ "/" ++ e.
Proof.
  induction k as [|a k IH]; [congruence|]. intros _.
  destruct k as [|b k]; [reflexivity|].
  change (join_slash ((a :: b :: k) ++ [e])) with (a ++ "/" ++ join_slash ((b :: k) ++ [e])).
  rewrite IH by discriminate.
  change (join_slash (a :: b :: k)) with (a ++ "/" ++ join_slash (b :: k)).
  now rewrite !append_assoc'.
Qed.

Lemma elements_slash a : IsAbs a = true -> elements (a ++ "/") = elements a.
Proof.
  intros Ha. change "/" with ("/" ++ "") at 1.
  rewrite elements_append by exact Ha.
  cbn [split_slash fold_left]. unfold clean_step. cbn [String.eqb orb].
  apply rev_involutive.
Qed.

Lemma elements_Dir k e :
  Forall proper (k ++ [e]) -> elements (Dir (key_path (k ++ [e]))) = k.
Proof.
  intros Hp. apply Forall_app in Hp as [Hk He]. inversion He as [|? ? Hpe _]; subst.
  assert (Hs : has_slash e = false) by apply Hpe.
  unfold Dir, key_path. destruct k as [|a k].
  - cbn [app join_slash]. change ("/" ++ e) with ("" ++ "/" ++ e).
    rewrite upto_last_slash_app by exact Hs. reflexivity.
  - rewrite join_slash_snoc by discriminate.
    rewrite <- append_assoc'. rewrite upto_last_slash_app by exact Hs.
    rewrite elements_Clean by (now apply IsAbs_append).
    rewrite elements_slash by reflexivity.
    now apply (elements_key_path (a :: k)).
Qed.

Lemma Join_key_path a b : IsAbs a = true -> Join a b = key_path (elements (Join a b)).
Proof.
  intros Ha. rewrite <- Clean_abs by now apply IsAbs_Join. symmetry. now apply Clean_Join.
Qed.

Lemma elements_Dir_Join a b :
  IsAbs a = true -> elements (Join a b) <> [] ->
  elements (Dir (Join a b)) = removelast (elements (Join a b)).
Proof.
  intros Ha Hne. rewrite (Join_key_path a b Ha) at 1.
  assert (Hp : Forall proper (elements (Join a b)))
    by (apply elements_abs_proper; now apply IsAbs_Join).
  destruct (elements (Join a b)) as [|x l] using rev_ind; [congruence|].
  rewrite elements_Dir by exact Hp. now rewrite List.removelast_last.
Qed.

(** *** The parent of an entry *)

Lemma check_dirs_app m pre a b :
  check_dirs m pre (a ++ b) = None -> check_dirs m pre a = None.
Proof.
  revert pre. induction a as [|x a IH]; intros pre H; [reflexivity|].
  cbn [app check_dirs] in *. destruct (node_at m pre) as [[| |]|]; try discriminate.
  now apply IH.
Qed.

Lemma lstat_key_parent m k e n :
  lstat_key m (k ++ [e]) = Ok n -> exists mode, lstat_key m k = Ok (Directory mode).
Proof.
  intros H. apply lstat_key_dirs in H.
  destruct (check_dirs_ok_prefix m [] (k ++ [e]) (length k) H) as [mode Hm].
  { rewrite length_app. cbn. lia. }
  cbn [app] in Hm. rewrite take_app_length in Hm.
  exists mode. unfold lstat_key. now rewrite (check_dirs_app _ _ _ _ H), Hm.
Qed.

Lemma set_fs_same w : set_fs w (fs w) = w.
Proof. now destruct w. Qed.

(** [MkdirAll] of the directory of a path that exists changes nothing. *)
Lemma MkdirAll_Dir_exists a b perm w n :
  IsAbs a = true -> elements (Join a b) <> [] ->
  Lstat (Join a b) w = Ok n ->
  MkdirAll (Dir (Join a b)) perm w = Ok w.
Proof.
  intros Ha Hne Hl. unfold Lstat in Hl. rewrite key_abs in Hl by now apply IsAbs_Join.
  assert (Hd := elements_Dir_Join a b Ha Hne).
  destruct (elements (Join a b)) as [|x l] using rev_ind; [congruence|].
  rewrite List.removelast_last in Hd.
  apply lstat_key_parent in Hl as [mode Hl].
  rewrite (MkdirAll_exists _ _ _ mode), set_fs_same; [reflexivity|].
  unfold Lstat. rewrite key_abs by (apply IsAbs_Dir; now apply IsAbs_Join). now rewrite Hd.
Qed.

(** ** Restoring over an existing destination *)

Lemma plain_tree_frame m m' d k :
  plain_tree m k ->
  (forall k', under d k' = false -> m' !! k' = m !! k') ->
  (forall r, under d (k ++ r) = false) ->
  plain_tree m' k.
Proof.
  intros Hp Hf Hu r n Hn. rewrite Hf in Hn by apply Hu.
  destruct (Hp _ _ Hn) as (Hs & Hpr & Hdirs).
  split; [exact Hs|]. split; [exact Hpr|].
  intros i Hi. destruct (Hdirs i Hi) as [mode H].
  exists mode. rewrite Hf by apply Hu. exact H.
Qed.

Lemma shallower_frame depth m m' d k :
  shallower depth m k ->
  (forall k', under d k' = false -> m' !! k' = m !! k') ->
  (forall r, under d (k ++ r) = false) ->
  shallower depth m' k.
Proof. intros Hp Hf Hu r n Hn. rewrite Hf in Hn by apply Hu. eapply Hp; eassumption. Qed.

Lemma plain_tree_leaf m k data mode r :
  plain_tree m k -> m !! k = Some (File data mode) -> r <> [] -> m !! (k ++ r)%list = None.
Proof.
  intros Hp Hf Hr. destruct (m !! (k ++ r)%list) as [n|] eqn:E; [|reflexivity].
  destruct (Hp _ _ E) as (_ & _ & Hdirs).
  destruct (Hdirs 0%nat) as [mode' H]; [destruct r; [congruence|cbn; lia]|].
  rewrite take_0, app_nil_r in H. congruence.
Qed.

Lemma under_take_lt (k : list string) i : (i < length k)%nat -> under k (take i k) = false.
Proof.
  intros Hi. destruct (under k (take i k)) eqn:E; [|reflexivity].
  apply under_spec in E as [r E]. apply (f_equal (@length string)) in E.
  rewrite length_app, length_take in E. lia.
Qed.

Lemma check_dirs_RemoveAll path w :
  key w path <> [] ->
  check_dirs (fs (RemoveAll path w)) [] (key w path) = check_dirs (fs w) [] (key w path).
Proof.
  intros Hne. apply check_dirs_ext. intros i Hi. cbn [app].
  rewrite node_at_RemoveAll by exact Hne. now rewrite under_take_lt.
Qed.

Lemma RemoveAll_under path w r : fs (RemoveAll path w) !! (key w path ++ r)%list = None.
Proof. now rewrite RemoveAll_lookup, under_app. Qed.

Lemma RemoveAll_outside path w k :
  under (key w path) k = false -> fs (RemoveAll path w) !! k = fs w !! k.
Proof. intros H. now rewrite RemoveAll_lookup, H. Qed.

(** What the copy of [restoreFile] does once [RemoveAll] has cleared
    the destination. *)
Lemma copy_after_remove source dest w entry n :
  IsAbs source = true -> IsAbs dest = true ->
  Lstat source w = Ok entry ->
  plain_tree (fs w) (elements source) ->
  shallower max_depth (fs w) (elements source) ->
  apart (elements source) (elements dest) ->
  Lstat dest w = Ok n ->
  exists w3,
    (if IsDir entry then copyDir max_depth source dest else copyFile source dest)
      (RemoveAll dest w) = (Ok tt, w3)
    /\ stdout w3 = stdout w
    /\ (forall k, under (elements dest) k = false -> fs w3 !! k = fs w !! k)
    /\ (forall r, fs w3 !! (elements dest ++ r)%list
                  = copy_node (umask w) <$> fs w !! (elements source ++ r)%list).
Proof.
  intros Hs Hd Hsrc Hplain Hdepth Hap Hdst.
  destruct (apart_nonempty _ _ Hap) as [Hks Hkd].
  unfold Lstat in Hsrc, Hdst. rewrite key_abs in Hsrc, Hdst by assumption.
  set (ks := elements source) in *. set (kd := elements dest) in *.
  set (w2 := RemoveAll dest w).
  assert (Hkey : key w dest = kd) by now apply key_abs.
  assert (Hframe : forall k, under kd k = false -> fs w2 !! k = fs w !! k).
  { intros k Hk. apply RemoveAll_outside. now rewrite Hkey. }
  assert (Hout : forall r, under kd (ks ++ r) = false)
    by (intros r; destruct Hap; now apply under_false_app).
  assert (Hsrc2 : lstat_key (fs w2) ks = Ok entry).
  { rewrite (lstat_key_frame (fs w) (fs w2) kd); [exact Hsrc|exact Hframe|].
    specialize (Hout []). now rewrite app_nil_r in Hout. }
  assert (Hcd : check_dirs (fs w2) [] kd = None).
  { unfold w2. rewrite <- Hkey. rewrite check_dirs_RemoveAll by now rewrite Hkey.
    rewrite Hkey. eapply lstat_key_dirs; eassumption. }
  assert (Hfree : forall r, fs w2 !! (kd ++ r)%list = None).
  { intros r. unfold w2. rewrite <- Hkey. apply RemoveAll_under. }
  destruct (RemoveAll_frame dest w) as (Hcwd2 & Hu2 & Hout2). fold w2 in Hcwd2, Hu2, Hout2.
  assert (Hnode : fs w !! ks = Some entry).
  { apply lstat_key_node in Hsrc. now rewrite node_at_lookup in Hsrc. }
  assert (Hsym : is_symlink entry = false).
  { specialize (Hplain [] entry). rewrite app_nil_r in Hplain. now apply Hplain. }
  destruct entry as [data mode|mode|target]; [| |discriminate]; cbn [IsDir].
  - rewrite (copyFile_fresh _ _ _ data mode).
    + eexists. split; [reflexivity|]. rewrite fs_set_fs.
      assert (Hk2 : key w2 dest = kd) by now apply key_abs.
      rewrite Hk2. split; [exact Hout2|]. split.
      * intros k Hk. rewrite lookup_insert_ne; [now apply Hframe|].
        intros <-. now rewrite under_refl in Hk.
      * intros [|x r].
        -- rewrite !app_nil_r, lookup_insert_eq. fold ks. now rewrite Hnode.
        -- rewrite lookup_insert_ne.
           2:{ intros E. apply (f_equal (@length string)) in E. rewrite length_app in E.
               cbn [length] in E. lia. }
           rewrite Hfree. fold ks.
           now rewrite (plain_tree_leaf _ _ data mode (x :: r) Hplain Hnode).
    + unfold Stat. rewrite key_abs by exact Hs. fold ks.
      now rewrite (follow_plain _ _ _ _ Hsrc2 eq_refl).
    + rewrite key_abs by exact Hd. fold kd. rewrite node_at_lookup by exact Hkd.
      specialize (Hfree []). now rewrite app_nil_r in Hfree.
    + rewrite key_abs by exact Hd. exact Hcd.
  - destruct (copyDir_correct max_depth source dest w2 mode) as
      (w3 & Hrun & Hu3 & Hout3 & Hcwd3 & Hframe3 & Hcont3); try assumption.
    + eapply plain_tree_frame; [exact Hplain|exact Hframe|exact Hout].
    + eapply shallower_frame; [exact Hdepth|exact Hframe|exact Hout].
    + exists w3. split; [exact Hrun|]. split; [congruence|]. split.
      * intros k Hk. rewrite Hframe3 by exact Hk. now apply Hframe.
      * intros r. fold ks kd in Hcont3 |- *. rewrite Hcont3, Hu2. now rewrite Hframe by apply Hout.
Qed.

(** What the link of [restoreFile] does once [RemoveAll] has cleared
    the destination. *)
Lemma symlink_after_remove relLink dest w n :
  IsAbs dest = true -> elements dest <> [] ->
  Lstat dest w = Ok n ->
  exists w3,
    Symlink relLink dest (RemoveAll dest w) = Ok w3
    /\ stdout w3 = stdout w
    /\ (forall k, under (elements dest) k = false -> fs w3 !! k = fs w !! k)
    /\ fs w3 !! elements dest = Some (Link relLink)
    /\ (forall r, r <> [] -> fs w3 !! (elements dest ++ r)%list = None).
Proof.
  intros Hd Hkd Hdst. unfold Lstat in Hdst. rewrite key_abs in Hdst by assumption.
  set (kd := elements dest) in *. set (w2 := RemoveAll dest w).
  assert (Hkey : key w dest = kd) by now apply key_abs.
  assert (Hk2 : key w2 dest = kd) by now apply key_abs.
  assert (Hcd : check_dirs (fs w2) [] kd = None).
  { unfold w2. rewrite <- Hkey. rewrite check_dirs_RemoveAll by now rewrite Hkey.
    rewrite Hkey. eapply lstat_key_dirs; eassumption. }
  assert (Hfree : forall r, fs w2 !! (kd ++ r)%list = None).
  { intros r. unfold w2. rewrite <- Hkey. apply RemoveAll_under. }
  destruct (RemoveAll_frame dest w) as (Hcwd2 & Hu2 & Hout2). fold w2 in Hcwd2, Hu2, Hout2.
  unfold Symlink. rewrite Hk2, Hcd, node_at_lookup by exact Hkd.
  pose proof (Hfree []) as H0. rewrite app_nil_r in H0. rewrite H0.
  eexists. split; [reflexivity|]. rewrite fs_set_fs. split; [exact Hout2|]. split; [|split].
  - intros k Hk. rewrite lookup_insert_ne.
    + apply RemoveAll_outside. now rewrite Hkey.
    + intros <-. now rewrite under_refl in Hk.
  - apply lookup_insert_eq.
  - intros r Hr. rewrite lookup_insert_ne; [apply Hfree|].
    intros E. apply (f_equal (@length string)) in E. rewrite length_app in E.
    destruct r; [congruence|]. cbn [length] in E. lia.
Qed.

Lemma Stat_Lstat path w n : Stat path w = Ok n -> exists n', Lstat path w = Ok n'.
Proof.
  intros H. apply Stat_follow in H as [k H]. unfold Lstat. eapply follow_ok_lstat; eassumption.
Qed.


(** *** The checks *)

Lemma properb_spec e : properb e = true -> proper e.
Proof.
  unfold properb, proper. intros H.
  apply andb_true_iff in H as [H H4]. apply andb_true_iff in H as [H H3].
  apply andb_true_iff in H as [H1 H2].
  apply negb_true_iff in H1, H2, H3, H4.
  split; [exact H1|]. repeat split; intros ->; discriminate.
Qed.

Lemma plain_treeb_spec m k : plain_treeb m k = true -> plain_tree m k.
Proof.
  unfold plain_treeb. intros H r n Hn.
  rewrite forallb_forall in H.
  specialize (H ((k ++ r)%list, n)). cbv beta iota in H.
  rewrite under_app in H.
  assert (Hin : In ((k ++ r)%list, n) (map_to_list m)).
  { apply list_elem_of_In. now apply elem_of_map_to_list. }
  apply H in Hin. clear H.
  apply andb_true_iff in Hin as [H H3]. apply andb_true_iff in H as [H1 H2].
  split; [now apply negb_true_iff in H1|]. split.
  - rewrite drop_app_length in H2. rewrite forallb_forall in H2.
    apply List.Forall_forall. intros e He. apply properb_spec. now apply H2.
  - intros i Hi. rewrite forallb_forall in H3.
    specialize (H3 (length k + i)%nat).
    rewrite take_app_add' in H3 by reflexivity.
    destruct (m !! (k ++ take i r)%list) as [[| |]|]; eauto;
      (assert (false = true); [apply H3|discriminate]);
      apply in_seq; rewrite length_app; lia.
Qed.

Lemma shallowerb_spec depth m k : shallowerb depth m k = true -> shallower depth m k.
Proof.
  unfold shallowerb. intros H r n Hn.
  rewrite forallb_forall in H.
  specialize (H ((k ++ r)%list, n)). cbv beta iota in H.
  rewrite under_app in H.
  assert (Hin : In ((k ++ r)%list, n) (map_to_list m)).
  { apply list_elem_of_In. now apply elem_of_map_to_list. }
  apply H in Hin. apply Nat.ltb_lt in Hin. rewrite length_app in Hin. lia.
Qed.

(** ** The theorems at the example repositories *)

Import Example.

Ltac proper_name := split; [vm_compute; reflexivity | repeat split; discriminate].

Lemma restore_single_requires_store_witness :
  restoreCmd git_workspace (mkFlags true "elsewhere" true false) [".env"] fresh_world =
    (Err "no persisted files found. Use 'wtm persist add <file>' to persist files first",
     fresh_world).
Proof.
  apply (restore_single_requires_store git_workspace (mkFlags true "elsewhere" true false)
           ".env" "/b" "/b/workspace" fresh_world);
    vm_compute; reflexivity.
Defined.


Lemma persist_restore_roundtrip_witness :
  Lstat "/b/tree/dev/f"
    (snd (restoreFile (mkFlags false "" false false) "f" "/b/shared" "/b/tree/dev"
            (snd (persistAddCmd git_workspace "f" fresh_world))))
  = Ok (File "hello" 448).
Proof.
  apply (persist_restore_roundtrip git_workspace (mkFlags false "" false false)
           ["f"] "hello" 448 "/b" "/b/workspace" "/b/tree/dev" fresh_world
           (snd (persistAddCmd git_workspace "f" fresh_world)));
    try (vm_compute; reflexivity).
  - constructor; [proper_name|constructor].
  - discriminate.
Defined.



(** C7 fails on the code where [--to] is given with [--all]: the
    destination [restoreFile] computes is then the same for every
    entry.  In the example store the entry [.env] is restored to
    [/b/workspace/x], the entry [config] fails because that path
    exists, and nothing is restored under the entries' own names.
    Without [--to] the destination is the entry's name under the
    worktree root. *)
Theorem restoreAll_applies_override :
  (forall flags name name' worktreeRoot,
     restoreTo flags <> "" ->
     restore_dest flags name worktreeRoot = restore_dest flags name' worktreeRoot) /\
  (forall flags name worktreeRoot,
     restoreTo flags = "" -> restore_dest flags name worktreeRoot = Join worktreeRoot name) /\
  let r := restoreCmd git_workspace (mkFlags false "x" false true) [] store_world in
  fst r = Err "some files failed to restore" /\
  Lstat "/b/workspace/x" (snd r) = Ok (File "SECRET" 420) /\
  Lstat "/b/workspace/.env" (snd r) = Err ENOENT /\
  Lstat "/b/workspace/config" (snd r) = Err ENOENT /\
  stdout (snd r) =
    [ "Restoring all persisted files..." ++ nl;
      nl ++ "Restoring .env..." ++ nl;
      "Copying shared/.env to x..." ++ nl;
      "Successfully restored to x" ++ nl;
      "  ✓ .env" ++ nl;
      nl ++ "Restoring config..." ++ nl;
      "  ❌ config: file already exists: /b/workspace/x" ++ nl ++ "Use --force to overwrite" ++ nl;
      nl ++ "Restored 1 file(s)" ++ nl;
      nl ++ "Errors encountered:" ++ nl;
      "  ❌ config: file already exists: /b/workspace/x" ++ nl ++ "Use --force to overwrite" ++ nl ].
Proof.
  split; [|split].
  - intros flags name name' worktreeRoot H. unfold restore_dest.
    destruct (String.eqb_spec (restoreTo flags) ""); [contradiction|reflexivity].
  - intros flags name worktreeRoot H. unfold restore_dest. now rewrite H.
  - vm_compute. repeat split.
Qed.





(** ** [formatSize] *)

Lemma wrap64_small z : - 2 ^ 63 <= z < 2 ^ 63 -> wrap64 z = z.
Proof. intros H. unfold wrap64. rewrite Z.mod_small by lia. lia. Qed.

(** The loop on a number of [j + 1] digits to the base 1024: [j]
    iterations. *)
Lemma formatSize_loop_spec j : forall fuel n div exp,
  (j < fuel)%nat ->
  1024 ^ Z.of_nat j <= n < 1024 ^ (Z.of_nat j + 1) ->
  0 < div -> div * 1024 ^ Z.of_nat j < 2 ^ 63 ->
  formatSize_loop fuel n div exp = (div * 1024 ^ Z.of_nat j, (exp + j)%nat).
Proof.
  induction j as [|j IH]; intros fuel n div exp Hf Hn Hd Hw.
  - destruct fuel as [|fuel]; [lia|]. cbn [formatSize_loop].
    change (1024 ^ Z.of_nat 0) with 1 in *. change (1024 ^ (Z.of_nat 0 + 1)) with 1024 in Hn.
    destruct (n >=? 1024) eqn:E; [lia|]. f_equal; [lia|lia].
  - destruct fuel as [|fuel]; [lia|]. cbn [formatSize_loop].
    rewrite Nat2Z.inj_succ in *.
    assert (Hp : 1024 ^ Z.succ (Z.of_nat j) = 1024 * 1024 ^ Z.of_nat j)
      by (rewrite Z.pow_succ_r by lia; reflexivity).
    assert (Hp' : 1024 ^ (Z.succ (Z.of_nat j) + 1) = 1024 * 1024 ^ (Z.of_nat j + 1)).
    { replace (Z.succ (Z.of_nat j) + 1) with (Z.succ (Z.of_nat j + 1)) by lia.
      rewrite Z.pow_succ_r by lia. reflexivity. }
    assert (Hpos : 0 < 1024 ^ Z.of_nat j) by (apply Z.pow_pos_nonneg; lia).
    rewrite Hp in *. rewrite Hp' in Hn.
    destruct (n >=? 1024) eqn:E; [|lia].
    rewrite Z.quot_div_nonneg by lia.
    rewrite wrap64_small by nia.
    rewrite IH.
    + f_equal; [ring|lia].
    + lia.
    + split.
      * apply Z.div_le_lower_bound; lia.
      * apply Z.div_lt_upper_bound; lia.
    + lia.
    + nia.
Qed.

Lemma unit_letter_some k : (k <= 5)%nat -> exists c, unit_letter k = Some c.
Proof.
  intros H. do 6 (destruct k as [|k]; [eexists; reflexivity|]). lia.
Qed.

Lemma formatSize_at k bytes c :
  (k <= 5)%nat ->
  1024 ^ (Z.of_nat k + 1) <= bytes < 1024 ^ (Z.of_nat k + 2) -> bytes < 2 ^ 63 ->
  unit_letter k = Some c ->
  formatSize bytes =
    Some (format_tenths (float64_of_int bytes) (1024 ^ (Z.of_nat k + 1)) ++ " " ++ String c "B").
Proof.
  intros Hk Hb H63 Hc. unfold formatSize.
  assert (Hpos : 0 < 1024 ^ Z.of_nat k) by (apply Z.pow_pos_nonneg; lia).
  assert (Hp1 : 1024 ^ (Z.of_nat k + 1) = 1024 * 1024 ^ Z.of_nat k)
    by (rewrite Z.pow_add_r by lia; change (1024 ^ 1) with 1024; ring).
  assert (Hp2 : 1024 ^ (Z.of_nat k + 2) = 1024 * (1024 * 1024 ^ Z.of_nat k))
    by (rewrite Z.pow_add_r by lia; change (1024 ^ 2) with (1024 * 1024); ring).
  destruct (bytes <? 1024) eqn:E; [lia|].
  rewrite Z.quot_div_nonneg by lia.
  rewrite (formatSize_loop_spec k 64 (bytes / 1024) 1024 0).
  - cbn [Nat.add]. rewrite Hc. now rewrite Hp1.
  - lia.
  - rewrite Hp1. split.
    + apply Z.div_le_lower_bound; lia.
    + apply Z.div_lt_upper_bound; lia.
  - lia.
  - lia.
Qed.

(** The unit of a size of [int64]: the number of its digits to the
    base 1024, less one. *)
Lemma unit_of_size bytes :
  1024 <= bytes < 2 ^ 63 ->
  exists k, (k <= 5)%nat /\ 1024 ^ (Z.of_nat k + 1) <= bytes < 1024 ^ (Z.of_nat k + 2).
Proof.
  intros H.
  destruct (Z_lt_ge_dec bytes (1024 ^ 2)); [exists 0%nat; cbn; lia|].
  destruct (Z_lt_ge_dec bytes (1024 ^ 3)); [exists 1%nat; cbn; lia|].
  destruct (Z_lt_ge_dec bytes (1024 ^ 4)); [exists 2%nat; cbn; lia|].
  destruct (Z_lt_ge_dec bytes (1024 ^ 5)); [exists 3%nat; cbn; lia|].
  destruct (Z_lt_ge_dec bytes (1024 ^ 6)); [exists 4%nat; cbn; lia|].
  exists 5%nat. cbn; lia.
Qed.

Lemma formatSize_some bytes :
  - 2 ^ 63 <= bytes < 2 ^ 63 -> exists s, formatSize bytes = Some s.
Proof.
  intros H. destruct (Z_lt_ge_dec bytes 1024) as [Hs|Hl].
  - unfold formatSize. destruct (bytes <? 1024) eqn:E; [eauto|lia].
  - destruct (unit_of_size bytes) as (k & Hk & Hb); [lia|].
    destruct (unit_letter_some k Hk) as [c Hc].
    rewrite (formatSize_at k bytes c Hk Hb) by (lia || exact Hc). eauto.
Qed.

(** X1.  [formatSize] never panics on an [int64]: the loop ends with
    an exponent of at most 5, [div] does not overflow, and the index
    into ["KMGTPE"] is in range. *)
Theorem formatSize_never_panics bytes :
  - 2 ^ 63 <= bytes < 2 ^ 63 -> exists s, formatSize bytes = Some s.
Proof. apply formatSize_some. Qed.

Lemma formatSize_never_panics_witness :
  exists s, formatSize (2 ^ 63 - 1) = Some s.
Proof. apply formatSize_never_panics. lia. Defined.

(** X2.  A size of [k + 2] digits to the base 1024 ([k] at most 5) is
    printed in the unit of index [k] of [K], [M], [G], [T], [P], [E]:
    as its quotient by [1024 ^ (k + 1)], rounded to one decimal.  A
    size below 1024 is printed in bytes, as it is. *)
Theorem formatSize_unit (k : nat) bytes :
  (k <= 5)%nat ->
  1024 ^ (Z.of_nat k + 1) <= bytes < 1024 ^ (Z.of_nat k + 2) -> bytes < 2 ^ 63 ->
  formatSize bytes =
    Some (format_tenths (float64_of_int bytes) (1024 ^ (Z.of_nat k + 1)) ++ " "
          ++ String (nth k (list_ascii_of_string "KMGTPE") " "%char) "B")
  /\ forall small, small < 1024 -> formatSize small = Some (pretty small ++ " B").
Proof.
  intros Hk Hb H63. split.
  - apply formatSize_at; try assumption.
    do 6 (destruct k as [|k]; [reflexivity|]). lia.
  - intros small Hs. unfold formatSize. destruct (small <? 1024) eqn:E; [reflexivity|lia].
Qed.

Lemma formatSize_unit_witness :
  formatSize 1536 = Some "1.5 KB" /\ formatSize 1073741824 = Some "1.0 GB"
  /\ formatSize 100 = Some "100 B".
Proof.
  destruct (formatSize_unit 0 1536) as [H1 H3]; [lia|cbn; lia|lia|].
  destruct (formatSize_unit 2 1073741824) as [H2 _]; [lia|cbn; lia|lia|].
  split; [rewrite H1; vm_compute; reflexivity|].
  split; [rewrite H2; vm_compute; reflexivity|].
  rewrite H3 by lia. vm_compute. reflexivity.
Defined.

Lemma format_tenths_1024 num den :
  0 < den -> 20479 * den <= 20 * num -> num < 1024 * den ->
  format_tenths num den = "1024.0".
Proof.
  intros Hd Hlo Hhi. unfold format_tenths.
  assert (Hq : 10 * num / den = 10239).
  { symmetry. apply Z.div_unique with (r := 10 * num - den * 10239); lia. }
  assert (Hr : (10 * num) mod den = 10 * num - 10239 * den).
  { pose proof (Z.div_mod (10 * num) den ltac:(lia)) as H. rewrite Hq in H. lia. }
  rewrite Hq, Hr.
  replace ((2 * (10 * num - 10239 * den) >? den)
           || ((2 * (10 * num - 10239 * den) =? den) && Z.odd 10239)) with true.
  - reflexivity.
  - symmetry. apply orb_true_iff.
    destruct (Z.eq_dec (2 * (10 * num - 10239 * den)) den) as [E|E].
    + right. rewrite E, Z.eqb_refl. reflexivity.
    + left. apply Z.gtb_lt. lia.
Qed.

(** X3.  A size below one of the units [M], [G], [T], [P] by at most
    a 20480th of it is not printed in that unit: the quotient by the
    unit below rounds to 1024.0, and it is printed as [1024.0] of the
    unit below. *)
Theorem formatSize_rounds_to_1024 (k : nat) bytes :
  (k <= 3)%nat ->
  20479 * 1024 ^ (Z.of_nat k + 1) <= 20 * bytes -> bytes < 1024 ^ (Z.of_nat k + 2) ->
  formatSize bytes =
    Some ("1024.0 " ++ String (nth k (list_ascii_of_string "KMGTPE") " "%char) "B").
Proof.
  intros Hk Hlo Hhi.
  assert (Hpos : 0 < 1024 ^ (Z.of_nat k + 1)) by (apply Z.pow_pos_nonneg; lia).
  assert (Hp2 : 1024 ^ (Z.of_nat k + 2) = 1024 * 1024 ^ (Z.of_nat k + 1)).
  { replace (Z.of_nat k + 2) with (Z.succ (Z.of_nat k + 1)) by lia.
    rewrite Z.pow_succ_r by lia. reflexivity. }
  assert (Hmax : 1024 ^ (Z.of_nat k + 2) <= 1024 ^ 5)
    by (apply Z.pow_le_mono_r; lia).
  assert (H53 : bytes < 2 ^ 53) by (change (1024 ^ 5) with (2 ^ 50) in Hmax; lia).
  rewrite (formatSize_at k bytes (nth k (list_ascii_of_string "KMGTPE") " "%char)).
  - unfold float64_of_int. rewrite Z.abs_eq by lia.
    destruct (bytes <? 2 ^ 53) eqn:E; [|lia].
    rewrite format_tenths_1024 by lia. reflexivity.
  - lia.
  - lia.
  - lia.
  - do 4 (destruct k as [|k]; [reflexivity|]). lia.
Qed.

Lemma formatSize_rounds_to_1024_witness :
  formatSize 1048575 = Some "1024.0 KB".
Proof. apply (formatSize_rounds_to_1024 0 1048575); cbn; lia. Defined.

(** ** The directory [clone] infers *)

Lemma last_split_slash base x :
  has_slash x = false -> List.last (split_slash (base ++ "/" ++ x)) "" = x.
Proof.
  intros H. rewrite split_slash_append, (split_slash_single x H). apply last_last.
Qed.

Lemma has_slash_take n s : has_slash s = false -> has_slash (take_bytes n s) = false.
Proof.
  revert s. induction n as [|n IH]; intros [|c s] H; try reflexivity.
  cbn [has_slash take_bytes] in *. apply orb_false_iff in H as [Hc Hs].
  now rewrite Hc, IH.
Qed.

Lemma TrimSuffix_append s suffix : TrimSuffix (s ++ suffix) suffix = s.
Proof.
  unfold TrimSuffix, HasSuffix. rewrite length_append.
  replace (String.length s + String.length suffix - String.length suffix)%nat
    with (String.length s) by lia.
  rewrite drop_bytes_append, String.eqb_refl, take_bytes_append.
  replace (String.length suffix <=? String.length s + String.length suffix)%nat with true
    by (symmetry; apply Nat.leb_le; lia).
  reflexivity.
Qed.

(** X4.  The directory [clone] infers from a URL is the text after the
    last separator, less one [.git] at its end: it holds no separator;
    for a URL that ends in [/name.git] it is [name], and [name] itself
    when that does not end in [.git]; where the URL holds no separator
    (as [host:repo.git]) the text before the colon stays in it; and for
    a URL that ends in a separator it is empty. *)
Theorem clone_dir_spec :
  (forall repoURL, has_slash (clone_dir repoURL) = false)
  /\ (forall base name, has_slash name = false -> clone_dir (base ++ "/" ++ name ++ ".git") = name)
  /\ (forall base name, has_slash name = false -> HasSuffix name ".git" = false ->
        clone_dir (base ++ "/" ++ name) = name)
  /\ (forall repoURL, has_slash repoURL = false -> clone_dir repoURL = TrimSuffix repoURL ".git")
  /\ (forall base, clone_dir (base ++ "/") = "").
Proof.
  split; [|split; [|split; [|split]]].
  - intros repoURL. unfold clone_dir.
    assert (H : has_slash (List.last (split_slash repoURL) "") = false)
      by (apply last_Forall; [apply split_slash_no_slash|reflexivity]).
    unfold TrimSuffix. destruct (HasSuffix _ _); [now apply has_slash_take|exact H].
  - intros base name H. unfold clone_dir.
    assert (Hg : has_slash (name ++ ".git") = false).
    { clear base. induction name as [|c name IH]; [reflexivity|].
      rewrite append_cons. cbn [has_slash] in *. apply orb_false_iff in H as [Hc Hn].
      now rewrite Hc, IH. }
    rewrite last_split_slash by exact Hg. apply TrimSuffix_append.
  - intros base name H Hs. unfold clone_dir. rewrite last_split_slash by exact H.
    unfold TrimSuffix. now rewrite Hs.
  - intros repoURL H. unfold clone_dir. now rewrite split_slash_single.
  - intros base. unfold clone_dir. change "/" with ("/" ++ "") at 1.
    now rewrite last_split_slash.
Qed.

(** ** Copying into the store and out of it *)

(** *** Making the way *)

Lemma check_dirs_all m pre rest :
  (forall i, (i < length rest)%nat ->
     exists mode, node_at m (pre ++ take i rest) = Some (Directory mode)) ->
  check_dirs m pre rest = None.
Proof.
  revert pre. induction rest as [|e rest IH]; intros pre H; [reflexivity|].
  cbn [check_dirs]. destruct (H 0%nat) as [mode H0]; [cbn; lia|].
  rewrite take_0, app_nil_r in H0. rewrite H0. apply IH.
  intros i Hi. destruct (H (S i)) as [mode' H']; [cbn; lia|].
  exists mode'. rewrite <- app_assoc. exact H'.
Qed.

Lemma mkdir_all_free perm rest : forall m pre,
  (forall i, (1 <= i <= length rest)%nat ->
     match m !! (pre ++ take i rest)%list with
     | None | Some (Directory _) => True
     | _ => False
     end) ->
  exists m',
    mkdir_all perm m pre rest = Ok m'
    /\ m ⊆ m'
    /\ (forall k, m' !! k = m !! k
                  \/ (m !! k = None /\ m' !! k = Some (Directory perm)
                      /\ exists i, (1 <= i <= length rest)%nat /\ k = (pre ++ take i rest)%list))
    /\ (forall i, (1 <= i <= length rest)%nat ->
          exists mode, m' !! (pre ++ take i rest)%list = Some (Directory mode)).
Proof.
  induction rest as [|e rest IH]; intros m pre H.
  - exists m. split; [reflexivity|]. split; [reflexivity|]. split; [now left|].
    intros i Hi. cbn in Hi. lia.
  - cbn [mkdir_all].
    pose proof (H 1%nat ltac:(cbn; lia)) as H1. cbn [take] in H1. rewrite take_0 in H1.
    assert (Hstep : forall m1 : gmap (list string) node,
              (forall k, k <> (pre ++ [e])%list -> m1 !! k = m !! k) ->
              forall i, (1 <= i <= length rest)%nat ->
                match m1 !! ((pre ++ [e]) ++ take i rest)%list with
                | None | Some (Directory _) => True
                | _ => False
                end).
    { intros m1 Hm1 i Hi. rewrite Hm1.
      - rewrite <- app_assoc. apply (H (S i)). cbn; lia.
      - intros E. apply (f_equal (@length string)) in E.
        rewrite !length_app, length_take in E. cbn [length] in E. lia. }
    assert (Hidx : forall i, (1 <= i <= length rest)%nat ->
              ((pre ++ [e]) ++ take i rest)%list = (pre ++ take (S i) (e :: rest))%list)
      by (intros; now rewrite <- app_assoc).
    destruct (m !! (pre ++ [e])%list) as [[| |]|] eqn:E; try contradiction.
    + destruct (IH m (pre ++ [e])%list (Hstep m (fun _ _ => eq_refl)))
        as (m' & Hrun & Hsub & Hadd & Hdirs).
      exists m'. split; [exact Hrun|]. split; [exact Hsub|]. split.
      * intros k. destruct (Hadd k) as [Hk|(Hk1 & Hk2 & i & Hi & ->)]; [now left|].
        right. split; [exact Hk1|]. split; [exact Hk2|].
        exists (S i). split; [cbn; lia|now apply Hidx].
      * intros [|[|i]] Hi; [lia| |].
        -- cbn [take]. rewrite take_0. exists mode. eapply lookup_weaken; eassumption.
        -- rewrite <- Hidx by (cbn in Hi; lia). apply Hdirs. cbn in Hi; lia.
    + destruct (IH (<[(pre ++ [e])%list := Directory perm]> m) (pre ++ [e])%list)
        as (m' & Hrun & Hsub & Hadd & Hdirs).
      { apply Hstep. intros k Hk. now apply lookup_insert_ne. }
      assert (Hsub0 : m ⊆ <[(pre ++ [e])%list := Directory perm]> m)
        by now apply insert_subseteq.
      exists m'. split; [exact Hrun|]. split; [etransitivity; eassumption|]. split.
      * intros k. destruct (decide (k = (pre ++ [e])%list)) as [->|Hne].
        -- right. split; [exact E|]. split.
           ++ eapply lookup_weaken; [apply lookup_insert_eq|exact Hsub].
           ++ exists 1%nat. split; [cbn; lia|]. cbn [take]. now rewrite take_0.
        -- destruct (Hadd k) as [Hk|(Hk1 & Hk2 & i & Hi & ->)].
           ++ left. rewrite Hk. now apply lookup_insert_ne.
           ++ right. rewrite lookup_insert_ne in Hk1 by congruence.
              split; [exact Hk1|]. split; [exact Hk2|].
              exists (S i). split; [cbn; lia|now apply Hidx].
      * intros [|[|i]] Hi; [lia| |].
        -- cbn [take]. rewrite take_0. exists perm.
           eapply lookup_weaken; [apply lookup_insert_eq|exact Hsub].
        -- rewrite <- Hidx by (cbn in Hi; lia). apply Hdirs. cbn in Hi; lia.
Qed.

Lemma free_way_spec m k i :
  free_way m k = true -> (1 <= i < length k)%nat ->
  match m !! take i k with
  | None | Some (Directory _) => True
  | _ => False
  end.
Proof.
  unfold free_way. rewrite forallb_forall. intros H Hi.
  specialize (H i). cbv beta in H.
  destruct (m !! take i k) as [[| |]|]; try exact I;
    (assert (false = true); [apply H; apply in_seq; lia|discriminate]).
Qed.

(** [MkdirAll] of the directory of [k ++ [e]], the way to which is
    free: it succeeds, adds directories only on the way, and leaves
    every proper prefix of [k ++ [e]] a directory. *)
Lemma MkdirAll_parent path perm w k e :
  key w path = k ->
  free_way (fs w) (k ++ [e]) = true ->
  exists w1,
    MkdirAll path perm w = Ok w1
    /\ cwd w1 = cwd w /\ umask w1 = umask w /\ stdout w1 = stdout w
    /\ fs w ⊆ fs w1
    /\ (forall q, fs w1 !! q = fs w !! q
                  \/ (fs w !! q = None /\ fs w1 !! q = Some (Directory (masked perm w))
                      /\ exists i, (1 <= i <= length k)%nat /\ q = take i k))
    /\ check_dirs (fs w1) [] (k ++ [e]) = None.
Proof.
  intros Hk Hfree. unfold MkdirAll. rewrite Hk.
  destruct (mkdir_all_free (masked perm w) k (fs w) []) as (m' & Hrun & Hsub & Hadd & Hdirs).
  { intros i Hi. cbn [app].
    pose proof (free_way_spec (fs w) (k ++ [e]) i Hfree) as H.
    rewrite take_app_le in H by lia. apply H. rewrite length_app. cbn. lia. }
  rewrite Hrun. eexists. split; [reflexivity|]. rewrite fs_set_fs.
  split; [reflexivity|]. split; [reflexivity|]. split; [reflexivity|].
  split; [exact Hsub|]. split.
  - intros q. destruct (Hadd q) as [Hq|(Hq1 & Hq2 & i & Hi & ->)]; [now left|].
    right. split; [exact Hq1|]. split; [exact Hq2|]. exists i. split; [exact Hi|reflexivity].
  - apply check_dirs_all. intros i Hi. rewrite length_app in Hi. cbn [length] in Hi.
    cbn [app]. rewrite take_app_le by lia.
    destruct i as [|i]; [rewrite take_0; eexists; reflexivity|].
    destruct (Hdirs (S i)) as [mode Hm]; [lia|]. cbn [app] in Hm.
    exists mode. rewrite node_at_lookup; [exact Hm|].
    destruct k; [cbn in Hi; lia|discriminate].
Qed.

(** *** Copying an entry to a free place *)

Lemma plain_tree_same m m' k :
  plain_tree m k -> (forall r, m' !! (k ++ r)%list = m !! (k ++ r)%list) -> plain_tree m' k.
Proof.
  intros Hp Hs r n Hn. rewrite Hs in Hn. destruct (Hp _ _ Hn) as (H1 & H2 & H3).
  split; [exact H1|]. split; [exact H2|]. intros i Hi. destruct (H3 i Hi) as [mode H].
  exists mode. now rewrite Hs.
Qed.

Lemma shallower_same depth m m' k :
  shallower depth m k -> (forall r, m' !! (k ++ r)%list = m !! (k ++ r)%list) ->
  shallower depth m' k.
Proof. intros Hp Hs r n Hn. rewrite Hs in Hn. eapply Hp; eassumption. Qed.

Lemma copy_entry_free source dest w entry :
  IsAbs source = true -> IsAbs dest = true ->
  lstat_key (fs w) (elements source) = Ok entry ->
  plain_tree (fs w) (elements source) ->
  shallower max_depth (fs w) (elements source) ->
  apart (elements source) (elements dest) ->
  check_dirs (fs w) [] (elements dest) = None ->
  (forall r, fs w !! (elements dest ++ r)%list = None) ->
  exists w3,
    (if IsDir entry then copyDir max_depth source dest else copyFile source dest) w = (Ok tt, w3)
    /\ stdout w3 = stdout w /\ cwd w3 = cwd w /\ umask w3 = umask w
    /\ (forall k, under (elements dest) k = false -> fs w3 !! k = fs w !! k)
    /\ (forall r, fs w3 !! (elements dest ++ r)%list
                  = copy_node (umask w) <$> fs w !! (elements source ++ r)%list).
Proof.
  intros Hs Hd Hsrc Hplain Hdepth Hap Hcd Hfree.
  destruct (apart_nonempty _ _ Hap) as [Hks Hkd].
  set (ks := elements source) in *. set (kd := elements dest) in *.
  assert (Hnode : fs w !! ks = Some entry).
  { apply lstat_key_node in Hsrc. now rewrite node_at_lookup in Hsrc. }
  assert (Hsym : is_symlink entry = false).
  { specialize (Hplain [] entry). rewrite app_nil_r in Hplain. now apply Hplain. }
  destruct entry as [data mode|mode|target]; [| |discriminate]; cbn [IsDir].
  - rewrite (copyFile_fresh _ _ _ data mode).
    + eexists. split; [reflexivity|]. rewrite fs_set_fs.
      assert (Hk2 : key w dest = kd) by now apply key_abs.
      rewrite Hk2. split; [reflexivity|]. split; [reflexivity|]. split; [reflexivity|]. split.
      * intros k Hk. rewrite lookup_insert_ne; [reflexivity|].
        intros <-. now rewrite under_refl in Hk.
      * intros [|x r].
        -- rewrite !app_nil_r, lookup_insert_eq. now rewrite Hnode.
        -- rewrite lookup_insert_ne.
           2:{ intros E. apply (f_equal (@length string)) in E. rewrite length_app in E.
               cbn [length] in E. lia. }
           rewrite Hfree.
           now rewrite (plain_tree_leaf _ _ data mode (x :: r) Hplain Hnode).
    + unfold Stat. rewrite key_abs by exact Hs. fold ks.
      now rewrite (follow_plain _ _ _ _ Hsrc eq_refl).
    + rewrite key_abs by exact Hd. fold kd. rewrite node_at_lookup by exact Hkd.
      specialize (Hfree []). now rewrite app_nil_r in Hfree.
    + rewrite key_abs by exact Hd. exact Hcd.
  - destruct (copyDir_correct max_depth source dest w mode) as
      (w3 & Hrun & Hu3 & Hout3 & Hcwd3 & Hframe3 & Hcont3); try assumption.
    exists w3. repeat (split; [assumption|]). exact Hcont3.
Qed.

(** [MkdirAll] of the directory of the destination, a line of output,
    and the copy: what [persist add] and a copy-mode [restore] do for
    an entry that is a tree of directories and regular files, where the
    destination is free and the way to it can be made. *)
Lemma mkdir_then_copy a b source w entry line :
  IsAbs source = true -> IsAbs a = true ->
  Lstat source w = Ok entry ->
  plain_tree (fs w) (elements source) ->
  shallower max_depth (fs w) (elements source) ->
  apart (elements source) (elements (Join a b)) ->
  free_way (fs w) (elements (Join a b)) = true ->
  (forall r, fs w !! (elements (Join a b) ++ r)%list = None) ->
  exists w1 w3,
    MkdirAll (Dir (Join a b)) 493 w = Ok w1
    /\ (forall r, fs w1 !! (elements (Join a b) ++ r)%list = None)
    /\ Stat source (print line w1) = Ok entry
    /\ (if IsDir entry then copyDir max_depth source (Join a b) else copyFile source (Join a b))
         (print line w1) = (Ok tt, w3)
    /\ stdout w3 = (stdout w ++ [line])%list /\ cwd w3 = cwd w /\ umask w3 = umask w
    /\ (forall r, fs w3 !! (elements (Join a b) ++ r)%list
                  = copy_node (umask w) <$> fs w !! (elements source ++ r)%list)
    /\ (forall r, fs w3 !! (elements source ++ r)%list = fs w !! (elements source ++ r)%list)
    /\ (forall q, under (elements (Join a b)) q = false ->
          fs w3 !! q = fs w !! q
          \/ (fs w !! q = None
              /\ (exists mode, fs w3 !! q = Some (Directory mode))
              /\ exists i, (1 <= i < length (elements (Join a b)))%nat
                           /\ q = take i (elements (Join a b))))
    /\ Lstat (Join a b) w3 = Ok (copy_node (umask w) entry).
Proof.
  intros Hs Ha Hsrc Hplain Hdepth Hap Hway Hfree.
  set (dest := Join a b) in *.
  assert (Hd : IsAbs dest = true) by now apply IsAbs_Join.
  destruct (apart_nonempty _ _ Hap) as [Hks Hkd].
  unfold Lstat in Hsrc. rewrite key_abs in Hsrc by exact Hs.
  assert (Hdir : elements (Dir dest) = removelast (elements dest))
    by now apply elements_Dir_Join.
  set (ks := elements source) in *.
  destruct (exists_last Hkd) as (k & e & Ekd).
  rewrite Ekd in Hdir, Hap, Hway, Hfree.
  rewrite List.removelast_last in Hdir.
  destruct (MkdirAll_parent (Dir dest) 493 w k e) as
    (w1 & Hmk & Hcwd1 & Hu1 & Hout1 & Hsub & Hadd & Hcd1); [|exact Hway|].
  { rewrite key_abs by now apply IsAbs_Dir. exact Hdir. }
  assert (Hnew : forall q i, (1 <= i <= length k)%nat -> q = take i k ->
                  under ks q = false /\ under (k ++ [e]) q = false).
  { intros q i Hi ->. split.
    - destruct (under ks (take i k)) eqn:E; [|reflexivity].
      apply under_prefix in E. destruct Hap as [Hap1 _].
      assert (under ks (k ++ [e]) = true) by (eapply under_trans; [exact E|apply under_app]).
      congruence.
    - destruct (under (k ++ [e]) (take i k)) eqn:E; [|reflexivity].
      apply under_spec in E as [r E]. apply (f_equal (@length string)) in E.
      rewrite !length_app, length_take in E. cbn [length] in E. lia. }
  assert (Hsame_s : forall r, fs w1 !! (ks ++ r)%list = fs w !! (ks ++ r)%list).
  { intros r. destruct (Hadd (ks ++ r)%list) as [H|(_ & _ & i & Hi & Hq)]; [exact H|].
    destruct (Hnew _ i Hi Hq) as [H _]. now rewrite under_app in H. }
  assert (Hsame_d : forall r, fs w1 !! ((k ++ [e]) ++ r)%list = fs w !! ((k ++ [e]) ++ r)%list).
  { intros r. destruct (Hadd ((k ++ [e]) ++ r)%list) as [H|(_ & _ & i & Hi & Hq)]; [exact H|].
    destruct (Hnew _ i Hi Hq) as [_ H]. now rewrite under_app in H. }
  assert (Hsrc1 : lstat_key (fs (print line w1)) ks = Ok entry)
    by (eapply lstat_key_mono; eassumption).
  destruct (copy_entry_free source dest (print line w1) entry Hs Hd) as
    (w3 & Hrun & Hout3 & Hcwd3 & Hu3 & Hframe3 & Hcont3).
  - exact Hsrc1.
  - eapply plain_tree_same; [exact Hplain|exact Hsame_s].
  - eapply shallower_same; [exact Hdepth|exact Hsame_s].
  - fold ks. rewrite Ekd. exact Hap.
  - rewrite Ekd. exact Hcd1.
  - rewrite Ekd. intros r. cbn [fs print]. rewrite Hsame_d. apply Hfree.
  - rewrite Ekd in *. exists w1, w3. split; [exact Hmk|].
    split; [intros r; rewrite Hsame_d; apply Hfree|]. split.
    { specialize (Hplain [] entry). rewrite app_nil_r in Hplain.
      assert (Hn : fs w !! ks = Some entry).
      { apply lstat_key_node in Hsrc. now rewrite node_at_lookup in Hsrc. }
      destruct (Hplain Hn) as (Hsym & _).
      unfold Stat. rewrite key_abs by exact Hs. fold ks.
      now rewrite (follow_plain _ _ _ _ Hsrc1 Hsym). }
    split; [exact Hrun|].
    split; [rewrite Hout3; cbn [print stdout]; now rewrite Hout1|].
    split; [rewrite Hcwd3; exact Hcwd1|]. split; [rewrite Hu3; exact Hu1|].
    split; [|split; [|split]].
    4:{ unfold Lstat. rewrite key_abs by exact Hd. rewrite Ekd. unfold lstat_key.
        rewrite (check_dirs_ext (fs w3) (fs (print line w1)) [] (k ++ [e])).
        - cbn [print fs]. rewrite Hcd1. rewrite node_at_lookup by (destruct k; discriminate).
          pose proof (Hcont3 []) as H0. rewrite !app_nil_r in H0. rewrite H0.
          cbn [print fs umask]. fold ks. rewrite Hu1.
          pose proof (Hsame_s []) as H1. rewrite app_nil_r in H1. rewrite H1.
          apply lstat_key_node in Hsrc. rewrite node_at_lookup in Hsrc by exact Hks.
          now rewrite Hsrc.
        - intros i Hi. cbn [app].
          destruct (take i (k ++ [e])) as [|x t] eqn:Et; [reflexivity|].
          cbn [node_at]. rewrite <- Et. apply Hframe3. now apply under_take_lt. }
    + intros r. rewrite Hcont3. cbn [print umask fs]. fold ks. now rewrite Hu1, Hsame_s.
    + intros r. fold ks. rewrite Hframe3.
      * cbn [print fs]. apply Hsame_s.
      * destruct Hap as [Hap1 Hap2]. now apply under_false_app.
    + intros q Hq. rewrite Hframe3 by exact Hq. cbn [print fs].
      destruct (Hadd q) as [H|(H & H' & i & Hi & ->)]; [now left|].
      right. split; [exact H|]. split; [eauto|].
      exists i. split; [rewrite length_app; cbn; lia|].
      rewrite take_app_le by lia. reflexivity.
Qed.

Lemma free_not_found path w :
  IsAbs path = true -> elements path <> [] -> fs w !! elements path = None ->
  exists e, Stat path w = Err e.
Proof.
  intros Ha Hne Hn. unfold Stat. rewrite key_abs by exact Ha.
  destruct (lstat_key (fs w) (elements path)) as [n|e] eqn:E.
  - apply lstat_key_node in E. rewrite node_at_lookup in E by exact Hne. congruence.
  - rewrite (follow_absent _ _ _ _ E). eauto.
Qed.

Local Open Scope list_scope.

Lemma free_at_spec (m : gmap (list string) node) k :
  free_at m k = true -> forall r, m !! (k ++ r) = None.
Proof.
  unfold free_at. rewrite forallb_forall. intros H r.
  destruct (m !! (k ++ r)) as [n|] eqn:E; [|reflexivity].
  apply elem_of_map_to_list in E. apply list_elem_of_In in E.
  apply (in_map fst) in E. apply H in E. cbn in E. now rewrite under_app in E.
Qed.

Lemma copy_node_idem u n : copy_node u (copy_node u n) = copy_node u n.
Proof.
  destruct n as [| mode |]; cbn [copy_node]; try reflexivity. f_equal.
  rewrite !Z.ldiff_land, <- Z.land_assoc, Z.land_diag. reflexivity.
Qed.

Lemma copy_node_plain u n : is_symlink (copy_node u n) = is_symlink n.
Proof. now destruct n. Qed.

Lemma copy_node_IsDir u n : IsDir (copy_node u n) = IsDir n.
Proof. now destruct n. Qed.

Lemma free_way_mono (m m' : gmap (list string) node) k :
  (forall q, m' !! q = m !! q \/ (m !! q = None /\ exists mode, m' !! q = Some (Directory mode))) ->
  free_way m k = true -> free_way m' k = true.
Proof.
  unfold free_way. rewrite !forallb_forall. intros H Hf i Hi. specialize (Hf i Hi).
  cbv beta in *. destruct (H (take i k)) as [E|[_ [mode E]]]; rewrite E; [exact Hf|reflexivity].
Qed.

Lemma RemoveAll_free path w :
  (forall r, fs w !! (key w path ++ r) = None) -> RemoveAll path w = w.
Proof.
  intros H. unfold RemoveAll. rewrite map_filter_id; [apply set_fs_same|].
  intros q n Hq. destruct (under (key w path) q) eqn:E; [|reflexivity].
  apply under_spec in E as [r ->]. rewrite H in Hq. discriminate.
Qed.

(** The tree of copies is a tree of directories and regular files as
    the one it was copied from. *)
Lemma plain_tree_copy (m m' : gmap (list string) node) u ks kd :
  plain_tree m ks ->
  (forall r, m' !! (kd ++ r) = copy_node u <$> m !! (ks ++ r)) ->
  plain_tree m' kd.
Proof.
  intros Hp Hc r n Hn. rewrite Hc in Hn.
  destruct (m !! (ks ++ r)) as [n0|] eqn:E; [|discriminate].
  cbn in Hn. inversion Hn; subst n.
  destruct (Hp _ _ E) as (H1 & H2 & H3).
  split; [now rewrite copy_node_plain|]. split; [exact H2|].
  intros i Hi. destruct (H3 i Hi) as [mode H]. rewrite Hc, H. cbn. eauto.
Qed.

Lemma shallower_copy (depth : nat) (m m' : gmap (list string) node) u ks kd :
  shallower depth m ks ->
  (forall r, m' !! (kd ++ r) = copy_node u <$> m !! (ks ++ r)) ->
  shallower depth m' kd.
Proof.
  intros Hp Hc r n Hn. rewrite Hc in Hn.
  destruct (m !! (ks ++ r)) as [n0|] eqn:E; [|discriminate]. eapply Hp; eassumption.
Qed.

Section Store.
Variable git : Git.

(** What [persist add] does for an entry that is a tree of directories
    and regular files, to a free place of the store. *)
Lemma persistAdd_run (names : list string) (bareRepoRoot worktreeRoot : string)
    (w : World) (entry : node) :
  let P := join_slash names in
  let source := Join worktreeRoot P in
  let dest := Join (Join bareRepoRoot "shared") P in
  findRepoRoots git = Ok (bareRepoRoot, worktreeRoot) ->
  IsAbs bareRepoRoot = true -> IsAbs worktreeRoot = true ->
  Forall proper names -> names <> [] ->
  Lstat source w = Ok entry ->
  plain_tree (fs w) (elements source) ->
  shallower max_depth (fs w) (elements source) ->
  apart (elements source) (elements dest) ->
  free_way (fs w) (elements dest) = true ->
  (forall r, fs w !! (elements dest ++ r) = None) ->
  exists w',
    persistAddCmd git P w = (Ok tt, w')
    /\ (forall r, fs w' !! (elements dest ++ r)
                  = copy_node (umask w) <$> fs w !! (elements source ++ r))
    /\ fs w ⊆ fs w'
    /\ stdout w' = stdout w
                   ++ [ ("Persisting " ++ P ++ " to shared/" ++ P ++ "..." ++ String "010" "")%string;
                        ("Successfully persisted to shared/" ++ P ++ String "010" "")%string ]
    /\ cwd w' = cwd w /\ umask w' = umask w
    /\ Lstat dest w' = Ok (copy_node (umask w) entry)
    /\ (forall q, under (elements dest) q = false ->
          fs w' !! q = fs w !! q
          \/ (fs w !! q = None /\ (exists mode, fs w' !! q = Some (Directory mode))
              /\ exists i, (1 <= i < length (elements dest))%nat /\ q = take i (elements dest))).
Proof.
  intros P source dest Hroots Hb Hw Hn Hne Hsrc Hplain Hdepth Hap Hway Hfree.
  assert (Hsabs : IsAbs source = true) by now apply IsAbs_Join.
  assert (Hsh : IsAbs (Join bareRepoRoot "shared") = true) by now apply IsAbs_Join.
  destruct (apart_nonempty _ _ Hap) as [Hks Hkd].
  assert (Hentry : fs w !! elements source = Some entry).
  { unfold Lstat in Hsrc. rewrite key_abs in Hsrc by exact Hsabs.
    apply lstat_key_node in Hsrc. now rewrite node_at_lookup in Hsrc. }
  assert (Hsym : is_symlink entry = false).
  { specialize (Hplain [] entry). rewrite app_nil_r in Hplain. now apply Hplain. }
  set (line := ("Persisting " ++ P ++ " to shared/" ++ P ++ "..." ++ String "010" "")%string).
  destruct (mkdir_then_copy (Join bareRepoRoot "shared") P source w entry line
              Hsabs Hsh Hsrc Hplain Hdepth Hap Hway Hfree)
    as (w1 & w3 & Hmk & _ & Hstat1 & Hrun & Hout & Hcwd & Hu & Hcont & _ & Hframe & Hlst).
  destruct (free_not_found dest w) as [e He].
  { now apply IsAbs_Join. } { exact Hkd. }
  { specialize (Hfree []). now rewrite app_nil_r in Hfree. }
  exists (print ("Successfully persisted to shared/" ++ P ++ String "010" "")%string w3).
  split; [|split; [|split; [|split; [|split; [|split; [|split]]]]]].
  - unfold persistAddCmd. rewrite Hroots.
    subst P source dest line.
    rewrite (join_names_not_abs _ Hn Hne).
    rewrite (Lstat_Stat _ _ _ Hsrc Hsym).
    rewrite Rel_Join_names by assumption.
    rewrite He.
    unfold bind, wrap, sys_w, Printf. rewrite Hmk.
    unfold copyPath. rewrite Hstat1.
    destruct (IsDir entry); rewrite Hrun; reflexivity.
  - intros r. cbn [print fs]. apply Hcont.
  - cbn [print fs]. apply map_subseteq_spec. intros q v Hq.
    assert (Hu' : under (elements dest) q = false).
    { destruct (under (elements dest) q) eqn:E; [|reflexivity].
      apply under_spec in E as [r ->]. rewrite Hfree in Hq. discriminate. }
    destruct (Hframe q Hu') as [H|[H _]]; congruence.
  - cbn [print stdout]. rewrite Hout. now rewrite <- app_assoc.
  - exact Hcwd.
  - exact Hu.
  - exact Hlst.
  - exact Hframe.
Qed.


(** X6.  After [persist add P] has stored an entry, a second
    [persist add P] returns the error that the entry is in the store
    already, with the hint to remove it first, and changes nothing:
    the store is never updated in place. *)
Theorem persistAdd_again (names : list string) (bareRepoRoot worktreeRoot : string)
    (w w' : World) (entry : node) :
  let P := join_slash names in
  let source := Join worktreeRoot P in
  let dest := Join (Join bareRepoRoot "shared") P in
  findRepoRoots git = Ok (bareRepoRoot, worktreeRoot) ->
  IsAbs bareRepoRoot = true -> IsAbs worktreeRoot = true ->
  Forall proper names -> names <> [] ->
  Lstat source w = Ok entry ->
  plain_tree (fs w) (elements source) ->
  shallower max_depth (fs w) (elements source) ->
  apart (elements source) (elements dest) ->
  free_way (fs w) (elements dest) = true ->
  (forall r, fs w !! (elements dest ++ r) = None) ->
  persistAddCmd git P w = (Ok tt, w') ->
  persistAddCmd git P w' =
    (Err ("file already exists in shared storage: " ++ P ++ String "010"
          "Use 'wtm persist remove " ++ P ++ "' first if you want to update it")%string, w').
Proof.
  intros P source dest Hroots Hb Hw Hn Hne Hsrc Hplain Hdepth Hap Hway Hfree Hrun.
  destruct (persistAdd_run names bareRepoRoot worktreeRoot w entry
              Hroots Hb Hw Hn Hne Hsrc Hplain Hdepth Hap Hway Hfree)
    as (w'' & H1 & _ & Hsub & _ & Hcwd & _ & Hlst & _).
  fold P in H1. rewrite Hrun in H1. inversion H1; subst w''. clear H1.
  assert (Hsym : is_symlink entry = false).
  { apply (proj1 (Hplain [] entry ltac:(
      rewrite app_nil_r; unfold Lstat in Hsrc;
      rewrite key_abs in Hsrc by (now apply IsAbs_Join);
      apply lstat_key_node in Hsrc;
      rewrite node_at_lookup in Hsrc by apply (apart_nonempty _ _ Hap); exact Hsrc))). }
  assert (Hsrc' : Lstat source w' = Ok entry).
  { unfold Lstat in *. rewrite key_abs in * by now apply IsAbs_Join.
    eapply lstat_key_mono; eassumption. }
  unfold persistAddCmd. rewrite Hroots. subst P source dest.
  rewrite (join_names_not_abs _ Hn Hne).
  rewrite (Lstat_Stat _ _ _ Hsrc' Hsym).
  rewrite Rel_Join_names by assumption.
  rewrite (Lstat_Stat _ _ _ Hlst) by now rewrite copy_node_plain.
  reflexivity.
Qed.

End Store.

Import Example.


Lemma persistAdd_again_witness :
  persistAddCmd git_workspace "config" (snd (persistAddCmd git_workspace "config" tree_world)) =
    (Err ("file already exists in shared storage: config" ++ nl
          ++ "Use 'wtm persist remove config' first if you want to update it")%string,
     snd (persistAddCmd git_workspace "config" tree_world)).
Proof.
  apply (persistAdd_again git_workspace ["config"] "/b" "/b/workspace" tree_world
           (snd (persistAddCmd git_workspace "config" tree_world)) (Directory 511));
    try (vm_compute; reflexivity).
  - constructor; [proper_name|constructor].
  - discriminate.
  - apply plain_treeb_spec. vm_compute. reflexivity.
  - apply shallowerb_spec. vm_compute. reflexivity.
  - split; vm_compute; reflexivity.
  - apply free_at_spec. vm_compute. reflexivity.
Defined.

Local Open Scope string_scope.
Local Open Scope Z_scope.

(** ** Restoring to a free place *)

Local Open Scope list_scope.

Lemma lstat_key_ancestor (m : gmap (list string) node) k r n :
  lstat_key m (k ++ r) = Ok n -> r <> [] -> exists mode, lstat_key m k = Ok (Directory mode).
Proof.
  revert n. induction r as [|e r' IH] using rev_ind; intros n H Hr; [congruence|].
  rewrite app_assoc in H. apply lstat_key_parent in H as [mode H].
  destruct r' as [|x r'].
  - rewrite app_nil_r in H. eauto.
  - eapply IH; [exact H|discriminate].
Qed.

Lemma free_way_later (m m' : gmap (list string) node) k :
  (forall i, (1 <= i < length k)%nat ->
     m' !! take i k = m !! take i k
     \/ (m !! take i k = None /\ exists mode, m' !! take i k = Some (Directory mode))) ->
  free_way m k = true -> free_way m' k = true.
Proof.
  unfold free_way. rewrite !forallb_forall. intros H Hf i Hi. specialize (Hf i Hi).
  cbv beta in *. apply in_seq in Hi.
  destruct (H i ltac:(lia)) as [E|[_ [mode E]]]; rewrite E; [exact Hf|reflexivity].
Qed.

Section RestoreFree.
Variable flags : Flags.

(** What [restoreFile] does in copy mode, without [--to], for an entry
    of the store that is a tree of directories and regular files, to a
    free place of the worktree. *)
Lemma restoreFile_copy_run (names : list string) (sharedDir worktreeRoot : string)
    (w : World) (entry : node) :
  let P := join_slash names in
  let source := Join sharedDir P in
  let dest := Join worktreeRoot P in
  restoreLink flags = false -> restoreTo flags = "" ->
  IsAbs sharedDir = true -> IsAbs worktreeRoot = true ->
  Forall proper names -> names <> [] ->
  Lstat source w = Ok entry ->
  plain_tree (fs w) (elements source) ->
  shallower max_depth (fs w) (elements source) ->
  apart (elements source) (elements dest) ->
  free_way (fs w) (elements dest) = true ->
  (forall r, fs w !! (elements dest ++ r) = None) ->
  exists w',
    restoreFile flags P sharedDir worktreeRoot w = (Ok tt, w')
    /\ (forall r, fs w' !! (elements dest ++ r)
                  = copy_node (umask w) <$> fs w !! (elements source ++ r))
    /\ fs w ⊆ fs w'
    /\ stdout w' = stdout w
                   ++ [ ("Copying shared/" ++ P ++ " to " ++ P ++ "..." ++ String "010" "")%string;
                        ("Successfully restored to " ++ P ++ String "010" "")%string ]
    /\ umask w' = umask w
    /\ (forall q, under (elements dest) q = false ->
          fs w' !! q = fs w !! q
          \/ (fs w !! q = None
              /\ exists i, (1 <= i < length (elements dest))%nat /\ q = take i (elements dest))).
Proof.
  intros P source dest Hlink Hto Hs Hw Hn Hne Hsrc Hplain Hdepth Hap Hway Hfree.
  assert (Hsabs : IsAbs source = true) by now apply IsAbs_Join.
  destruct (apart_nonempty _ _ Hap) as [Hks Hkd].
  assert (Hentry : fs w !! elements source = Some entry).
  { unfold Lstat in Hsrc. rewrite key_abs in Hsrc by exact Hsabs.
    apply lstat_key_node in Hsrc. now rewrite node_at_lookup in Hsrc. }
  assert (Hsym : is_symlink entry = false).
  { specialize (Hplain [] entry). rewrite app_nil_r in Hplain. now apply Hplain. }
  set (line := ("Copying shared/" ++ P ++ " to " ++ P ++ "..." ++ String "010" "")%string).
  destruct (mkdir_then_copy worktreeRoot P source w entry line
              Hsabs Hw Hsrc Hplain Hdepth Hap Hway Hfree)
    as (w1 & w3 & Hmk & Hfree1 & Hstat1 & Hrun & Hout & Hcwd & Hu & Hcont & _ & Hframe & Hlst).
  destruct (free_not_found dest w) as [e He].
  { now apply IsAbs_Join. } { exact Hkd. }
  { specialize (Hfree []). now rewrite app_nil_r in Hfree. }
  assert (Hrm : RemoveAll (Join worktreeRoot P) (print line w1) = print line w1).
  { apply RemoveAll_free. intros r. rewrite key_abs by now apply IsAbs_Join.
    cbn [print fs]. apply Hfree1. }
  exists (print ("Successfully restored to " ++ P ++ String "010" "")%string w3).
  split; [|split; [|split; [|split; [|split]]]].
  - unfold restoreFile. subst P source dest line.
    rewrite (Lstat_Stat _ _ _ Hsrc Hsym).
    unfold restore_dest. rewrite Hto. cbn [String.eqb negb].
    rewrite He. rewrite Hlink.
    rewrite Rel_Join_names by assumption.
    assert (Hbody :
      (wrap "error creating parent directories"
         (sys_w "mkdir" (Dir (Join worktreeRoot (join_slash names)))
            (MkdirAll (Dir (Join worktreeRoot (join_slash names))) 493)) ;;;
       Printf ("Copying" ++ " shared/" ++ join_slash names ++ " to " ++ join_slash names
               ++ "..." ++ String "010" "") ;;;
       ((fun w0 : World =>
           (Ok tt, if restoreForce flags
                   then RemoveAll (Join worktreeRoot (join_slash names)) w0 else w0)) ;;;
        (if IsDir entry
         then wrap "error copying directory"
                (copyDir max_depth (Join sharedDir (join_slash names))
                   (Join worktreeRoot (join_slash names)))
         else wrap "error copying file"
                (copyFile (Join sharedDir (join_slash names))
                   (Join worktreeRoot (join_slash names))))) ;;;
       Printf ("Successfully restored to " ++ join_slash names ++ String "010" "")) w
      = (Ok tt, print ("Successfully restored to " ++ join_slash names ++ String "010" "")%string
                  w3)).
    { unfold bind, wrap, sys_w, Printf. rewrite Hmk.
      change ("Copying" ++ " shared/" ++ join_slash names ++ " to " ++ join_slash names
               ++ "..." ++ String "010" "")%string
        with ("Copying shared/" ++ join_slash names ++ " to " ++ join_slash names
               ++ "..." ++ String "010" "")%string.
      assert (Hw1 : (if restoreForce flags
                     then RemoveAll (Join worktreeRoot (join_slash names))
                            (print ("Copying shared/" ++ join_slash names ++ " to "
                                    ++ join_slash names ++ "..." ++ String "010" "")%string w1)
                     else print ("Copying shared/" ++ join_slash names ++ " to "
                                 ++ join_slash names ++ "..." ++ String "010" "")%string w1)
                    = print ("Copying shared/" ++ join_slash names ++ " to "
                             ++ join_slash names ++ "..." ++ String "010" "")%string w1).
      { destruct (restoreForce flags); [exact Hrm|reflexivity]. }
      rewrite Hw1.
      destruct (IsDir entry); rewrite Hrun; reflexivity. }
    destruct (restoreForce flags); exact Hbody.
  - intros r. cbn [print fs]. apply Hcont.
  - cbn [print fs]. apply map_subseteq_spec. intros q v Hq.
    assert (Hu' : under (elements dest) q = false).
    { destruct (under (elements dest) q) eqn:E; [|reflexivity].
      apply under_spec in E as [r ->]. rewrite Hfree in Hq. discriminate. }
    destruct (Hframe q Hu') as [H|[H _]]; congruence.
  - cbn [print stdout]. rewrite Hout. now rewrite <- app_assoc.
  - exact Hu.
  - intros q Hq. cbn [print fs]. destruct (Hframe q Hq) as [H|(H & _ & H')]; [now left|].
    right. split; [exact H|exact H'].
Qed.


Section RoundTrip.
Variables git1 git2 : Git.


End RoundTrip.
End RestoreFree.

Import Example.



Local Open Scope string_scope.
Local Open Scope Z_scope.

(** ** Removing from the store *)

Local Open Scope list_scope.

Lemma elements_nil_root p : IsAbs p = true -> elements p = [] -> Clean p = "/".
Proof. intros H E. rewrite Clean_abs by exact H. now rewrite E. Qed.

Lemma Stat_gone path w :
  IsAbs path = true -> elements path <> [] ->
  check_dirs (fs w) [] (elements path) = None ->
  fs w !! elements path = None ->
  Stat path w = Err ENOENT.
Proof.
  intros Ha Hne Hc Hn. unfold Stat. rewrite key_abs by exact Ha.
  assert (E : lstat_key (fs w) (elements path) = Err ENOENT).
  { unfold lstat_key. rewrite Hc, node_at_lookup by exact Hne. now rewrite Hn. }
  now rewrite (follow_absent _ _ _ _ E).
Qed.

(** The elements of a path that steps out of a directory by [..] and
    into a sibling. *)
Lemma elements_Join_sibling a e name :
  IsAbs a = true -> proper e -> proper name ->
  elements (Join (Join a e) ("../" ++ name)) = elements a ++ [name].
Proof.
  intros Ha He Hn. rewrite elements_Join by now apply IsAbs_Join.
  rewrite elements_Join_name by assumption.
  change ("../" ++ name)%string with (".." ++ "/" ++ name)%string.
  rewrite split_slash_append. rewrite (split_slash_single name) by apply Hn.
  rewrite rev_app_distr. cbn [rev app].
  assert (E : clean_step true (e :: rev (elements a)) ".." = rev (elements a)).
  { unfold clean_step. cbn [String.eqb Ascii.eqb orb Bool.eqb].
    destruct He as (_ & _ & _ & He). apply String.eqb_neq in He. now rewrite He. }
  change (split_slash "..") with [".."]. cbn [fold_left app].
  rewrite E, clean_step_proper by assumption. cbn [rev]. now rewrite rev_involutive.
Qed.

Lemma Join_sibling a e name :
  IsAbs a = true -> proper e -> proper name ->
  Join (Join a e) ("../" ++ name) = Join a name.
Proof.
  intros Ha He Hn.
  rewrite (Join_key_path (Join a e)) by now apply IsAbs_Join.
  rewrite (Join_key_path a name) by assumption.
  rewrite elements_Join_sibling, elements_Join_name by assumption. reflexivity.
Qed.

Section Remove.
Variable git : Git.

(** What [persist remove] does when [os.Stat] finds the entry. *)
Lemma persistRemove_run (targetPath bareRepoRoot worktreeRoot : string) (w : World) (n : node) :
  let target := Join (Join bareRepoRoot "shared") targetPath in
  let w' := print ("Successfully removed shared/" ++ targetPath ++ String "010" "")%string
              (RemoveAll target
                 (print ("Removing " ++ targetPath ++ " from shared storage..."
                         ++ String "010" "")%string w)) in
  findRepoRoots git = Ok (bareRepoRoot, worktreeRoot) ->
  IsAbs bareRepoRoot = true ->
  Stat target w = Ok n ->
  persistRemoveCmd git targetPath w = (Ok tt, w')
  /\ (forall q, fs w' !! q = if under (elements target) q then None else fs w !! q)
  /\ (elements target <> [] -> Stat target w' = Err ENOENT).
Proof.
  intros target w' Hroots Hb Hst.
  assert (Ha : IsAbs target = true) by (apply IsAbs_Join; now apply IsAbs_Join).
  split; [|split].
  - unfold persistRemoveCmd. rewrite Hroots. fold target. rewrite Hst. reflexivity.
  - intros q. subst w'. cbn [print fs]. rewrite RemoveAll_lookup.
    rewrite key_abs by exact Ha. reflexivity.
  - intros Hne. apply Stat_gone; [exact Ha|exact Hne| |].
    + subst w'. cbn [print fs].
      pose proof (check_dirs_RemoveAll target
                    (print ("Removing " ++ targetPath ++ " from shared storage..."
                            ++ String "010" "")%string w)) as H.
      rewrite key_abs in H by exact Ha. rewrite H by exact Hne. cbn [print fs].
      apply Stat_Lstat in Hst as [n' Hl]. unfold Lstat in Hl.
      rewrite key_abs in Hl by exact Ha. eapply lstat_key_dirs; exact Hl.
    + subst w'. cbn [print fs]. rewrite RemoveAll_lookup, key_abs by exact Ha.
      now rewrite under_refl.
Qed.

(** X9.  [persist remove P] of an entry [os.Stat] finds in the
    store: the command succeeds and prints its two lines; the entry and
    everything under it are gone and every other entry of the tree is
    as it was; after that a second [persist remove P] and every
    [restore P], whatever its flags, return their errors that the file
    is not in shared storage and change nothing. *)
Theorem persistRemove_then_gone (targetPath bareRepoRoot worktreeRoot : string)
    (w : World) (n : node) :
  let sharedDir := Join bareRepoRoot "shared" in
  let target := Join sharedDir targetPath in
  findRepoRoots git = Ok (bareRepoRoot, worktreeRoot) ->
  IsAbs bareRepoRoot = true ->
  Stat target w = Ok n ->
  target <> "/" ->
  exists w',
    persistRemoveCmd git targetPath w = (Ok tt, w')
    /\ (forall q, fs w' !! q = if under (elements target) q then None else fs w !! q)
    /\ stdout w' = stdout w
         ++ [ ("Removing " ++ targetPath ++ " from shared storage..." ++ String "010" "")%string;
              ("Successfully removed shared/" ++ targetPath ++ String "010" "")%string ]
    /\ persistRemoveCmd git targetPath w' =
         (Err ("file not found in shared storage: " ++ targetPath)%string, w')
    /\ forall flags root,
         restoreFile flags targetPath sharedDir root w' =
           (Err ("file not found in shared storage: " ++ targetPath ++ String "010"
                 "Use 'wtm persist list' to see available files")%string, w').
Proof.
  intros sharedDir target Hroots Hb Hst Hroot.
  destruct (persistRemove_run targetPath bareRepoRoot worktreeRoot w n Hroots Hb Hst)
    as (Hrun & Hfs & Hgone).
  assert (Ha : IsAbs target = true) by (apply IsAbs_Join; now apply IsAbs_Join).
  assert (Hne : elements target <> []).
  { intros E. apply Hroot. unfold target at 1.
    rewrite Join_abs by now apply IsAbs_Join.
    rewrite Clean_abs by (apply IsAbs_append; now apply IsAbs_Join).
    rewrite <- elements_Clean, <- Join_abs by
      (try (apply IsAbs_append); now apply IsAbs_Join).
    fold sharedDir. fold target. now rewrite E. }
  specialize (Hgone Hne). fold sharedDir target in Hrun, Hfs, Hgone.
  eexists. split; [exact Hrun|]. split; [exact Hfs|]. split; [|split].
  - cbn [print stdout]. rewrite (proj2 (proj2 (RemoveAll_frame _ _))). cbn [print stdout].
    now rewrite <- app_assoc.
  - unfold persistRemoveCmd. rewrite Hroots. fold sharedDir target. rewrite Hgone. reflexivity.
  - intros flags root. unfold restoreFile. fold target. rewrite Hgone. reflexivity.
Qed.

(** X10.  [persist remove] does not keep to the store: with the
    argument [../name] it removes the entry [name] of the bare
    repository's directory itself, and everything under it: a worktree,
    for [../workspace]. *)
Theorem persistRemove_outside_store (name bareRepoRoot worktreeRoot : string)
    (w : World) (n : node) :
  findRepoRoots git = Ok (bareRepoRoot, worktreeRoot) ->
  IsAbs bareRepoRoot = true -> proper name ->
  Stat (Join bareRepoRoot name) w = Ok n ->
  exists w',
    persistRemoveCmd git ("../" ++ name)%string w = (Ok tt, w')
    /\ (forall r, fs w' !! (elements bareRepoRoot ++ [name] ++ r) = None)
    /\ Stat (Join bareRepoRoot name) w' = Err ENOENT.
Proof.
  intros Hroots Hb Hn Hst.
  assert (Hsh : proper "shared") by (split; [reflexivity|repeat split; discriminate]).
  assert (Ej : Join (Join bareRepoRoot "shared") ("../" ++ name)%string = Join bareRepoRoot name)
    by now apply Join_sibling.
  assert (Ee : elements (Join bareRepoRoot name) = elements bareRepoRoot ++ [name])
    by now apply elements_Join_name.
  destruct (persistRemove_run ("../" ++ name)%string bareRepoRoot worktreeRoot w n Hroots Hb)
    as (Hrun & Hfs & Hgone); [now rewrite Ej|].
  rewrite Ej in Hrun, Hfs, Hgone. rewrite Ee in Hfs.
  eexists. split; [exact Hrun|]. split.
  - intros r. rewrite Hfs, app_assoc, under_app. reflexivity.
  - apply Hgone. rewrite Ee. destruct (elements bareRepoRoot); discriminate.
Qed.

End Remove.

Import Example.

Lemma persistRemove_then_gone_witness :
  let r := persistRemoveCmd git_workspace "config" store_world in
  fst r = Ok tt
  /\ fs (snd r) !! ["b"; "shared"; "config"; "app.json"] = None
  /\ fs (snd r) !! ["b"; "shared"; ".env"] = Some (File "SECRET" 420)
  /\ fst (persistRemoveCmd git_workspace "config" (snd r))
     = Err "file not found in shared storage: config".
Proof.
  destruct (persistRemove_then_gone git_workspace "config" "/b" "/b/workspace" store_world
              (Directory 493))
    as (w' & Hrun & Hfs & _ & Hagain & _).
  - vm_compute. reflexivity.
  - reflexivity.
  - vm_compute. reflexivity.
  - vm_compute. discriminate.
  - cbv zeta. rewrite Hrun. cbn [fst snd]. split; [reflexivity|].
    split; [rewrite Hfs; vm_compute; reflexivity|].
    split; [rewrite Hfs; vm_compute; reflexivity|].
    rewrite Hagain. reflexivity.
Defined.

Lemma persistRemove_outside_store_witness :
  let r := persistRemoveCmd git_workspace "../workspace" fresh_world in
  fst r = Ok tt
  /\ fs (snd r) !! ["b"; "workspace"; "f"] = None
  /\ Stat "/b/workspace" (snd r) = Err ENOENT.
Proof.
  destruct (persistRemove_outside_store git_workspace "workspace" "/b" "/b/workspace"
              fresh_world (Directory 493))
    as (w' & Hrun & Hfs & Hgone).
  - vm_compute. reflexivity.
  - reflexivity.
  - proper_name.
  - vm_compute. reflexivity.
  - cbv zeta. change ("../workspace") with ("../" ++ "workspace")%string.
    rewrite Hrun. cbn [fst snd]. split; [reflexivity|].
    split; [exact (Hfs ["f"])|exact Hgone].
Defined.

Local Open Scope string_scope.
Local Open Scope Z_scope.

(** ** The roots of the repository *)

Lemma HasPrefix_append s t : HasPrefix (s ++ t) s = true.
Proof.
  induction s as [|c s IH]; [reflexivity|]. rewrite append_cons. cbn [HasPrefix].
  now rewrite Ascii.eqb_refl, IH.
Qed.

Lemma Contains_prefix s sub : HasPrefix s sub = true -> Contains s sub = true.
Proof. intros H. destruct s; cbn [Contains]; now rewrite H. Qed.

Lemma Contains_append a s sub : Contains s sub = true -> Contains (a ++ s) sub = true.
Proof.
  intros H. induction a as [|c a IH]; [exact H|].
  rewrite append_cons. cbn [Contains]. rewrite IH. apply orb_true_r.
Qed.

Lemma LastIndex_none s sub : Contains s sub = false -> LastIndex s sub = None.
Proof.
  induction s as [|c t IH]; cbn [Contains LastIndex]; intros H.
  - apply orb_false_iff in H as [H _]. now rewrite H.
  - apply orb_false_iff in H as [H1 H2]. now rewrite (IH H2), H1.
Qed.

Lemma LastIndex_append a s sub i :
  LastIndex s sub = Some i -> LastIndex (a ++ s) sub = Some (String.length a + i)%nat.
Proof.
  intros H. induction a as [|c a IH]; [exact H|].
  rewrite append_cons. cbn [LastIndex String.length]. now rewrite IH.
Qed.

(** The last occurrence of a separator that begins with a byte [c]:
    where the rest of the separator and the text after it hold no
    occurrence, it is the one at hand. *)
Lemma LastIndex_last root c sep rest :
  Contains (sep ++ rest) (String c sep) = false ->
  LastIndex (root ++ String c sep ++ rest) (String c sep) = Some (String.length root).
Proof.
  intros H. rewrite (LastIndex_append root _ _ 0%nat); [f_equal; lia|].
  rewrite append_cons. cbn [LastIndex]. rewrite (LastIndex_none _ _ H).
  change (String c (sep ++ rest)) with (String c sep ++ rest).
  now rewrite HasPrefix_append.
Qed.

Lemma cut_worktrees_last root rest :
  Contains ("worktrees/" ++ rest) "/worktrees/" = false ->
  cut_worktrees (root ++ "/worktrees/" ++ rest) = Some root.
Proof.
  intros H. unfold cut_worktrees.
  rewrite (LastIndex_last root "/" "worktrees/" rest H). now rewrite take_bytes_append.
Qed.

Lemma Contains_worktrees root rest : Contains (root ++ "/worktrees/" ++ rest) "worktrees" = true.
Proof.
  apply Contains_append.
  assert (E : "/worktrees/" ++ rest = String "/" ("worktrees" ++ ("/" ++ rest))) by reflexivity.
  rewrite E. cbn [Contains].
  rewrite (Contains_prefix ("worktrees" ++ ("/" ++ rest)) "worktrees" (HasPrefix_append _ _)).
  apply orb_true_r.
Qed.

(** A text with at most one separator byte holds no [/worktrees/]. *)
Lemma Contains_one_slash s sub :
  has_slash s = false -> Contains s (String "/" sub) = false.
Proof.
  induction s as [|c t IH]; [reflexivity|]. cbn [has_slash Contains HasPrefix]. intros H.
  apply orb_false_iff in H as [Hc Ht]. rewrite Hc, (IH Ht). reflexivity.
Qed.

Lemma HasPrefix_no_slash s p :
  has_slash s = false -> has_slash p = true -> HasPrefix s p = false.
Proof.
  revert s. induction p as [|c p IH]; intros s Hs Hp; [discriminate|].
  destruct s as [|d s]; [reflexivity|]. cbn [HasPrefix has_slash] in *.
  apply orb_false_iff in Hs as [Hd Hs].
  destruct (Ascii.eqb d c) eqn:E; [|reflexivity]. apply Ascii.eqb_eq in E. subst d.
  rewrite Hd in Hp. cbn [orb andb] in *. now apply IH.
Qed.

Lemma Contains_after_name p t sub :
  has_slash p = false ->
  Contains (p ++ String "/" t) (String "/" sub) = HasPrefix t sub || Contains t (String "/" sub).
Proof.
  intros Hp. induction p as [|c p IH].
  - rewrite append_nil_l. cbn [Contains HasPrefix]. now rewrite Ascii.eqb_refl.
  - cbn [has_slash] in Hp. apply orb_false_iff in Hp as [Hc Hp].
    rewrite append_cons. cbn [Contains HasPrefix]. rewrite Hc. cbn [andb orb]. now apply IH.
Qed.

(** The name of a worktree, which holds no separator, hides no later
    [/worktrees/]. *)
Lemma Contains_name name :
  has_slash name = false -> Contains ("worktrees/" ++ name) "/worktrees/" = false.
Proof.
  intros H. change ("worktrees/" ++ name) with ("worktrees" ++ String "/" name).
  rewrite Contains_after_name by reflexivity.
  rewrite HasPrefix_no_slash by (assumption || reflexivity).
  now rewrite Contains_one_slash.
Qed.

Section Roots.
Variable git : Git.

(** What [findRepoRoots] and [detectLocation] make of git's answers in
    a worktree. *)
Lemma findRepoRoots_run (gitDirOutput root rest topOutput : string) :
  git_output git None ["rev-parse"; "--git-dir"] = Ok gitDirOutput ->
  TrimSpace gitDirOutput = root ++ "/worktrees/" ++ rest ->
  Contains ("worktrees/" ++ rest) "/worktrees/" = false ->
  TrimSpace (match git_output git None ["rev-parse"; "--is-bare-repository"] with
             | Ok out => out
             | Err _ => ""
             end) <> "true" ->
  git_output git None ["rev-parse"; "--show-toplevel"] = Ok topOutput ->
  findRepoRoots git = Ok (root, TrimSpace topOutput).
Proof.
  intros Hdir Htrim Hlast Hbare Htop. unfold findRepoRoots, runCommand.
  rewrite Hdir, Htrim, Htop. apply String.eqb_neq in Hbare. rewrite Hbare.
  now rewrite Contains_worktrees, cut_worktrees_last.
Qed.


Lemma HasPrefix_first a b p :
  has_slash p = false -> HasPrefix (a ++ "/" ++ b) p = HasPrefix a p.
Proof.
  revert a. induction p as [|c p IH]; intros a Hp; [reflexivity|].
  cbn [has_slash] in Hp. apply orb_false_iff in Hp as [Hc Hp].
  destruct a as [|d a].
  - rewrite append_nil_l. change ("/" ++ b) with (String "/" b). cbn [HasPrefix].
    rewrite Ascii.eqb_sym, Hc. reflexivity.
  - rewrite (append_cons d a). cbn [HasPrefix]. now rewrite IH.
Qed.

Lemma HasPrefix_element a b p :
  has_slash a = false -> has_slash p = false ->
  HasPrefix (a ++ "/" ++ b) (p ++ "/") = String.eqb a p.
Proof.
  revert a. induction p as [|c p IH]; intros a Ha Hp.
  - rewrite append_nil_l. destruct a as [|d a].
    + reflexivity.
    + rewrite (append_cons d a). cbn [has_slash] in Ha. apply orb_false_iff in Ha as [Hd _].
      change ("/") with (String "/" ""). cbn [HasPrefix String.eqb]. now rewrite Hd.
  - cbn [has_slash] in Hp. apply orb_false_iff in Hp as [Hc Hp].
    rewrite (append_cons c p "/").
    destruct a as [|d a].
    + rewrite append_nil_l. change ("/" ++ b) with (String "/" b). cbn [HasPrefix String.eqb].
      rewrite Ascii.eqb_sym, Hc. reflexivity.
    + rewrite (append_cons d a). cbn [has_slash] in Ha. apply orb_false_iff in Ha as [_ Ha].
      cbn [HasPrefix String.eqb]. now rewrite IH.
Qed.

(** X12.  [detectLocation] in a worktree of the bare repository
    [root], run in the directory [root/first/...]: it goes by the
    first element alone.  Below [tree] (but not in [tree] itself), or
    where the first element begins with [tree] and a backslash, it
    returns the error that [switch] cannot run inside
    [tree/<branch>]; where the first element begins with [workspace],
    as [workspace-old] does, the location is [workspace]; everywhere
    else it is [worktree]. *)
Theorem detectLocation_in_worktree (gitDirOutput root rest : string) (names : list string)
    (w : World) :
  git_output git None ["rev-parse"; "--git-dir"] = Ok gitDirOutput ->
  TrimSpace gitDirOutput = root ++ "/worktrees/" ++ rest ->
  Contains ("worktrees/" ++ rest) "/worktrees/" = false ->
  TrimSpace (match git_output git None ["rev-parse"; "--is-bare-repository"] with
             | Ok out => out
             | Err _ => ""
             end) <> "true" ->
  IsAbs root = true -> Forall proper names -> names <> [] ->
  cwd w = Join root (join_slash names) ->
  detectLocation git w =
    if match names with
       | first :: _ :: _ => String.eqb first "tree"
       | _ => false
       end || HasPrefix (hd "" names) "tree\"
    then Err "cannot run switch from inside tree/<branch> directory. Please run from bare repo root or workspace"
    else if HasPrefix (hd "" names) "workspace" then Ok (root, "workspace")
    else Ok (root, "worktree").
Proof.
  intros Hdir Htrim Hlast Hbare Hroot Hn Hne Hcwd. unfold detectLocation, Getwd.
  rewrite Hdir, Htrim. apply String.eqb_neq in Hbare. rewrite Hbare.
  rewrite Contains_worktrees, cut_worktrees_last by exact Hlast.
  rewrite Hcwd, Rel_Join_names by assumption.
  destruct names as [|first more]; [congruence|]. cbn [hd].
  inversion Hn as [|? ? Hf Hm]; subst.
  destruct Hf as (Hs & _).
  destruct more as [|second more].
  - cbn [join_slash]. rewrite (HasPrefix_no_slash first "tree/") by (assumption || reflexivity).
    reflexivity.
  - change (join_slash (first :: second :: more))
      with (first ++ "/" ++ join_slash (second :: more)).
    change "tree/" with ("tree" ++ "/").
    rewrite HasPrefix_element by (assumption || reflexivity).
    rewrite !HasPrefix_first by reflexivity. reflexivity.
Qed.

Lemma checkout_dirName_sanitize x :
  ValidString x = true -> x <> "/" -> checkout_dirName x = sanitizeBranchName x.
Proof.
  intros V N. unfold checkout_dirName.
  destruct (String.eqb x (Base x)) eqn:E; [|reflexivity].
  apply String.eqb_eq in E. cbn [negb]. rewrite <- E.
  destruct (Base_fixed x (eq_sym E)) as [->|H]; [congruence|].
  now rewrite sanitize_valid, replace_slash_id.
Qed.

(** X13.  [checkout] where [tree/<name>] exists, for a name that is
    one path element: the command returns the error that the worktree
    exists, git is not asked to create one, and nothing has changed. *)
Theorem checkout_existing (commitish : string) (w : World) (n : node) :
  let worktreePath := Join (Join (cwd w) "tree") (checkout_dirName commitish) in
  git_output git None ["rev-parse"; "--is-bare-repository"] = Ok ("true" ++ String "010" "") ->
  IsAbs (cwd w) = true ->
  proper (checkout_dirName commitish) ->
  Stat worktreePath w = Ok n ->
  checkoutCmd git commitish w = (Err ("worktree already exists at " ++ worktreePath), w)
  /\ forall add',
       checkoutCmd (mkGit (git_output git) (git_worktree_move git) add' (git_worktree_repair git))
         commitish w = checkoutCmd git commitish w.
Proof.
  intros worktreePath Hbare Hcwd Hname Hst.
  assert (Ht : IsAbs (Join (cwd w) "tree") = true) by now apply IsAbs_Join.
  assert (Hmk : MkdirAll (Join (cwd w) "tree") 493 w = Ok w).
  { apply Stat_Lstat in Hst as [n' Hl]. unfold Lstat in Hl.
    rewrite key_abs in Hl by now apply IsAbs_Join.
    unfold worktreePath in Hl. rewrite elements_Join_name in Hl by assumption.
    apply lstat_key_parent in Hl as [mode Hl].
    rewrite (MkdirAll_exists _ _ _ mode); [now rewrite set_fs_same|].
    unfold Lstat. now rewrite key_abs by exact Ht. }
  assert (E : forall g, git_output g None ["rev-parse"; "--is-bare-repository"]
                        = Ok ("true" ++ String "010" "") ->
              checkoutCmd g commitish w = (Err ("worktree already exists at " ++ worktreePath), w)).
  { intros g Hg. unfold checkoutCmd, Getwd. rewrite Hg. cbn [negb String.eqb Ascii.eqb Bool.eqb].
    rewrite Hmk. fold worktreePath. now rewrite Hst. }
  split; [now apply E|]. intros add'. rewrite (E git Hbare). now apply E.
Qed.

End Roots.

Import Example.


Lemma detectLocation_in_worktree_witness :
  detectLocation git_dev parked_dev_world = 
    Err "cannot run switch from inside tree/<branch> directory. Please run from bare repo root or workspace".
Proof.
  apply (detectLocation_in_worktree git_dev ("/b/worktrees/dev" ++ nl) "/b" "dev" ["tree"; "dev"]
           parked_dev_world); try reflexivity.
  - vm_compute. discriminate.
  - repeat (constructor; [proper_name|]). constructor.
  - discriminate.
Defined.

Lemma checkout_existing_witness :
  checkoutCmd git_bare "dev" bare_world = (Err "worktree already exists at /b/tree/dev", bare_world).
Proof.
  apply (checkout_existing git_bare "dev" bare_world (Directory 493)).
  - reflexivity.
  - reflexivity.
  - proper_name.
  - vm_compute. reflexivity.
Defined.

(** ** Moving worktrees *)

Local Open Scope list_scope.

Lemma under_take_drop (a k : list string) : under a k = true -> a ++ drop (length a) k = k.
Proof. intros H. apply under_spec in H as [r ->]. now rewrite drop_app_length. Qed.

(** What [move_tree] holds, where nothing was at the new place. *)
Lemma move_tree_In (src dst : list string) (m : gmap (list string) node) q n :
  (forall k x, m !! k = Some x -> under dst k = false) ->
  In (q, n)
     (map (fun '(k, n) => if under src k then ((dst ++ drop (length src) k)%list, n) else (k, n))
        (map_to_list m))
  <-> (if under dst q then m !! (src ++ drop (length dst) q)
       else if under src q then None else m !! q) = Some n.
Proof.
  intros Hfree. rewrite in_map_iff. split.
  - intros ([k x] & Ef & Hin). apply list_elem_of_In, elem_of_map_to_list in Hin.
    destruct (under src k) eqn:Es; inversion Ef; subst.
    + rewrite under_app, drop_app_length. now rewrite under_take_drop.
    + now rewrite (Hfree _ _ Hin), Es.
  - intros H. destruct (under dst q) eqn:Ed.
    + exists (src ++ drop (length dst) q, n). split.
      * rewrite under_app, drop_app_length. now rewrite under_take_drop.
      * now apply list_elem_of_In, elem_of_map_to_list.
    + destruct (under src q) eqn:Es; [discriminate|]. exists (q, n). split.
      * now rewrite Es.
      * now apply list_elem_of_In, elem_of_map_to_list.
Qed.

Lemma move_tree_lookup (src dst : list string) (m : gmap (list string) node) q :
  (forall k x, m !! k = Some x -> under dst k = false) ->
  move_tree src dst m !! q
  = if under dst q then m !! (src ++ drop (length dst) q)
    else if under src q then None else m !! q.
Proof.
  intros Hfree. apply option_eq. intros n. unfold move_tree. split.
  - intros H. apply elem_of_list_to_map_2, list_elem_of_In in H.
    now apply move_tree_In in H.
  - intros H. apply elem_of_list_to_map_1'.
    + intros y Hy. apply list_elem_of_In, move_tree_In in Hy; [|exact Hfree]. congruence.
    + apply list_elem_of_In, move_tree_In; assumption.
Qed.

(** [os.Rename] of an entry to a free place whose parent exists. *)
Lemma Rename_moves oldpath newpath w n :
  IsAbs oldpath = true -> IsAbs newpath = true ->
  lstat_key (fs w) (elements oldpath) = Ok n ->
  check_dirs (fs w) [] (elements newpath) = None ->
  apart (elements oldpath) (elements newpath) ->
  (forall r, fs w !! (elements newpath ++ r) = None) ->
  exists w',
    Rename oldpath newpath w = Ok w'
    /\ cwd w' = cwd w /\ umask w' = umask w /\ stdout w' = stdout w
    /\ forall q, fs w' !! q
                 = if under (elements newpath) q
                   then fs w !! (elements oldpath ++ drop (length (elements newpath)) q)
                   else if under (elements oldpath) q then None else fs w !! q.
Proof.
  intros Ho Hn Hl Hc [Hap1 Hap2] Hfree.
  destruct (apart_nonempty _ _ (conj Hap1 Hap2)) as [Hks Hkd].
  assert (Hid : filter (fun '(k', _) => under (elements newpath) k' = false) (fs w) = fs w).
  { apply map_filter_id. intros q x Hq.
    destruct (under (elements newpath) q) eqn:E; [|reflexivity].
    apply under_spec in E as [r ->]. rewrite Hfree in Hq. discriminate. }
  eexists. split; [|split; [|split; [|split]]].
  - unfold Rename. rewrite !key_abs by assumption. rewrite Hl, Hc.
    rewrite bool_decide_eq_false_2.
    2:{ intros E. rewrite E, under_refl in Hap1. discriminate. }
    rewrite Hap1, node_at_lookup by exact Hkd.
    pose proof (Hfree []) as H0. rewrite app_nil_r in H0. rewrite H0. reflexivity.
  - reflexivity.
  - reflexivity.
  - reflexivity.
  - intros q. cbn [set_fs fs]. rewrite Hid. apply move_tree_lookup.
    intros k x Hk. destruct (under (elements newpath) k) eqn:E; [|reflexivity].
    apply under_spec in E as [r ->]. rewrite Hfree in Hk. discriminate.
Qed.

Lemma apart_siblings (k : list string) x y : x <> y -> apart (k ++ [x]) (k ++ [y]).
Proof.
  intros Hxy. split.
  - destruct (under (k ++ [x]) (k ++ [y])) eqn:E; [|reflexivity].
    apply under_spec in E as [r E]. rewrite <- app_assoc in E. apply app_inv_head in E.
    inversion E. congruence.
  - destruct (under (k ++ [y]) (k ++ [x])) eqn:E; [|reflexivity].
    apply under_spec in E as [r E]. rewrite <- app_assoc in E. apply app_inv_head in E.
    inversion E. congruence.
Qed.

(** [lstat] sees the same where the key and what leads to it are the
    same. *)
Lemma lstat_key_same (m m' : gmap (list string) node) k :
  (forall i, m' !! take i k = m !! take i k) -> lstat_key m' k = lstat_key m k.
Proof.
  intros H. unfold lstat_key.
  assert (Hn : forall i, node_at m' (take i k) = node_at m (take i k)).
  { intros i. unfold node_at. destruct (take i k) eqn:E; [reflexivity|]. rewrite <- E. apply H. }
  rewrite (check_dirs_ext m' m [] k) by (intros i _; apply Hn).
  pose proof (Hn (length k)) as Hk. rewrite firstn_all in Hk. now rewrite Hk.
Qed.

Section Swap.
Variable git : Git.

(** [moveWorktree] where [git worktree move] succeeds. *)
Lemma moveWorktree_moves source destination bareRepoRoot w n :
  snd (git_worktree_move git source destination) = None ->
  IsAbs source = true -> IsAbs destination = true ->
  lstat_key (fs w) (elements source) = Ok n ->
  check_dirs (fs w) [] (elements destination) = None ->
  apart (elements source) (elements destination) ->
  (forall r, fs w !! (elements destination ++ r) = None) ->
  exists w',
    moveWorktree git source destination bareRepoRoot w = (Ok tt, w')
    /\ cwd w' = cwd w /\ umask w' = umask w /\ stdout w' = stdout w
    /\ forall q, fs w' !! q
                 = if under (elements destination) q
                   then fs w !! (elements source ++ drop (length (elements destination)) q)
                   else if under (elements source) q then None else fs w !! q.
Proof.
  intros Hgit Hs Hd Hl Hc Hap Hfree.
  destruct (Rename_moves source destination w n Hs Hd Hl Hc Hap Hfree)
    as (w' & Hren & H1 & H2 & H3 & H4).
  exists w'. split; [|repeat split; assumption].
  unfold moveWorktree. destruct (git_worktree_move git source destination) as [out err].
  cbn [snd] in Hgit. subst err. unfold git_moved. now rewrite Hren.
Qed.

(** The first part of [switch] where the workspace holds the worktree
    of a branch and its place in [tree/] is free: the workspace is
    moved there. *)
Lemma switch_vacate_parks (cur_out root loc : string) (w : World) (mws mt : Z) :
  let sc := sanitizeBranchName (TrimSpace cur_out) in
  let ws := Join root "workspace" in
  let treeDir := Join root "tree" in
  let parked := Join treeDir sc in
  detectLocation git w = Ok (root, loc) ->
  IsAbs root = true ->
  git_output git (Some ws) ["branch"; "--show-current"] = Ok cur_out ->
  TrimSpace cur_out <> ""%string ->
  proper sc ->
  lstat_key (fs w) (elements ws) = Ok (Directory mws) ->
  lstat_key (fs w) (elements treeDir) = Ok (Directory mt) ->
  (forall r, fs w !! (elements parked ++ r) = None) ->
  snd (git_worktree_move git ws parked) = None ->
  exists w1,
    switch_vacate git w = (Ok (root, loc, ws, treeDir), w1)
    /\ forall q, fs w1 !! q
                 = if under (elements parked) q
                   then fs w !! (elements ws ++ drop (length (elements parked)) q)
                   else if under (elements ws) q then None else fs w !! q.
Proof.
  intros sc ws treeDir parked Hdet Hroot Hcur Hne Hsc Hws Htree Hfree Hgit.
  assert (Pw : proper "workspace") by (split; [reflexivity|repeat split; discriminate]).
  assert (Pt : proper "tree") by (split; [reflexivity|repeat split; discriminate]).
  assert (Aws : IsAbs ws = true) by now apply IsAbs_Join.
  assert (At : IsAbs treeDir = true) by now apply IsAbs_Join.
  assert (Ap : IsAbs parked = true) by now apply IsAbs_Join.
  assert (Ews : elements ws = elements root ++ ["workspace"]) by now apply elements_Join_name.
  assert (Et : elements treeDir = elements root ++ ["tree"]) by now apply elements_Join_name.
  assert (Ep : elements parked = (elements root ++ ["tree"]) ++ [sc]).
  { unfold parked. rewrite elements_Join_name by assumption. now rewrite Et. }
  assert (Hr : exists m0, lstat_key (fs w) (elements root) = Ok (Directory m0)).
  { rewrite Ews in Hws. now apply lstat_key_parent in Hws. }
  destruct Hr as [m0 Hr].
  set (wc := mkWorld (fs w) (key_path (key w root)) (umask w) (stdout w)).
  assert (Hch : Chdir root w = Ok wc).
  { unfold Chdir. rewrite key_abs by exact Hroot.
    rewrite (follow_plain _ _ _ _ Hr eq_refl). unfold wc. now rewrite key_abs by exact Hroot. }
  assert (Hst : Stat ws wc = Ok (Directory mws)).
  { unfold Stat. rewrite key_abs by exact Aws. cbn [wc fs].
    now rewrite (follow_plain _ _ _ _ Hws eq_refl). }
  assert (Hmk : MkdirAll treeDir 493 wc = Ok wc).
  { rewrite (MkdirAll_exists _ _ _ mt); [now rewrite set_fs_same|].
    unfold Lstat. now rewrite key_abs by exact At. }
  destruct (free_not_found parked wc Ap) as [e He].
  { rewrite Ep. destruct (elements root); discriminate. }
  { specialize (Hfree []). now rewrite app_nil_r in Hfree. }
  set (line := ("Moving current workspace (" ++ TrimSpace cur_out ++ ") to tree/"
                ++ sc ++ "..." ++ String "010" "")%string).
  assert (Hap : apart (elements ws) (elements parked)).
  { rewrite Ews, Ep. rewrite <- (app_nil_r (elements root ++ ["workspace"])).
    apply apart_app. apply apart_siblings. discriminate. }
  destruct (moveWorktree_moves ws parked root (print line wc) (Directory mws) Hgit Aws Ap)
    as (w1 & Hmv & _ & _ & _ & Hfs).
  - exact Hws.
  - cbn [print wc fs]. rewrite Ep. eapply lstat_key_child_dirs. rewrite <- Et. exact Htree.
  - exact Hap.
  - exact Hfree.
  - exists w1. split; [|exact Hfs].
    unfold switch_vacate. rewrite Hdet, Hch. fold ws treeDir. rewrite Hst.
    unfold getCurrentBranch. rewrite Hcur, Hmk.
    apply String.eqb_neq in Hne. rewrite Hne. fold sc. fold parked. rewrite He.
    unfold bind, Printf, ret. rewrite wrap_run. fold line. rewrite Hmv. reflexivity.
Qed.

(** The second part of [switch] where the target's worktree is parked
    in [tree/] and the workspace is free: it is moved to the
    workspace. *)
Lemma switch_occupy_moves (target root loc : string) (w1 : World) (mst : Z) :
  let st := sanitizeBranchName target in
  let ws := Join root "workspace" in
  let treeDir := Join root "tree" in
  let slot := Join treeDir st in
  IsAbs root = true -> proper st ->
  lstat_key (fs w1) (elements slot) = Ok (Directory mst) ->
  check_dirs (fs w1) [] (elements ws) = None ->
  (forall r, fs w1 !! (elements ws ++ r) = None) ->
  snd (git_worktree_move git slot ws) = None ->
  exists w2,
    switch_occupy git target root loc ws treeDir w1 = (Ok tt, w2)
    /\ forall q, fs w2 !! q
                 = if under (elements ws) q
                   then fs w1 !! (elements slot ++ drop (length (elements ws)) q)
                   else if under (elements slot) q then None else fs w1 !! q.
Proof.
  intros st ws treeDir slot Hroot Hst Hslot Hc Hfree Hgit.
  assert (Pw : proper "workspace") by (split; [reflexivity|repeat split; discriminate]).
  assert (Pt : proper "tree") by (split; [reflexivity|repeat split; discriminate]).
  assert (Aws : IsAbs ws = true) by now apply IsAbs_Join.
  assert (At : IsAbs treeDir = true) by now apply IsAbs_Join.
  assert (As : IsAbs slot = true) by now apply IsAbs_Join.
  assert (Ews : elements ws = elements root ++ ["workspace"]) by now apply elements_Join_name.
  assert (Es : elements slot = (elements root ++ ["tree"]) ++ [st]).
  { unfold slot. rewrite elements_Join_name by assumption.
    unfold treeDir. now rewrite elements_Join_name by assumption. }
  set (line := ("Moving tree/" ++ st ++ " to workspace..." ++ String "010" "")%string).
  assert (Hap : apart (elements slot) (elements ws)).
  { apply apart_sym. rewrite Ews, Es. rewrite <- (app_nil_r (elements root ++ ["workspace"])).
    apply apart_app. apply apart_siblings. discriminate. }
  destruct (moveWorktree_moves slot ws root (print line w1) (Directory mst) Hgit As Aws
              Hslot Hc Hap Hfree)
    as (w2 & Hmv & _ & _ & _ & Hfs).
  assert (Hstat : Stat slot w1 = Ok (Directory mst)).
  { unfold Stat. rewrite key_abs by exact As. now rewrite (follow_plain _ _ _ _ Hslot eq_refl). }
  destruct (String.eqb loc "workspace") eqn:El.
  - eexists. split.
    + unfold switch_occupy. fold st. fold treeDir. fold slot. rewrite Hstat.
      unfold bind, Printf, ret. rewrite wrap_run. fold line. rewrite Hmv. cbn [fst snd].
      rewrite El. reflexivity.
    + intros q. cbn [print fs]. apply Hfs.
  - eexists. split.
    + unfold switch_occupy. fold st. fold treeDir. fold slot. rewrite Hstat.
      unfold bind, Printf, ret. rewrite wrap_run. fold line. rewrite Hmv. cbn [fst snd].
      rewrite El. reflexivity.
    + intros q. cbn [print fs]. apply Hfs.
Qed.


(** What [git worktree add] leaves: the tree checked out at the path. *)
Lemma prefixed_lookup (k : list string) (tree : gmap (list string) node) q :
  (list_to_map (map (fun '(r, n) => ((k ++ r)%list, n)) (map_to_list tree))
     : gmap (list string) node) !! q
  = if under k q then tree !! drop (length k) q else None.
Proof.
  assert (Hin : forall n,
            In (q, n) (map (fun '(r, n) => ((k ++ r)%list, n)) (map_to_list tree))
            <-> (if under k q then tree !! drop (length k) q else None) = Some n).
  { intros n. rewrite in_map_iff. split.
    - intros ([r x] & E & Hr). inversion E; subst.
      apply list_elem_of_In, elem_of_map_to_list in Hr.
      now rewrite under_app, drop_app_length.
    - intros H. destruct (under k q) eqn:E; [|discriminate].
      exists (drop (length k) q, n). split.
      + now rewrite under_take_drop.
      + now apply list_elem_of_In, elem_of_map_to_list. }
  apply option_eq. intros n. split.
  - intros H. apply elem_of_list_to_map_2, list_elem_of_In in H. now apply Hin.
  - intros H. apply elem_of_list_to_map_1'.
    + intros y Hy. apply list_elem_of_In, Hin in Hy. congruence.
    + now apply list_elem_of_In, Hin.
Qed.

Lemma git_added_lookup (path : string) (tree : gmap (list string) node) (w : World)
    (m : gmap (list string) node) (q : list string) :
  mkdir_all root_mode (fs w) [] (key w path) = Ok m ->
  fs (git_added path tree w) !! q
  = match (if under (key w path) q then tree !! drop (length (key w path)) q else None) with
    | Some n => Some n
    | None => m !! q
    end.
Proof.
  intros H. unfold git_added. rewrite H. cbn [set_fs fs].
  rewrite lookup_union, prefixed_lookup.
  destruct (if under (key w path) q then tree !! drop (length (key w path)) q else None);
    destruct (m !! q); reflexivity.
Qed.

(** [checkout] to a free place of [tree/]. *)
Lemma checkout_creates (commitish : string) (w : World) (tree : gmap (list string) node) :
  let treeDir := Join (cwd w) "tree" in
  let slot := Join treeDir (checkout_dirName commitish) in
  git_output git None ["rev-parse"; "--is-bare-repository"] = Ok ("true" ++ String "010" "")%string ->
  IsAbs (cwd w) = true ->
  proper (checkout_dirName commitish) ->
  free_way (fs w) (elements slot) = true ->
  (forall r, fs w !! (elements slot ++ r) = None) ->
  git_worktree_add git slot commitish = Ok tree ->
  tree !! [] = None ->
  exists w1,
    checkoutCmd git commitish w = (Ok tt, w1)
    /\ cwd w1 = cwd w
    /\ fs w ⊆ fs w1
    /\ lstat_key (fs w1) (elements slot) = Ok (Directory root_mode)
    /\ (forall r, r <> [] -> fs w1 !! (elements slot ++ r) = tree !! r)
    /\ (forall q, under (elements slot) q = false ->
          fs w1 !! q = fs w !! q
          \/ (fs w !! q = None /\ exists i, q = take i (elements treeDir))).
Proof.
  intros treeDir slot Hbare Hcwd Hd Hway Hfree Hadd Hroot.
  assert (Pt : proper "tree") by (split; [reflexivity|repeat split; discriminate]).
  assert (At : IsAbs treeDir = true) by now apply IsAbs_Join.
  assert (As : IsAbs slot = true) by now apply IsAbs_Join.
  assert (Et : elements treeDir = elements (cwd w) ++ ["tree"]) by now apply elements_Join_name.
  assert (Es : elements slot = elements treeDir ++ [checkout_dirName commitish])
    by now apply elements_Join_name.
  rewrite Es in Hway, Hfree.
  destruct (MkdirAll_parent treeDir 493 w (elements treeDir) (checkout_dirName commitish))
    as (wm & Hmk & Hcwd1 & Hu1 & Hout1 & Hsub & Hch & Hcd); [now apply key_abs|exact Hway|].
  assert (Hsame : forall r, fs wm !! ((elements treeDir ++ [checkout_dirName commitish]) ++ r)
                            = None).
  { intros r. destruct (Hch ((elements treeDir ++ [checkout_dirName commitish]) ++ r))
      as [H|(_ & _ & i & Hi & Hq)]; [rewrite H; apply Hfree|].
    apply (f_equal (@length string)) in Hq.
    rewrite !length_app, length_take in Hq. cbn [length] in Hq. lia. }
  destruct (free_not_found slot wm As) as [e He].
  { rewrite Es. destruct (elements treeDir); discriminate. }
  { rewrite Es. specialize (Hsame []). now rewrite app_nil_r in Hsame. }
  set (line := ("Creating worktree for '" ++ commitish ++ "' at " ++ slot ++ "..."
                ++ String "010" "")%string).
  assert (Hm : mkdir_all root_mode (fs (print line wm)) [] (key (print line wm) slot)
               = Ok (<[elements slot := Directory root_mode]> (fs wm))).
  { rewrite key_abs by exact As. cbn [print fs]. rewrite Es.
    rewrite <- (app_nil_l (elements treeDir ++ [checkout_dirName commitish])) at 2.
    apply mkdir_all_fresh.
    - destruct (elements treeDir); discriminate.
    - exact Hcd.
    - specialize (Hsame []). now rewrite app_nil_r in Hsame. }
  set (w1 := print ("Successfully created worktree at " ++ slot ++ String "010" "")%string
               (git_added slot tree (print line wm))).
  assert (Hfs : forall q, fs w1 !! q
                  = match (if under (elements slot) q
                           then tree !! drop (length (elements slot)) q else None) with
                    | Some n => Some n
                    | None => <[elements slot := Directory root_mode]> (fs wm) !! q
                    end).
  { intros q. unfold w1. cbn [print fs]. rewrite (git_added_lookup _ _ _ _ _ Hm).
    now rewrite key_abs by exact As. }
  exists w1. split; [|split; [|split; [|split; [|split]]]].
  - unfold checkoutCmd, Getwd. rewrite Hbare. cbn [negb String.eqb Ascii.eqb Bool.eqb].
    fold treeDir. rewrite Hmk. fold slot. rewrite He.
    unfold bind, Printf. rewrite wrap_run. fold line.
    unfold createWorktree. rewrite Hadd. reflexivity.
  - unfold w1. cbn [print cwd]. unfold git_added. cbn [set_fs cwd print]. exact Hcwd1.
  - apply map_subseteq_spec. intros q x Hq. rewrite Hfs.
    assert (Hu : under (elements slot) q = false).
    { destruct (under (elements slot) q) eqn:E; [|reflexivity].
      apply under_spec in E as [r ->]. rewrite Es, Hfree in Hq. discriminate. }
    rewrite Hu. rewrite lookup_insert_ne.
    + eapply lookup_weaken; eassumption.
    + intros E. rewrite <- E, under_refl in Hu. discriminate.
  - unfold lstat_key. rewrite (check_dirs_ext (fs w1) (fs wm) [] (elements slot)).
    + rewrite Es, Hcd. rewrite node_at_lookup by (destruct (elements treeDir); discriminate).
      rewrite <- Es, Hfs, under_refl, drop_all, Hroot. now rewrite lookup_insert_eq.
    + intros i Hi. cbn [app]. unfold node_at.
      destruct (take i (elements slot)) eqn:E; [reflexivity|]. rewrite <- E, Hfs.
      rewrite under_take_lt by exact Hi. rewrite lookup_insert_ne; [reflexivity|].
      intros E'. apply (f_equal (@length string)) in E'. rewrite length_take in E'. lia.
  - intros r Hr. rewrite Hfs, under_app, drop_app_length.
    destruct (tree !! r) eqn:E; [reflexivity|]. rewrite lookup_insert_ne.
    + rewrite Es. apply Hsame.
    + intros E'. rewrite <- (app_nil_r (elements slot)) in E' at 1.
      apply app_inv_head in E'. congruence.
  - intros q Hq. rewrite Hfs, Hq. rewrite lookup_insert_ne.
    2:{ intros E. rewrite <- E, under_refl in Hq. discriminate. }
    destruct (Hch q) as [H|(H1 & H2 & i & Hi & ->)]; [now left|].
    right. split; [exact H1|]. now exists i.
Qed.

(** X15.  [checkout c] in the bare repository, for a name that is
    valid UTF-8 and gives one path element, with free places in
    [tree/] and at [workspace], followed by [switch c]: both commands
    succeed, [switch] finds the worktree [checkout] made, under the
    same name, and moves it: the workspace then holds the tree git
    checked out, and [tree/<name>] is gone. *)
Theorem checkout_then_switch (commitish gitDir : string) (w : World)
    (tree : gmap (list string) node) (m0 : Z) :
  let root := cwd w in
  let ws := Join root "workspace" in
  let slot := Join (Join root "tree") (sanitizeBranchName commitish) in
  git_output git None ["rev-parse"; "--git-dir"] = Ok gitDir ->
  git_output git None ["rev-parse"; "--is-bare-repository"] = Ok ("true" ++ String "010" "")%string ->
  IsAbs root = true ->
  Lstat root w = Ok (Directory m0) ->
  ValidString commitish = true -> commitish <> "/"%string ->
  proper (sanitizeBranchName commitish) ->
  free_way (fs w) (elements slot) = true ->
  (forall r, fs w !! (elements slot ++ r) = None) ->
  (forall r, fs w !! (elements ws ++ r) = None) ->
  git_worktree_add git slot commitish = Ok tree ->
  tree !! [] = None ->
  snd (git_worktree_move git slot ws) = None ->
  exists w1 w2,
    checkoutCmd git commitish w = (Ok tt, w1)
    /\ switchCmd git commitish w1 = (Ok tt, w2)
    /\ fs w2 !! elements ws = Some (Directory root_mode)
    /\ (forall r, r <> [] -> fs w2 !! (elements ws ++ r) = tree !! r)
    /\ (forall r, fs w2 !! (elements slot ++ r) = None).
Proof.
  intros root ws slot Hgd Hbare Hroot Hl HV Hns Hd Hway Hfree Hfws Hadd Htree Hmove.
  assert (Pw : proper "workspace") by (split; [reflexivity|repeat split; discriminate]).
  assert (Pt : proper "tree") by (split; [reflexivity|repeat split; discriminate]).
  assert (Aws : IsAbs ws = true) by now apply IsAbs_Join.
  assert (At : IsAbs (Join root "tree") = true) by now apply IsAbs_Join.
  assert (As : IsAbs slot = true) by now apply IsAbs_Join.
  assert (Ews : elements ws = elements root ++ ["workspace"]) by now apply elements_Join_name.
  assert (Et : elements (Join root "tree") = elements root ++ ["tree"])
    by now apply elements_Join_name.
  assert (Es : elements slot = (elements root ++ ["tree"]) ++ [sanitizeBranchName commitish]).
  { unfold slot. rewrite elements_Join_name by assumption. now rewrite Et. }
  assert (Ed : checkout_dirName commitish = sanitizeBranchName commitish)
    by now apply checkout_dirName_sanitize.
  assert (A2 : apart (elements ws) (elements slot)).
  { rewrite Ews, Es. rewrite <- (app_nil_r (elements root ++ ["workspace"])).
    apply apart_app. apply apart_siblings. discriminate. }
  unfold Lstat in Hl. rewrite key_abs in Hl by exact Hroot.
  destruct (checkout_creates commitish w tree) as (w1 & Hco & Hcwd & Hsub & Hls & Hin & Hfr);
    try (rewrite Ed; assumption); try assumption.
  rewrite Ed in Hls, Hin, Hfr. fold root slot in Hls, Hin, Hfr.
  assert (Hr1 : lstat_key (fs w1) (elements root) = Ok (Directory m0))
    by (eapply lstat_key_mono; eassumption).
  assert (Hfws1 : forall r, fs w1 !! (elements ws ++ r) = None).
  { intros r. destruct A2 as [Ha Hb].
    destruct (Hfr (elements ws ++ r) (under_false_app _ _ r Hb Ha)) as [H|(_ & i & Hq)].
    - rewrite H. apply Hfws.
    - exfalso. rewrite Ews, Et in Hq.
      assert (Hi : (length (elements root) < i)%nat).
      { apply (f_equal (@length string)) in Hq.
        rewrite length_take, !length_app in Hq. cbn [length] in Hq. lia. }
      apply (f_equal (fun l => l !! length (elements root))) in Hq.
      rewrite <- app_assoc in Hq. rewrite lookup_app_r in Hq by lia.
      rewrite Nat.sub_diag in Hq. cbn in Hq.
      rewrite lookup_take_lt in Hq by lia.
      rewrite lookup_app_r in Hq by lia. rewrite Nat.sub_diag in Hq. cbn in Hq. discriminate. }
  set (wc := mkWorld (fs w1) (key_path (key w1 root)) (umask w1) (stdout w1)).
  assert (Hch : Chdir root w1 = Ok wc).
  { unfold Chdir. rewrite key_abs by exact Hroot.
    rewrite (follow_plain _ _ _ _ Hr1 eq_refl). unfold wc. now rewrite key_abs by exact Hroot. }
  destruct (free_not_found ws wc Aws) as [e He].
  { rewrite Ews. destruct (elements root); discriminate. }
  { specialize (Hfws1 []). now rewrite app_nil_r in Hfws1. }
  assert (Hmk : MkdirAll (Join root "tree") 493 wc = Ok wc).
  { pose proof Hls as Hp. rewrite Es in Hp. apply lstat_key_parent in Hp as [mt Hp].
    rewrite (MkdirAll_exists _ _ _ mt); [now rewrite set_fs_same|].
    unfold Lstat. rewrite key_abs by exact At. now rewrite Et. }
  assert (Hvac : switch_vacate git w1 = (Ok (root, "bare-root"%string, ws, Join root "tree"), wc)).
  { unfold switch_vacate, detectLocation, Getwd. rewrite Hgd, Hbare.
    change (String.eqb (TrimSpace ("true" ++ String "010" "")) "true") with true.
    cbv iota. rewrite Hcwd. fold root. rewrite Hch. fold ws. rewrite He, Hmk. reflexivity. }
  destruct (switch_occupy_moves commitish root "bare-root" wc root_mode Hroot Hd)
    as (w2 & Hocc & Hfs2).
  - exact Hls.
  - fold ws. rewrite Ews. eapply lstat_key_child_dirs. exact Hr1.
  - exact Hfws1.
  - exact Hmove.
  - fold ws slot in Hocc, Hfs2. cbn [wc fs] in Hfs2.
    exists w1, w2. split; [exact Hco|]. split; [|split; [|split]].
    + unfold switchCmd, bind. rewrite Hvac. exact Hocc.
    + rewrite Hfs2, under_refl, drop_all, app_nil_r.
      apply lstat_key_node in Hls. rewrite node_at_lookup in Hls; [exact Hls|].
      rewrite Es. destruct (elements root); discriminate.
    + intros r Hr. rewrite Hfs2, under_app, drop_app_length. now apply Hin.
    + intros r. rewrite Hfs2. destruct A2 as [Ha Hb].
      now rewrite (under_false_app _ _ r Ha Hb), under_app.
Qed.

End Swap.

Import Example.


Lemma checkout_then_switch_witness :
  exists w1 w2,
    checkoutCmd git_bare "feature/x" empty_bare_world = (Ok tt, w1)
    /\ switchCmd git_bare "feature/x" w1 = (Ok tt, w2)
    /\ fs w2 !! ["b"; "workspace"; "README"] = Some (File "wtm" 420)
    /\ fs w2 !! ["b"; "tree"; "feature-x"] = None.
Proof.
  destruct (checkout_then_switch git_bare "feature/x" ("." ++ nl) empty_bare_world
              {[ ["README"] := File "wtm" 420 ]} 493)
    as (w1 & w2 & Hco & Hsw & _ & Hin & Hgone).
  - reflexivity.
  - reflexivity.
  - reflexivity.
  - vm_compute. reflexivity.
  - vm_compute. reflexivity.
  - discriminate.
  - proper_name.
  - vm_compute. reflexivity.
  - apply free_at_spec. vm_compute. reflexivity.
  - apply free_at_spec. vm_compute. reflexivity.
  - reflexivity.
  - reflexivity.
  - reflexivity.
  - exists w1, w2. split; [exact Hco|]. split; [exact Hsw|].
    split; [exact (Hin ["README"] ltac:(discriminate))|exact (Hgone [])].
Defined.

Local Open Scope string_scope.
Local Open Scope Z_scope.

(** ** Listing the store *)

Local Open Scope list_scope.

Lemma plain_tree_sub (m : gmap (list string) node) k name :
  plain_tree m k -> plain_tree m (k ++ [name]).
Proof.
  intros H r n Hn. rewrite <- app_assoc in Hn. cbn [app] in Hn.
  destruct (H _ _ Hn) as (H1 & H2 & H3). split; [exact H1|].
  split; [now inversion H2|]. intros i Hi.
  destruct (H3 (S i)) as [mode Hm]; [cbn [length]; lia|].
  exists mode. rewrite <- app_assoc. exact Hm.
Qed.

Lemma shallower_sub (depth : nat) (m : gmap (list string) node) k name :
  shallower (S depth) m k -> shallower depth m (k ++ [name]).
Proof.
  intros H r n Hn. rewrite <- app_assoc in Hn. apply H in Hn. cbn [app length] in Hn. lia.
Qed.

(** A path in the store and the same path made step by step. *)
Lemma Join_step sharedDir path names0 name :
  IsAbs sharedDir = true -> IsAbs path = true ->
  elements path = elements sharedDir ++ names0 ->
  Forall proper names0 -> proper name ->
  Join path name = Join sharedDir (join_slash (names0 ++ [name])).
Proof.
  intros Hs Hp He Hn Hname.
  rewrite (Join_key_path path name) by exact Hp.
  rewrite (Join_key_path sharedDir _) by exact Hs.
  rewrite elements_Join_name by assumption.
  rewrite elements_Join_names.
  - now rewrite He, app_assoc.
  - exact Hs.
  - apply Forall_app; split; [exact Hn|]. constructor; [exact Hname|constructor].
  - destruct names0; discriminate.
Qed.

Lemma Join_names_neq sharedDir names0 :
  IsAbs sharedDir = true -> Forall proper names0 -> names0 <> [] ->
  String.eqb (Join sharedDir (join_slash names0)) sharedDir = false.
Proof.
  intros Hs Hn Hne. apply String.eqb_neq. intros E.
  apply (f_equal elements) in E. rewrite elements_Join_names in E by assumption.
  rewrite <- (app_nil_r (elements sharedDir)) in E at 2. apply app_inv_head in E. congruence.
Qed.

Section ListStore.
Variable sharedDir : string.
Hypothesis Hshared : IsAbs sharedDir = true.

Section Names.
Variable depth' : nat.

(** The walk of an entry, assumed for the entries of a directory. *)
Hypothesis IH :
  forall names0 info count w,
    names0 <> [] -> Forall proper names0 ->
    lstat_key (fs w) (elements sharedDir ++ names0) = Ok info ->
    plain_tree (fs w) (elements sharedDir ++ names0) ->
    shallower depth' (fs w) (elements sharedDir ++ names0) ->
    (forall r data mode, fs w !! ((elements sharedDir ++ names0) ++ r) = Some (File data mode) ->
       Z.of_nat (String.length data) < 2 ^ 63) ->
    exists w' lines,
      walk depth' (Join sharedDir (join_slash names0)) info (list_walkFn sharedDir) count w
        = (Continue, (count + length lines)%nat, w')
      /\ fs w' = fs w /\ cwd w' = cwd w /\ umask w' = umask w
      /\ stdout w' = stdout w ++ lines
      /\ (forall r n, fs w !! ((elements sharedDir ++ names0) ++ r) = Some n ->
            exists l, list_line (join_slash (names0 ++ r)) n = Some l /\ In l lines)
      /\ (forall l, In l lines ->
            exists r n, fs w !! ((elements sharedDir ++ names0) ++ r) = Some n
                        /\ list_line (join_slash (names0 ++ r)) n = Some l).

Lemma walk_names_lists path names0 mode :
  IsAbs path = true -> elements path = elements sharedDir ++ names0 ->
  Forall proper names0 ->
  forall names count w,
    (forall name, In name names ->
       proper name /\ exists n, fs w !! ((elements sharedDir ++ names0) ++ [name]) = Some n) ->
    lstat_key (fs w) (elements sharedDir ++ names0) = Ok (Directory mode) ->
    plain_tree (fs w) (elements sharedDir ++ names0) ->
    shallower (S depth') (fs w) (elements sharedDir ++ names0) ->
    (forall r data mode, fs w !! ((elements sharedDir ++ names0) ++ r) = Some (File data mode) ->
       Z.of_nat (String.length data) < 2 ^ 63) ->
    exists w' lines,
      walk_names (walk depth') path (list_walkFn sharedDir) names count w
        = (Continue, (count + length lines)%nat, w')
      /\ fs w' = fs w /\ cwd w' = cwd w /\ umask w' = umask w
      /\ stdout w' = stdout w ++ lines
      /\ (forall name r n, In name names ->
            fs w !! ((elements sharedDir ++ names0) ++ name :: r) = Some n ->
            exists l, list_line (join_slash (names0 ++ name :: r)) n = Some l /\ In l lines)
      /\ (forall l, In l lines ->
            exists r n, r <> [] /\ fs w !! ((elements sharedDir ++ names0) ++ r) = Some n
                        /\ list_line (join_slash (names0 ++ r)) n = Some l).
Proof.
  intros Hp He Hn0. induction names as [|name rest IHn]; intros count w Hnames Hdir Hplain Hdepth Hsize.
  - exists w, []. cbn [walk_names length]. rewrite Nat.add_0_r, app_nil_r.
    repeat split; try reflexivity.
    + intros name r n [].
    + intros l [].
  - destruct (Hnames name (or_introl eq_refl)) as (Hname & child & Hchild).
    assert (Hstep : Join path name = Join sharedDir (join_slash (names0 ++ [name])))
      by now apply Join_step.
    assert (Hl : Lstat (Join path name) w = Ok child).
    { unfold Lstat. rewrite key_Join_name by assumption. rewrite He.
      eapply lstat_key_child; eassumption. }
    assert (Hl' : lstat_key (fs w) (elements sharedDir ++ names0 ++ [name]) = Ok child).
    { rewrite app_assoc. eapply lstat_key_child; eassumption. }
    destruct (IH (names0 ++ [name]) child count w) as
      (w1 & l1 & Hrun1 & Hfs1 & Hcwd1 & Hu1 & Hout1 & Hc1 & Hs1).
    + destruct names0; discriminate.
    + apply Forall_app; split; [exact Hn0|]. constructor; [exact Hname|constructor].
    + exact Hl'.
    + rewrite app_assoc. now apply plain_tree_sub.
    + rewrite app_assoc. now apply shallower_sub.
    + intros r data mode0 Hr. rewrite (app_assoc (elements sharedDir)) in Hr.
      rewrite <- app_assoc in Hr. eapply Hsize. exact Hr.
    + destruct (IHn (count + length l1)%nat w1) as
        (w2 & l2 & Hrun2 & Hfs2 & Hcwd2 & Hu2 & Hout2 & Hc2 & Hs2).
      * intros x Hx. rewrite Hfs1. apply Hnames. now right.
      * now rewrite Hfs1.
      * now rewrite Hfs1.
      * now rewrite Hfs1.
      * intros r data mode0. rewrite Hfs1. apply Hsize.
      * exists w2, (l1 ++ l2). split; [|split; [|split; [|split; [|split; [|split]]]]].
        -- cbn [walk_names]. rewrite Hl, Hstep, Hrun1, Hrun2.
           now rewrite length_app, Nat.add_assoc.
        -- congruence.
        -- congruence.
        -- congruence.
        -- rewrite Hout2, Hout1. now rewrite app_assoc.
        -- intros x r n [->|Hx] Hr.
           ++ destruct (Hc1 r n) as (l & Hline & Hin).
              { rewrite (app_assoc (elements sharedDir)), <- app_assoc. exact Hr. }
              exists l. split; [|apply in_or_app; now left].
              rewrite <- app_assoc in Hline. exact Hline.
           ++ rewrite <- Hfs1 in Hr. destruct (Hc2 x r n Hx Hr) as (l & Hline & Hin).
              exists l. split; [exact Hline|apply in_or_app; now right].
        -- intros l Hin. apply in_app_or in Hin as [Hin|Hin].
           ++ destruct (Hs1 l Hin) as (r & n & Hr & Hline).
              exists ([name] ++ r), n. split; [discriminate|].
              split.
              ** rewrite (app_assoc (elements sharedDir)), <- app_assoc in Hr. exact Hr.
              ** rewrite <- app_assoc in Hline. exact Hline.
           ++ destruct (Hs2 l Hin) as (r & n & Hne & Hr & Hline).
              exists r, n. rewrite Hfs1 in Hr. now repeat split.
Qed.

End Names.

(** The walk of an entry of the store prints one line for it and one
    for every entry under it. *)
Lemma walk_lists depth :
  forall names0 info count w,
    names0 <> [] -> Forall proper names0 ->
    lstat_key (fs w) (elements sharedDir ++ names0) = Ok info ->
    plain_tree (fs w) (elements sharedDir ++ names0) ->
    shallower depth (fs w) (elements sharedDir ++ names0) ->
    (forall r data mode, fs w !! ((elements sharedDir ++ names0) ++ r) = Some (File data mode) ->
       Z.of_nat (String.length data) < 2 ^ 63) ->
    exists w' lines,
      walk depth (Join sharedDir (join_slash names0)) info (list_walkFn sharedDir) count w
        = (Continue, (count + length lines)%nat, w')
      /\ fs w' = fs w /\ cwd w' = cwd w /\ umask w' = umask w
      /\ stdout w' = stdout w ++ lines
      /\ (forall r n, fs w !! ((elements sharedDir ++ names0) ++ r) = Some n ->
            exists l, list_line (join_slash (names0 ++ r)) n = Some l /\ In l lines)
      /\ (forall l, In l lines ->
            exists r n, fs w !! ((elements sharedDir ++ names0) ++ r) = Some n
                        /\ list_line (join_slash (names0 ++ r)) n = Some l).
Proof.
  induction depth as [|depth' IHd]; intros names0 info count w Hne Hn0 Hl Hplain Hdepth Hsize.
  - apply lstat_key_node in Hl. rewrite node_at_lookup in Hl
      by (destruct (elements sharedDir), names0; discriminate || congruence).
    rewrite <- (app_nil_r (elements sharedDir ++ names0)) in Hl.
    apply Hdepth in Hl. cbn in Hl. lia.
  - set (path := Join sharedDir (join_slash names0)).
    assert (Hpath : IsAbs path = true) by now apply IsAbs_Join.
    assert (He : elements path = elements sharedDir ++ names0)
      by now apply elements_Join_names.
    assert (Hnode : fs w !! (elements sharedDir ++ names0) = Some info).
    { apply lstat_key_node in Hl. rewrite node_at_lookup in Hl; [exact Hl|].
      destruct (elements sharedDir), names0; discriminate || congruence. }
    assert (Hsym : is_symlink info = false).
    { rewrite <- (app_nil_r (elements sharedDir ++ names0)) in Hnode.
      now apply Hplain in Hnode. }
    assert (Hneq : String.eqb path sharedDir = false) by now apply Join_names_neq.
    assert (Hrel : Rel sharedDir path = Ok (join_slash names0)) by now apply Rel_Join_names.
    rewrite walk_eq. destruct info as [data fmode|mode|target]; [| |discriminate].
    + (* a regular file *)
      cbn [IsDir negb]. unfold list_walkFn. rewrite Hneq, Hrel.
      destruct (formatSize_some (Size (File data fmode))) as [size Hsz].
      { cbn [Size]. split; [lia|].
        eapply (Hsize []). rewrite app_nil_r. exact Hnode. }
      rewrite Hsz.
      exists (print ("  📄 " ++ join_slash names0 ++ " (" ++ size ++ ")" ++ String "010" "")%string w),
             [("  📄 " ++ join_slash names0 ++ " (" ++ size ++ ")" ++ String "010" "")%string].
      cbn [length]. rewrite Nat.add_1_r.
      split; [reflexivity|]. split; [reflexivity|]. split; [reflexivity|].
      split; [reflexivity|]. split; [reflexivity|]. split.
      * intros r n Hr. destruct r as [|x r].
        -- rewrite app_nil_r in *. assert (n = File data fmode) by congruence. subst n.
           eexists. split; [|now left]. unfold list_line. now rewrite Hsz.
        -- exfalso. destruct (Hplain _ _ Hr) as (_ & _ & H3).
           destruct (H3 0%nat) as [m Hm]; [cbn; lia|].
           cbn [take] in Hm. rewrite app_nil_r in Hm. congruence.
      * intros l [<-|[]]. exists [], (File data fmode). rewrite !app_nil_r.
        split; [exact Hnode|]. unfold list_line. now rewrite Hsz.
    + (* a directory *)
      cbn [IsDir negb].
      assert (HL : Lstat path w = Ok (Directory mode)).
      { unfold Lstat. rewrite key_abs by exact Hpath. now rewrite He. }
      destruct (ReadDir_entries path w mode HL) as (entries & Hrd & _ & Hent).
      rewrite key_abs, He in Hent by exact Hpath.
      unfold readDirNames. rewrite Hrd.
      unfold list_walkFn at 1. rewrite Hneq, Hrel. cbv iota beta.
      set (line := ("  📁 " ++ join_slash names0 ++ "/" ++ String "010" "")%string).
      destruct (walk_names_lists depth' IHd path names0 mode Hpath He Hn0
                  (map fst entries) (S count) (print line w))
        as (w2 & l2 & Hrun & Hfs2 & Hcwd2 & Hu2 & Hout2 & Hc2 & Hs2).
      * intros name Hin. apply in_map_iff in Hin as ([x n] & <- & Hin). cbn [fst print fs].
        apply list_elem_of_In, Hent in Hin. split; [|eauto].
        destruct (Hplain _ _ Hin) as (_ & H2 & _). now inversion H2.
      * exact Hl.
      * exact Hplain.
      * exact Hdepth.
      * exact Hsize.
      * exists w2, (line :: l2).
        split; [|split; [|split; [|split; [|split; [|split]]]]].
        -- rewrite Hrun. cbn [length]. now rewrite Nat.add_succ_r.
        -- exact Hfs2.
        -- exact Hcwd2.
        -- exact Hu2.
        -- rewrite Hout2. cbn [print stdout]. now rewrite <- app_assoc.
        -- intros r n Hr. destruct r as [|x r].
           ++ rewrite app_nil_r in *. assert (n = Directory mode) by congruence. subst n.
              exists line. split; [reflexivity|now left].
           ++ assert (Hx : exists n', fs w !! ((elements sharedDir ++ names0) ++ [x]) = Some n').
              { destruct r as [|y r]; [eauto|].
                destruct (Hplain _ _ Hr) as (_ & _ & H3).
                destruct (H3 1%nat) as [m Hm]; [cbn; lia|]. cbn [take] in Hm. eauto. }
              destruct Hx as [n' Hx].
              destruct (Hc2 x r n) as (l & Hline & Hin).
              { apply in_map_iff. exists (x, n'). split; [reflexivity|].
                now apply list_elem_of_In, Hent. }
              { exact Hr. }
              exists l. split; [exact Hline|now right].
        -- intros l [<-|Hin].
           ++ exists [], (Directory mode). rewrite !app_nil_r. split; [exact Hnode|reflexivity].
           ++ destruct (Hs2 l Hin) as (r & n & _ & Hr & Hline). eauto.
Qed.

End ListStore.

(** A walk changes of the world what its function changes. *)
Lemma walk_names_same {S : Type} (walkFn : WalkFunc S)
    (walk' : string -> node -> WalkFunc S -> S -> World -> walk_ctl * S * World) path :
  (forall path info err s w,
     fs (snd (walkFn path info err s w)) = fs w
     /\ cwd (snd (walkFn path info err s w)) = cwd w
     /\ umask (snd (walkFn path info err s w)) = umask w) ->
  (forall path info s w,
     fs (snd (walk' path info walkFn s w)) = fs w
     /\ cwd (snd (walk' path info walkFn s w)) = cwd w
     /\ umask (snd (walk' path info walkFn s w)) = umask w) ->
  forall names s w,
    fs (snd (walk_names walk' path walkFn names s w)) = fs w
    /\ cwd (snd (walk_names walk' path walkFn names s w)) = cwd w
    /\ umask (snd (walk_names walk' path walkFn names s w)) = umask w.
Proof.
  intros Hfn Hwalk. induction names as [|name rest IH]; intros s w; [now cbn|].
  cbn [walk_names]. destruct (Lstat (Join path name) w) as [info|e].
  - pose proof (Hwalk (Join path name) info s w) as H.
    destruct (walk' (Join path name) info walkFn s w) as [[c s1] w1]. cbn [snd] in H.
    destruct H as (H1 & H2 & H3).
    destruct c as [| |x].
    + destruct (IH s1 w1) as (I1 & I2 & I3). repeat split; congruence.
    + destruct (IsDir info).
      * destruct (IH s1 w1) as (I1 & I2 & I3). repeat split; congruence.
      * cbn [snd]. now repeat split.
    + cbn [snd]. now repeat split.
  - pose proof (Hfn (Join path name) None (Some e) s w) as H.
    destruct (walkFn (Join path name) None (Some e) s w) as [[c s1] w1]. cbn [snd] in H.
    destruct H as (H1 & H2 & H3).
    destruct c as [| |x].
    + destruct (IH s1 w1) as (I1 & I2 & I3). repeat split; congruence.
    + destruct (IH s1 w1) as (I1 & I2 & I3). repeat split; congruence.
    + cbn [snd]. now repeat split.
Qed.

Lemma walk_same {S : Type} (walkFn : WalkFunc S) :
  (forall path info err s w,
     fs (snd (walkFn path info err s w)) = fs w
     /\ cwd (snd (walkFn path info err s w)) = cwd w
     /\ umask (snd (walkFn path info err s w)) = umask w) ->
  forall depth path info s w,
    fs (snd (walk depth path info walkFn s w)) = fs w
    /\ cwd (snd (walk depth path info walkFn s w)) = cwd w
    /\ umask (snd (walk depth path info walkFn s w)) = umask w.
Proof.
  intros Hfn. induction depth as [|depth' IH]; intros path info s w; rewrite walk_eq.
  - destruct (negb (IsDir info)); [apply Hfn|]. cbv zeta.
    destruct (readDirNames path w) as [names|e].
    + pose proof (Hfn path (Some info) None s w) as H.
      destruct (walkFn path (Some info) None s w) as [[c s1] w1]. cbn [snd] in H.
      destruct c; cbn [snd]; exact H.
    + pose proof (Hfn path (Some info) (Some e) s w) as H.
      destruct (walkFn path (Some info) (Some e) s w) as [[c s1] w1]. cbn [snd] in H.
      exact H.
  - destruct (negb (IsDir info)); [apply Hfn|]. cbv zeta.
    destruct (readDirNames path w) as [names|e].
    + pose proof (Hfn path (Some info) None s w) as H.
      destruct (walkFn path (Some info) None s w) as [[c s1] w1]. cbn [snd] in H.
      destruct H as (H1 & H2 & H3).
      destruct c; cbn [snd]; try (now repeat split).
      destruct (walk_names_same walkFn (walk depth') path Hfn IH names s1 w1) as (I1 & I2 & I3).
      repeat split; congruence.
    + pose proof (Hfn path (Some info) (Some e) s w) as H.
      destruct (walkFn path (Some info) (Some e) s w) as [[c s1] w1]. cbn [snd] in H.
      exact H.
Qed.

Lemma list_walkFn_same sharedDir path info err count w :
  fs (snd (list_walkFn sharedDir path info err count w)) = fs w
  /\ cwd (snd (list_walkFn sharedDir path info err count w)) = cwd w
  /\ umask (snd (list_walkFn sharedDir path info err count w)) = umask w.
Proof.
  unfold list_walkFn. destruct err; [now cbn|].
  destruct (String.eqb path sharedDir); [now cbn|].
  destruct info as [[data m|m|t]|]; cbn [snd]; try (now repeat split).
  - destruct (formatSize (Size (File data m))); now cbn.
  - destruct (formatSize (Size (Link t))); now cbn.
Qed.

Section List.
Variable git : Git.

(** X16.  [persist list] reads: whatever the tree holds and
    whatever git answers, and whether it succeeds or fails, the tree,
    the working directory and the umask are after it as they were
    before. *)
Theorem persistList_read_only (w : World) :
  fs (snd (persistListCmd git w)) = fs w
  /\ cwd (snd (persistListCmd git w)) = cwd w
  /\ umask (snd (persistListCmd git w)) = umask w.
Proof.
  unfold persistListCmd. destruct (findRepoRoots git) as [[bareRepoRoot worktreeRoot]|e];
    [|now cbn].
  set (sharedDir := Join bareRepoRoot "shared").
  set (w0 := print (String "010" "") (print ("Persisted files in shared/:" ++ String "010" "") w)).
  assert (HW : fs (snd (Walk sharedDir (list_walkFn sharedDir) O w0)) = fs w
               /\ cwd (snd (Walk sharedDir (list_walkFn sharedDir) O w0)) = cwd w
               /\ umask (snd (Walk sharedDir (list_walkFn sharedDir) O w0)) = umask w).
  { unfold Walk. destruct (Lstat sharedDir w0) as [info|e].
    - pose proof (walk_same (list_walkFn sharedDir) (list_walkFn_same sharedDir)
                    max_depth sharedDir info O w0) as H.
      destruct (walk max_depth sharedDir info (list_walkFn sharedDir) 0%nat w0) as [[c s1] w1].
      cbn [snd] in H. destruct c; cbn [snd]; exact H.
    - pose proof (list_walkFn_same sharedDir sharedDir None (Some e) O w0) as H.
      destruct (list_walkFn sharedDir sharedDir None (Some e) 0%nat w0) as [[c s1] w1].
      cbn [snd] in H. destruct c; cbn [snd]; exact H. }
  destruct (Walk sharedDir (list_walkFn sharedDir) 0%nat w0) as [[err count] w1].
  cbn [snd] in HW.
  destruct (Stat sharedDir w) as [n|[]]; destruct err; try destruct count; now cbn.
Qed.


End List.

Import Example.


Local Open Scope string_scope.
Local Open Scope Z_scope.

(** ** Restoring as a link *)

Local Open Scope list_scope.

Lemma Dir_key_path p : IsAbs p = true -> Dir p = key_path (elements (Dir p)).
Proof.
  intros H. apply IsAbs_cons in H as [t ->]. unfold Dir.
  destruct (upto_last_slash_abs t) as [t' ->].
  rewrite elements_Clean by apply IsAbs_slash. apply Clean_abs, IsAbs_slash.
Qed.

Lemma follow_link (fuel : nat) (m : gmap (list string) node) (k : list string) (t : string) :
  lstat_key m k = Ok (Link t) -> follow (S fuel) m k = follow fuel m (link_key k t).
Proof. intros H. cbn [follow]. now rewrite H. Qed.

(** Where the link written by [restore --link] leads: to the entry of
    the store. *)
Lemma link_key_source a b source relLink :
  IsAbs a = true -> IsAbs source = true ->
  elements (Join a b) <> [] ->
  Rel (Dir (Join a b)) source = Ok relLink ->
  link_key (elements (Join a b)) relLink = elements source.
Proof.
  intros Ha Hs Hne Hrel.
  assert (Hd : IsAbs (Dir (Join a b)) = true) by now apply IsAbs_Dir, IsAbs_Join.
  destruct (Rel_contract (Dir (Join a b)) source Hd Hs) as (r & Hr & Hr1 & Hr2).
  rewrite Hrel in Hr. inversion Hr; subst r; clear Hr.
  unfold link_key, parent. rewrite Hr1.
  rewrite <- (elements_Dir_Join a b Ha Hne).
  rewrite <- Dir_key_path by now apply IsAbs_Join.
  apply (f_equal elements) in Hr2.
  rewrite (elements_Clean source Hs) in Hr2.
  rewrite Join_abs, elements_Clean in Hr2 by (try apply IsAbs_append; exact Hd).
  exact Hr2.
Qed.

Section Link.
Variable flags : Flags.

(** X18.  [restoreFile] with [--link] and no [--to], for an entry
    [P] of the store that is no link itself, where the worktree has
    nothing at [P], lies apart from the entry, and the way to [P] can
    be made: it succeeds; [P] in the worktree is a link; [os.Stat]
    through it finds the entry of the store, and [os.Open] opens the
    entry of the store itself, so that the worktrees share one file;
    every entry of the tree is as it was. *)
Theorem restore_link_shares (names : list string) (sharedDir worktreeRoot : string)
    (w : World) (entry : node) :
  let P := join_slash names in
  let source := Join sharedDir P in
  let dest := Join worktreeRoot P in
  restoreLink flags = true -> restoreTo flags = ""%string ->
  IsAbs sharedDir = true -> IsAbs worktreeRoot = true ->
  Forall proper names -> names <> [] ->
  Lstat source w = Ok entry -> is_symlink entry = false ->
  apart (elements source) (elements dest) ->
  free_way (fs w) (elements dest) = true ->
  (forall r, fs w !! (elements dest ++ r) = None) ->
  exists w' relLink,
    restoreFile flags P sharedDir worktreeRoot w = (Ok tt, w')
    /\ Lstat dest w' = Ok (Link relLink)
    /\ Stat dest w' = Ok entry
    /\ Open dest w' = Ok (elements source)
    /\ fs w ⊆ fs w'.
Proof.
  intros P source dest Hlink Hto Hs Hw Hn Hne Hsrc Hsym Hap Hway Hfree.
  assert (Hsabs : IsAbs source = true) by now apply IsAbs_Join.
  assert (Hdabs : IsAbs dest = true) by now apply IsAbs_Join.
  destruct (apart_nonempty _ _ Hap) as [Hks Hkd].
  destruct (exists_last Hkd) as (k & e & Ekd).
  assert (Hdir : elements (Dir dest) = k).
  { unfold dest. rewrite elements_Dir_Join by assumption. fold dest.
    rewrite Ekd. apply List.removelast_last. }
  destruct (MkdirAll_parent (Dir dest) 493 w k e) as
    (w1 & Hmk & Hcwd1 & Hu1 & Hout1 & Hsub & Hadd & Hcd1).
  { rewrite key_abs by now apply IsAbs_Dir. exact Hdir. }
  { rewrite <- Ekd. exact Hway. }
  assert (Hfree1 : forall r, fs w1 !! (elements dest ++ r) = None).
  { intros r. destruct (Hadd (elements dest ++ r)) as [H|(_ & _ & i & Hi & Hq)].
    - rewrite H. apply Hfree.
    - apply (f_equal (@length string)) in Hq. rewrite Ekd in Hq.
      rewrite !length_app, length_take in Hq. cbn [length] in Hq. lia. }
  destruct (free_not_found dest w Hdabs Hkd) as [e0 He].
  { specialize (Hfree []). now rewrite app_nil_r in Hfree. }
  destruct (Rel_contract (Dir dest) source) as (relLink & Hrel & _ & _);
    [now apply IsAbs_Dir|exact Hsabs|].
  set (line := ("Linking shared/" ++ P ++ " to " ++ P ++ "..." ++ String "010" "")%string).
  set (w2 := set_fs (print line w1) (<[elements dest := Link relLink]> (fs w1))).
  assert (Hrm : RemoveAll dest (print line w1) = print line w1).
  { apply RemoveAll_free. intros r. rewrite key_abs by exact Hdabs. cbn [print fs]. apply Hfree1. }
  assert (Hsymlink : Symlink relLink dest (print line w1) = Ok w2).
  { unfold Symlink. rewrite key_abs by exact Hdabs. cbn [print fs].
    rewrite Ekd, Hcd1, <- Ekd. rewrite node_at_lookup by exact Hkd.
    pose proof (Hfree1 []) as H0. rewrite app_nil_r in H0. now rewrite H0. }
  assert (Hsub2 : fs w ⊆ fs w2).
  { etransitivity; [exact Hsub|]. unfold w2. cbn [set_fs fs print].
    apply insert_subseteq. pose proof (Hfree1 []) as H0. now rewrite app_nil_r in H0. }
  assert (Hl2 : lstat_key (fs w2) (elements dest) = Ok (Link relLink)).
  { unfold w2. cbn [set_fs fs]. apply lstat_key_insert_self; [exact Hkd|].
    rewrite Ekd. exact Hcd1. }
  assert (Hs2 : lstat_key (fs w2) (elements source) = Ok entry).
  { unfold Lstat in Hsrc. rewrite key_abs in Hsrc by exact Hsabs.
    eapply lstat_key_mono; eassumption. }
  assert (Hfollow : follow max_links (fs w2) (elements dest) = Ok (elements source, entry)).
  { assert (Hlk : link_key (elements dest) relLink = elements source)
      by (apply link_key_source; assumption).
    change max_links with (S 39). rewrite (follow_link _ _ _ _ Hl2), Hlk.
    apply follow_plain; assumption. }
  exists (print ("Successfully restored to " ++ P ++ String "010" "")%string w2), relLink.
  split; [|split; [|split; [|split]]].
  - unfold restoreFile. fold source.
    rewrite (Lstat_Stat _ _ _ Hsrc Hsym).
    unfold restore_dest. rewrite Hto. cbn [String.eqb negb]. fold dest.
    rewrite He, Hlink.
    assert (HR : Rel worktreeRoot dest = Ok P) by (apply Rel_Join_names; assumption).
    rewrite HR.
    assert (Hbody :
      (wrap "error creating parent directories"
         (sys_w "mkdir" (Dir dest) (MkdirAll (Dir dest) 493)) ;;;
       Printf ("Linking" ++ " shared/" ++ P ++ " to " ++ P ++ "..." ++ String "010" "") ;;;
       ((fun w0 : World =>
           (Ok tt, if restoreForce flags then RemoveAll dest w0 else w0)) ;;;
        match Rel (Dir dest) source with
        | Ok relLink =>
          wrap "error creating symlink"
            (sys_w "symlink" (relLink ++ " " ++ dest) (Symlink relLink dest))
        | Err e => fail ("error calculating relative link path: " ++ e)
        end) ;;;
       Printf ("Successfully restored to " ++ P ++ String "010" "")) w
      = (Ok tt, print ("Successfully restored to " ++ P ++ String "010" "")%string w2)).
    { unfold bind, wrap, sys_w, Printf. rewrite Hmk.
      change ("Linking" ++ " shared/" ++ P ++ " to " ++ P ++ "..." ++ String "010" "")%string
        with line.
      assert (Hw1 : (if restoreForce flags then RemoveAll dest (print line w1)
                     else print line w1) = print line w1)
        by (destruct (restoreForce flags); [exact Hrm|reflexivity]).
      rewrite Hw1, Hrel, Hsymlink. reflexivity. }
    destruct (restoreForce flags); exact Hbody.
  - unfold Lstat. rewrite key_abs by exact Hdabs. exact Hl2.
  - unfold Stat. rewrite key_abs by exact Hdabs. cbn [print fs]. now rewrite Hfollow.
  - unfold Open. rewrite key_abs by exact Hdabs. cbn [print fs]. now rewrite Hfollow.
  - exact Hsub2.
Qed.

End Link.

Import Example.

Lemma restore_link_shares_witness :
  exists w' relLink,
    restoreFile (mkFlags true "" false false) ".env" "/b/shared" "/b/workspace" store_world
      = (Ok tt, w')
    /\ Lstat "/b/workspace/.env" w' = Ok (Link relLink)
    /\ Stat "/b/workspace/.env" w' = Ok (File "SECRET" 420)
    /\ Open "/b/workspace/.env" w' = Ok ["b"; "shared"; ".env"].
Proof.
  destruct (restore_link_shares (mkFlags true "" false false) [".env"] "/b/shared" "/b/workspace"
              store_world (File "SECRET" 420))
    as (w' & relLink & Hrun & H1 & H2 & H3 & _).
  - reflexivity.
  - reflexivity.
  - reflexivity.
  - reflexivity.
  - constructor; [proper_name|constructor].
  - discriminate.
  - vm_compute. reflexivity.
  - reflexivity.
  - split; vm_compute; reflexivity.
  - vm_compute. reflexivity.
  - apply free_at_spec. vm_compute. reflexivity.
  - exists w', relLink. split; [exact Hrun|]. split; [exact H1|]. split; [exact H2|exact H3].
Defined.

Local Open Scope string_scope.
Local Open Scope Z_scope.

(** ** The directory name of a branch *)

Lemma has_slash_replace s : has_slash (replace_slash s) = false.
Proof.
  unfold replace_slash. induction s as [|c t IH]; [reflexivity|].
  cbn [map_bytes has_slash]. rewrite IH, orb_false_r. unfold slash_to_dash.
  destruct (Ascii.eqb c "/") eqn:E; [reflexivity|exact E].
Qed.

Lemma sanitize_no_slash x : has_slash (sanitizeBranchName x) = false.
Proof. rewrite sanitize_reencode. apply has_slash_replace. Qed.

Lemma sanitize_cons x r w :
  x <> "" -> DecodeRuneInString x = (r, w) ->
  sanitizeBranchName x = piece r ++ sanitizeBranchName (drop_bytes w x).
Proof.
  intros Hx D. rewrite !sanitize_pieces, (runes_cons x r w Hx D). reflexivity.
Qed.

Lemma piece_nonempty r : piece r <> "".
Proof. unfold piece. destruct (r =? slash); [discriminate|apply string_of_rune_nonempty]. Qed.

Lemma sanitize_nonempty x : x <> "" -> sanitizeBranchName x <> "".
Proof.
  intros Hx. destruct (DecodeRuneInString x) as [r w] eqn:D.
  rewrite (sanitize_cons x r w Hx D). pose proof (piece_nonempty r) as H.
  destruct (piece r); [congruence|discriminate].
Qed.

(** A rune decoded from a byte that is not ASCII is not ASCII. *)
Lemma decode_high c0 t0 r w :
  DecodeRuneInString (String c0 t0) = (r, w) -> 0x80 <= byte_val c0 -> 0x80 <= r.
Proof.
  unfold DecodeRuneInString. intros H Hc.
  pose proof (byte_val_range c0) as R0. unfold RuneError in H.
  destruct (byte_val c0 <? 128) eqn:E0; [lia|].
  destruct ((byte_val c0 <? 194) || (244 <? byte_val c0)) eqn:E1.
  { inversion H; subst. lia. }
  apply orb_false_iff in E1 as [E1 E1'].
  destruct t0 as [|c1 t1]; [inversion H; subst; lia|].
  pose proof (byte_val_range c1) as R1.
  destruct ((byte_val c1 <? accept_lo (byte_val c0)) || (accept_hi (byte_val c0) <? byte_val c1)) eqn:E2.
  { inversion H; subst. lia. }
  apply orb_false_iff in E2 as [E2 E2'].
  unfold accept_lo, accept_hi in *.
  destruct (byte_val c0 <? 224) eqn:E3.
  { inversion H; subst. rewrite dec2_val. Z.div_mod_to_equations. lia. }
  destruct t1 as [|c2 t2]; [inversion H; subst; lia|].
  pose proof (byte_val_range c2) as R2.
  destruct (negb (is_cont (byte_val c2))) eqn:E4.
  { inversion H; subst. lia. }
  destruct (byte_val c0 <? 240) eqn:E5.
  { inversion H; subst. rewrite dec3_val.
    destruct (byte_val c0 =? 224) eqn:Ea; destruct (byte_val c0 =? 237) eqn:Eb;
      destruct (byte_val c0 =? 240) eqn:Ec; destruct (byte_val c0 =? 244) eqn:Ed;
      try lia; Z.div_mod_to_equations; lia. }
  destruct t2 as [|c3 t3]; [inversion H; subst; lia|].
  destruct (negb (is_cont (byte_val c3))) eqn:E6.
  { inversion H; subst. lia. }
  inversion H; subst. rewrite dec4_val.
  destruct (byte_val c0 =? 224) eqn:Ea; destruct (byte_val c0 =? 237) eqn:Eb;
    destruct (byte_val c0 =? 240) eqn:Ec; destruct (byte_val c0 =? 244) eqn:Ed;
    try lia; Z.div_mod_to_equations; lia.
Qed.

(** The encoding of a rune that is not ASCII begins with a byte that
    is not ASCII. *)
Lemma piece_high r :
  valid_rune r -> 0x80 <= r -> exists c s, piece r = String c s /\ 0x80 <= byte_val c.
Proof.
  intros V Hr. unfold piece. replace (r =? slash) with false by (unfold slash; lia).
  rewrite (string_of_rune_arith r V). destruct V as [[_ Hmax] _]. unfold MaxRune in Hmax.
  destruct (r <=? 127) eqn:E1; [lia|].
  destruct (r <=? 2047) eqn:E2.
  { eexists _, _. split; [reflexivity|]. rewrite byte_val_of; Z.div_mod_to_equations; lia. }
  destruct (r <=? 65535) eqn:E3.
  { eexists _, _. split; [reflexivity|]. rewrite byte_val_of; Z.div_mod_to_equations; lia. }
  eexists _, _. split; [reflexivity|]. rewrite byte_val_of; Z.div_mod_to_equations; lia.
Qed.

(** The first byte of a sanitized name: the first byte of the name,
    a dash for a separator, or a byte that is not ASCII. *)
Lemma sanitize_first c t :
  (byte_val c < 0x80
   /\ sanitizeBranchName (String c t) = String (slash_to_dash c) (sanitizeBranchName t))
  \/ (exists c' s, sanitizeBranchName (String c t) = String c' s /\ 0x80 <= byte_val c').
Proof.
  destruct (DecodeRuneInString (String c t)) as [r w] eqn:D.
  pose proof (sanitize_cons (String c t) r w ltac:(discriminate) D) as Hs.
  destruct (Z_lt_ge_dec (byte_val c) 0x80) as [Hlo|Hhi].
  - left. split; [exact Hlo|].
    unfold DecodeRuneInString in D. replace (byte_val c <? 128) with true in D by lia.
    inversion D; subst r w. cbn [drop_bytes] in Hs. rewrite Hs. clear Hs D.
    unfold piece, slash_to_dash.
    destruct (Ascii.eqb c "/") eqn:E.
    + apply Ascii.eqb_eq in E. subst c. reflexivity.
    + replace (byte_val c =? slash) with false.
      * unfold string_of_rune. pose proof (byte_val_range c).
        replace ((byte_val c <? 0) || (MaxRune <? byte_val c) || is_surrogate (byte_val c))
          with false by (unfold MaxRune, is_surrogate; lia).
        replace (byte_val c <=? 127) with true by lia. now rewrite byte_of_val.
      * symmetry. apply Z.eqb_neq. intros E'. apply Ascii.eqb_neq in E. apply E.
        rewrite <- (byte_of_val c), E'. reflexivity.
  - right. pose proof (decode_cases _ _ _ D ltac:(discriminate)) as [V _].
    destruct (piece_high r V) as (c' & s & Hp & Hc'); [eapply decode_high; [exact D|lia]|].
    rewrite Hs, Hp. eexists _, _. split; [reflexivity|exact Hc'].
Qed.

Lemma sanitize_dot x : sanitizeBranchName x = "." -> x = ".".
Proof.
  destruct x as [|c t]; [discriminate|]. intros H.
  destruct (sanitize_first c t) as [[_ E]|(c' & s & E & Hc)]; rewrite E in H.
  - injection H as H1 H2.
    assert (t = "") by (destruct t; [reflexivity|exfalso; now apply (sanitize_nonempty (String a t))]).
    subst t. f_equal. unfold slash_to_dash in H1. destruct (Ascii.eqb c "/"); [discriminate|exact H1].
  - injection H as H1 H2. subst c'. vm_compute in Hc. now contradiction Hc.
Qed.

Lemma sanitize_dotdot x : sanitizeBranchName x = ".." -> x = "..".
Proof.
  destruct x as [|c t]; [discriminate|]. intros H.
  destruct (sanitize_first c t) as [[_ E]|(c' & s & E & Hc)]; rewrite E in H.
  - injection H as H1 H2. apply sanitize_dot in H2. subst t. f_equal.
    unfold slash_to_dash in H1. destruct (Ascii.eqb c "/"); [discriminate|exact H1].
  - injection H as H1 H2. subst c'. vm_compute in Hc. now contradiction Hc.
Qed.

(** X19.  The directory name [sanitizeBranchName] gives never
    holds a separator.  For every name but the empty one, [.] and
    [..], it is one path element, so that the place of the worktree is
    an entry of [tree/] itself: neither [tree/] nor a place above or
    below. *)
Theorem sanitize_one_element (name treeDir : string) :
  has_slash (sanitizeBranchName name) = false
  /\ (name <> "" -> name <> "." -> name <> ".." ->
      proper (sanitizeBranchName name)
      /\ (IsAbs treeDir = true ->
          elements (Join treeDir (sanitizeBranchName name))
          = (elements treeDir ++ [sanitizeBranchName name])%list)).
Proof.
  split; [apply sanitize_no_slash|]. intros H0 H1 H2.
  assert (Hp : proper (sanitizeBranchName name)).
  { split; [apply sanitize_no_slash|]. split; [now apply sanitize_nonempty|].
    split; intros E; [apply sanitize_dot in E|apply sanitize_dotdot in E]; congruence. }
  split; [exact Hp|]. intros Ha. now apply elements_Join_name.
Qed.

(** ** Persisting a link *)

Local Open Scope list_scope.

Section AddLink.
Variable git : Git.


End AddLink.

Import Example.


Local Open Scope string_scope.
Local Open Scope Z_scope.

(** ** Restoring all entries to a fresh worktree *)

Local Open Scope list_scope.

Lemma free_way_dirs (m : gmap (list string) node) (k : list string) e mode :
  lstat_key m k = Ok (Directory mode) -> free_way m (k ++ [e]) = true.
Proof.
  intros Hl. unfold free_way. apply forallb_forall. intros i Hi. apply in_seq in Hi.
  rewrite length_app in Hi. cbn [length] in Hi.
  rewrite take_app_le by lia.
  destruct (decide (i = length k)) as [->|Hne].
  - rewrite firstn_all. apply lstat_key_node in Hl.
    rewrite node_at_lookup in Hl by (destruct k; [cbn in Hi; lia|discriminate]).
    now rewrite Hl.
  - apply lstat_key_dirs in Hl.
    destruct (check_dirs_ok_prefix _ [] k i Hl ltac:(lia)) as [md Hmd]. cbn [app] in Hmd.
    rewrite node_at_lookup in Hmd.
    + now rewrite Hmd.
    + intros E. apply (f_equal (@length string)) in E. rewrite length_take in E.
      cbn [length] in E. lia.
Qed.

Lemma shallower_entry (depth : nat) (m : gmap (list string) node) k name :
  shallower depth m k -> shallower depth m (k ++ [name]).
Proof.
  intros H r n Hn. rewrite <- app_assoc in Hn. apply H in Hn. cbn [app length] in Hn. lia.
Qed.

Lemma under_sibling (k : list string) a b r : a <> b -> under (k ++ [a]) (k ++ b :: r) = false.
Proof.
  intros Hab. destruct (under (k ++ [a]) (k ++ b :: r)) eqn:E; [|reflexivity].
  apply under_spec in E as [s E]. rewrite <- app_assoc in E. apply app_inv_head in E.
  inversion E. congruence.
Qed.

Lemma count_ok_all names :
  count_ok (map (fun name : string => (name, @Ok string unit tt)) names) = length names.
Proof. induction names as [|x l IH]; [reflexivity|]. unfold count_ok in *. cbn. now rewrite IH. Qed.

Lemma failures_none names :
  failures (map (fun name : string => (name, @Ok string unit tt)) names) = [].
Proof. induction names as [|x l IH]; [reflexivity|]. unfold failures in *. cbn. exact IH. Qed.

Section Fresh.
Variable flags : Flags.
Variables sharedDir worktreeRoot : string.
Variable w : World.
Variable mwt : Z.
Hypothesis Hlink : restoreLink flags = false.
Hypothesis Hto : restoreTo flags = ""%string.
Hypothesis Hs : IsAbs sharedDir = true.
Hypothesis Hw : IsAbs worktreeRoot = true.
Hypothesis Hplain : plain_tree (fs w) (elements sharedDir).
Hypothesis Hdepth : shallower max_depth (fs w) (elements sharedDir).
Hypothesis Hap : apart (elements sharedDir) (elements worktreeRoot).
Hypothesis Hwt : lstat_key (fs w) (elements worktreeRoot) = Ok (Directory mwt).

(** The entries are restored one after the other; a world on the way
    differs from the first inside the worktree alone. *)
Lemma restore_each_fresh : forall rest wi,
  NoDup rest ->
  (forall name, In name rest ->
     proper name /\ exists n, lstat_key (fs w) (elements sharedDir ++ [name]) = Ok n) ->
  (forall q, under (elements worktreeRoot) q = false -> fs wi !! q = fs w !! q) ->
  lstat_key (fs wi) (elements worktreeRoot) = Ok (Directory mwt) ->
  (forall name r, In name rest -> fs wi !! (elements worktreeRoot ++ name :: r) = None) ->
  umask wi = umask w ->
  exists w',
    restore_each flags sharedDir worktreeRoot rest wi
      = (None, map (fun name => (name, Ok tt)) rest, w')
    /\ (forall name r, In name rest ->
          fs w' !! (elements worktreeRoot ++ name :: r)
          = copy_node (umask w) <$> fs w !! (elements sharedDir ++ name :: r))
    /\ (forall q, (forall name, In name rest -> under (elements worktreeRoot ++ [name]) q = false) ->
          fs w' !! q = fs wi !! q).
Proof.
  induction rest as [|name rest IH]; intros wi Hnd Hnames Hout Hroot Hfree Hu.
  - exists wi. cbn [restore_each map]. split; [reflexivity|]. split; [intros ? ? []|reflexivity].
  - destruct (Hnames name (or_introl eq_refl)) as (Hname & entry & Hentry).
    inversion Hnd as [|? ? Hnotin Hnd']; subst.
    destruct Hap as [Hap1 Hap2].
    assert (Hstore : forall r, fs wi !! (elements sharedDir ++ r) = fs w !! (elements sharedDir ++ r)).
    { intros r. apply Hout. now apply under_false_app. }
    assert (Hsame : forall k, under (elements worktreeRoot) k = false ->
                      lstat_key (fs wi) k = lstat_key (fs w) k).
    { intros k Hk. apply lstat_key_same. intros i. apply Hout.
      destruct (under (elements worktreeRoot) (take i k)) eqn:E; [|reflexivity].
      apply under_prefix in E. congruence. }
    set (line := (String "010" "Restoring " ++ name ++ "..." ++ String "010" "")%string).
    assert (Es : elements (Join sharedDir name) = elements sharedDir ++ [name])
      by now apply elements_Join_name.
    assert (Ed : elements (Join worktreeRoot name) = elements worktreeRoot ++ [name])
      by now apply elements_Join_name.
    assert (Hl : Lstat (Join sharedDir name) wi = Ok entry).
    { unfold Lstat. rewrite key_abs by now apply IsAbs_Join. rewrite Es.
      rewrite Hsame; [exact Hentry|]. now apply under_false_app. }
    destruct (restoreFile_copy_run flags [name] sharedDir worktreeRoot (print line wi) entry
                Hlink Hto Hs Hw)
      as (w2 & Hrun & Hcont & _ & _ & Hu2 & Hframe).
    + constructor; [exact Hname|constructor].
    + discriminate.
    + exact Hl.
    + cbn [join_slash print fs]. rewrite Es.
      eapply plain_tree_same; [apply plain_tree_sub; exact Hplain|].
      intros r. rewrite <- !app_assoc. apply Hstore.
    + cbn [join_slash print fs]. rewrite Es.
      eapply shallower_same; [apply shallower_entry; exact Hdepth|].
      intros r. rewrite <- !app_assoc. apply Hstore.
    + cbn [join_slash]. rewrite Es, Ed. apply apart_app. now split.
    + cbn [join_slash print fs]. rewrite Ed. eapply free_way_dirs. exact Hroot.
    + cbn [join_slash print fs]. rewrite Ed. intros r. rewrite <- app_assoc.
      apply Hfree. now left.
    + cbn [join_slash print fs umask] in Hrun, Hcont, Hu2, Hframe. rewrite Es, Ed in *.
      assert (Hfr : forall q, under (elements worktreeRoot ++ [name]) q = false ->
                      fs w2 !! q = fs wi !! q).
      { intros q Hq. destruct (Hframe q Hq) as [H|(Hnone & i & Hi & ->)]; [exact H|].
        exfalso. rewrite length_app in Hi. cbn [length] in Hi.
        rewrite take_app_le in Hnone by lia.
        destruct (decide (i = length (elements worktreeRoot))) as [->|Hne].
        - rewrite firstn_all in Hnone. apply lstat_key_node in Hroot.
          rewrite node_at_lookup in Hroot; [congruence|].
          intros E. rewrite E in Hi. cbn in Hi. lia.
        - apply lstat_key_dirs in Hroot.
          destruct (check_dirs_ok_prefix _ [] _ i Hroot ltac:(lia)) as [md Hmd].
          cbn [app] in Hmd. rewrite node_at_lookup in Hmd; [congruence|].
          intros E. apply (f_equal (@length string)) in E. rewrite length_take in E.
          cbn [length] in E. lia. }
      destruct (IH (print (report name (Ok tt)) w2)) as (w' & Heach & Hc' & Hf').
      * exact Hnd'.
      * intros x Hx. apply Hnames. now right.
      * intros q Hq. cbn [print fs]. rewrite Hfr; [now apply Hout|].
        destruct (under (elements worktreeRoot ++ [name]) q) eqn:E; [|reflexivity].
        apply under_app_l in E. congruence.
      * cbn [print fs]. rewrite (lstat_key_same (fs wi) (fs w2)); [exact Hroot|].
        intros i. apply Hfr.
        destruct (under (elements worktreeRoot ++ [name]) (take i (elements worktreeRoot))) eqn:E;
          [|reflexivity].
        apply under_spec in E as [r E]. apply (f_equal (@length string)) in E.
        rewrite !length_app, length_take in E. cbn [length] in E. lia.
      * intros x r Hx. cbn [print fs]. rewrite Hfr.
        -- apply Hfree. now right.
        -- apply under_sibling. intros ->. apply Hnotin. now apply list_elem_of_In.
      * cbn [print umask]. congruence.
      * exists w'. split; [|split].
        -- cbn [restore_each map]. rewrite Hl. fold line. rewrite Hrun, Heach. reflexivity.
        -- intros x r [<-|Hx].
           ++ rewrite Hf'.
              ** cbn [print fs].
                 pose proof (Hcont r) as Hc. rewrite <- !app_assoc in Hc. cbn [app] in Hc.
                 rewrite Hc, Hu. now rewrite Hstore.
              ** intros y Hy. apply under_sibling. intros ->. apply Hnotin. now apply list_elem_of_In.
           ++ now apply Hc'.
        -- intros q Hq. rewrite Hf' by (intros y Hy; apply Hq; now right).
           cbn [print fs]. apply Hfr. apply Hq. now left.
Qed.

End Fresh.

Section FreshAll.
Variable flags : Flags.


End FreshAll.

Import Example.


Local Open Scope string_scope.
Local Open Scope Z_scope.

(** ** Switching to a branch without a worktree *)

Local Open Scope list_scope.

Section New.
Variable git : Git.


End New.

Import Example.


Local Open Scope string_scope.
Local Open Scope Z_scope.
